(** * clara-apps: the Netlify functions in front of the Flow webhooks

    A shallow embedding of the three request handlers of the repository

      - [netlify/functions/api.js]        (module [Api]),
      - [netlify/functions/flow-proxy.js] (module [FlowProxy]),
      - the older login proxy             (module [LoginProxy]),

    together with the part of the ECMAScript and Node run time they call:
    strings of UTF-16 code units, [JSON.parse], [JSON.stringify],
    [URLSearchParams], exceptions and [try]/[catch], and [fetch] under an
    [AbortController] deadline. *)

From Stdlib Require Import ZArith NArith List String Ascii Bool Lia.
From Stdlib Require DecimalFacts DecimalN DecimalPos.
Import ListNotations.

Set Implicit Arguments.
Set Warnings "-register-all".
Local Open Scope N_scope.

(** ** ECMAScript strings

    A string value is a finite sequence of 16-bit code units. *)

Definition jsstring := list N.

(** An ASCII literal, one code unit per character. *)
Definition js (s : string) : jsstring :=
  map N_of_ascii (list_ascii_of_string s).

(** A literal written with a backquote wherever the text has a double quote
    (U+0022), so that JSON texts stay readable: [jsq "{`a`:1}"] is the
    seven code units of the JSON text that maps key a to 1. *)
Definition jsq (s : string) : jsstring :=
  map (fun c => if c =? 96 then 34 else c) (js s).

Fixpoint str_eqb (a b : jsstring) : bool :=
  match a, b with
  | [], [] => true
  | x :: a', y :: b' => (x =? y) && str_eqb a' b'
  | _, _ => false
  end.

(** Truthiness of a string: every string but the empty one. *)
Definition truthy (s : jsstring) : bool :=
  match s with [] => false | _ :: _ => true end.

(** [a || b] on strings. *)
Definition str_or (a b : jsstring) : jsstring := if truthy a then a else b.

(** [opt || b] where [opt] is a string, [null] or [undefined]. *)
Definition opt_or (a : option jsstring) (b : jsstring) : jsstring :=
  match a with Some s => str_or s b | None => b end.

(** [Boolean(x)] for a string, [null] or [undefined]. *)
Definition Boolean_opt (a : option jsstring) : bool :=
  match a with Some s => truthy s | None => false end.

(** [String.prototype.startsWith] *)
Fixpoint startsWith (s p : jsstring) : bool :=
  match p, s with
  | [], _ => true
  | y :: p', x :: s' => (x =? y) && startsWith s' p'
  | _ :: _, [] => false
  end.

(** [String.prototype.endsWith] *)
Definition endsWith (s p : jsstring) : bool := startsWith (rev s) (rev p).

(** [String.prototype.includes] *)
Fixpoint includes (s p : jsstring) : bool :=
  startsWith s p || match s with [] => false | _ :: s' => includes s' p end.

(** [s.slice(n)] for [0 <= n]. *)
Definition slice_from (n : nat) (s : jsstring) : jsstring := skipn n s.

(** [s.slice(1, -1)]: from index 1 up to, not including, the last unit. *)
Definition slice_1_m1 (s : jsstring) : jsstring := removelast (skipn 1 s).

(** The code units that [trim] removes: WhiteSpace and LineTerminator of
    ECMA-262 (TAB, VT, FF, SP, NBSP, ZWNBSP, the Zs category, LF, CR, LS,
    PS).  U+FEFF, the byte-order mark, is one of them. *)
Definition isWhiteSpace (c : N) : bool :=
  ((9 <=? c) && (c <=? 13)) || (c =? 32) || (c =? 160) || (c =? 5760)
  || ((8192 <=? c) && (c <=? 8202)) || (c =? 8232) || (c =? 8233)
  || (c =? 8239) || (c =? 8287) || (c =? 12288) || (c =? 65279).

Fixpoint trimStart (s : jsstring) : jsstring :=
  match s with
  | c :: s' => if isWhiteSpace c then trimStart s' else s
  | [] => []
  end.

Definition trimEnd (s : jsstring) : jsstring := rev (trimStart (rev s)).

(** [String.prototype.trim] *)
Definition trim (s : jsstring) : jsstring := trimEnd (trimStart s).

(** [s.charCodeAt(0)]; [None] stands for NaN. *)
Definition charCodeAt0 (s : jsstring) : option N := hd_error s.

(** [s.split(sep)[0]] for a one-unit separator: the text before the first
    separator, all of [s] when there is none. *)
Fixpoint split_first (sep : N) (s : jsstring) : jsstring :=
  match s with
  | [] => []
  | c :: s' => if c =? sep then [] else c :: split_first sep s'
  end.

(** [s.split(sep)] for a one-unit separator. *)
Fixpoint split_on (sep : N) (s : jsstring) : list jsstring :=
  match s with
  | [] => [[]]
  | c :: s' =>
      if c =? sep then [] :: split_on sep s'
      else match split_on sep s' with
           | seg :: segs => (c :: seg) :: segs
           | [] => [[c]]
           end
  end.

(** ** Values

    The values the handlers build and that [JSON.parse] returns.  An
    object holds its own properties in creation order, each key once. *)

(** A number is kept as the decimal [mantissa * 10 ^ exponent] its literal
    denotes, in lowest terms: the mantissa is no multiple of ten, and zero
    is [0 * 10 ^ 0].  An engine rounds every literal to the nearest
    binary64; the two readings print alike on every literal of at most
    fifteen significant digits within the binary64 range, which covers the
    status codes and the scenarios below. *)
Record number := Num { mantissa : Z; exponent : Z }.

Fixpoint strip_zeros (fuel : nat) (m e : Z) : number :=
  match fuel with
  | O => Num m e
  | S f =>
      if (m =? 0)%Z then Num 0 0
      else if (Z.rem m 10 =? 0)%Z then strip_zeros f (Z.quot m 10) (e + 1)%Z
      else Num m e
  end.

Definition mk_number (m e : Z) : number :=
  strip_zeros (S (Z.to_nat (Z.log2 (Z.abs m)))) m e.

Definition number_of_Z (z : Z) : number := mk_number z 0.

Inductive value :=
| JUndefined
| JNull
| JBool (b : bool)
| JNumber (n : number)
| JString (s : jsstring)
| JArray (elems : list value)
| JObject (props : list (jsstring * value)).


(** [v ?? d]: [d] when [v] is [null] or [undefined]. *)
Definition nullish_or (v d : value) : value :=
  match v with JNull | JUndefined => d | _ => v end.

(** CreateDataProperty / an assignment that makes or updates an own data
    property: an existing key keeps its place and takes the new value, a
    new key goes last. *)
Fixpoint obj_define {A} (k : jsstring) (v : A) (props : list (jsstring * A))
  : list (jsstring * A) :=
  match props with
  | [] => [(k, v)]
  | (k', v') :: rest =>
      if str_eqb k' k then (k, v) :: rest else (k', v') :: obj_define k v rest
  end.

Fixpoint obj_get {A} (k : jsstring) (props : list (jsstring * A)) : option A :=
  match props with
  | [] => None
  | (k', v') :: rest => if str_eqb k' k then Some v' else obj_get k rest
  end.

(** An object literal [{ k1: v1, ..., kn: vn }], spreads already flattened. *)
Definition obj_literal {A} (fields : list (jsstring * A)) : list (jsstring * A) :=
  fold_left (fun o kv => obj_define (fst kv) (snd kv) o) fields [].

Definition is_digit (c : N) : bool := (48 <=? c) && (c <=? 57).

Fixpoint digits_value (acc : N) (s : jsstring) : N :=
  match s with
  | [] => acc
  | c :: s' => digits_value (acc * 10 + (c - 48)) s'
  end.

(** An array index: a canonical numeric string below 2^32 - 1.  Such keys
    are enumerated first, in ascending order. *)
Definition array_index (k : jsstring) : option N :=
  match k with
  | [] => None
  | c :: rest =>
      if forallb is_digit k && (negb (c =? 48) || match rest with [] => true | _ => false end)
         && (List.length k <=? 10)%nat
      then let n := digits_value 0 k in
           if n <? 4294967295 then Some n else None
      else None
  end.

Fixpoint insert_index {A} (i : N) (kv : jsstring * A)
  (sorted : list (N * (jsstring * A))) : list (N * (jsstring * A)) :=
  match sorted with
  | [] => [(i, kv)]
  | (j, kv') :: rest =>
      if i <? j then (i, kv) :: sorted else (j, kv') :: insert_index i kv rest
  end.

Fixpoint index_props {A} (props : list (jsstring * A)) : list (N * (jsstring * A)) :=
  match props with
  | [] => []
  | kv :: rest =>
      match array_index (fst kv) with
      | Some i => insert_index i kv (index_props rest)
      | None => index_props rest
      end
  end.

(** OrdinaryOwnPropertyKeys: array indices ascending, then the other keys
    in creation order. *)
Definition own_props {A} (props : list (jsstring * A)) : list (jsstring * A) :=
  map snd (index_props props)
  ++ filter (fun kv => match array_index (fst kv) with Some _ => false | None => true end) props.

(** [Object.keys(o)] *)
Definition Object_keys {A} (props : list (jsstring * A)) : list jsstring :=
  map fst (own_props props).

(** ** JSON.parse

    The JSON grammar of ECMA-404 as [JSON.parse] reads it, run as a
    pushdown automaton that takes one code unit at a time: a lexer state
    for the token being read, a parser phase for what may come next, and a
    stack of the arrays and objects still open. *)

Module Json.

Inductive numphase :=
| NMinus   (* after the sign: a digit must follow *)
| NZero    (* after a leading 0 *)
| NInt     (* inside the integer digits *)
| NDot     (* after the point: a digit must follow *)
| NFrac    (* inside the fraction digits *)
| NE       (* after e or E: a sign or a digit must follow *)
| NESign   (* after the exponent sign: a digit must follow *)
| NExp.    (* inside the exponent digits *)

Record numacc := NumAcc {
  neg : bool;      (* a leading minus was read *)
  digits : N;      (* integer and fraction digits read so far, as one integer *)
  ndigits : nat;   (* how many of them *)
  nfrac : N;       (* how many of them follow the point *)
  eneg : bool;     (* the exponent is negative *)
  edigits : N      (* the exponent digits read so far *)
}.

Inductive lexstate :=
| LIdle
| LString (acc : jsstring)                     (* units read, last first *)
| LEscape (acc : jsstring)                     (* just after a backslash *)
| LUnicode (acc : jsstring) (k : nat) (code : N) (* k hex digits still due *)
| LNumber (p : numphase) (a : numacc)
| LLiteral (rest : jsstring) (v : value).      (* the units still due *)

Inductive phase :=
| PValue        (* a value must come *)
| PValueOrEnd   (* just after [: a value or ] *)
| PKey          (* after a comma in an object: a key must come *)
| PKeyOrEnd     (* just after {: a key or } *)
| PColon        (* after a key *)
| PCommaOrEnd   (* after a value inside an array or object *)
| PDone (v : value). (* the top-level value is complete *)

Inductive frame :=
| FArray (elems : list value)                 (* elements read, last first *)
| FObject (props : list (jsstring * value)) (key : option jsstring).

Record pstate := PState { lex : lexstate; ph : phase; stack : list frame }.

Definition init : pstate := PState LIdle PValue [].

(** JSON white space: space, tab, line feed, carriage return. *)
Definition is_ws (c : N) : bool :=
  (c =? 32) || (c =? 9) || (c =? 10) || (c =? 13).

Definition wants_value (p : phase) : bool :=
  match p with PValue | PValueOrEnd => true | _ => false end.

Definition wants_key (p : phase) : bool :=
  match p with PKey | PKeyOrEnd => true | _ => false end.

(** A complete value goes to the innermost open container, or ends the
    text when none is open. *)
Definition push_value (v : value) (st : list frame) : option pstate :=
  match st with
  | [] => Some (PState LIdle (PDone v) [])
  | FArray elems :: st' =>
      Some (PState LIdle PCommaOrEnd (FArray (v :: elems) :: st'))
  | FObject props (Some k) :: st' =>
      Some (PState LIdle PCommaOrEnd (FObject (obj_define k v props) None :: st'))
  | FObject _ None :: _ => None
  end.

Definition number_of_acc (a : numacc) : number :=
  let m := Z.of_N (digits a) in
  let e := (Z.of_N (edigits a)) in
  strip_zeros (S (ndigits a))
    (if neg a then (- m)%Z else m)
    ((if eneg a then (- e)%Z else e) - Z.of_N (nfrac a))%Z.

Definition num_complete (p : numphase) : bool :=
  match p with NZero | NInt | NFrac | NExp => true | _ => false end.

Definition add_digit (a : numacc) (c : N) (frac : bool) : numacc :=
  NumAcc (neg a) (digits a * 10 + (c - 48)) (S (ndigits a))
         (if frac then nfrac a + 1 else nfrac a) (eneg a) (edigits a).

Definition add_edigit (a : numacc) (c : N) : numacc :=
  NumAcc (neg a) (digits a) (ndigits a) (nfrac a) (eneg a)
         (edigits a * 10 + (c - 48)).

Definition set_eneg (a : numacc) (b : bool) : numacc :=
  NumAcc (neg a) (digits a) (ndigits a) (nfrac a) b (edigits a).

Definition is_e (c : N) : bool := (c =? 101) || (c =? 69).

(** One more unit of a number: the next phase, or [None] when the unit
    does not continue the number. *)
Definition num_step (p : numphase) (a : numacc) (c : N)
  : option (numphase * numacc) :=
  match p with
  | NMinus =>
      if c =? 48 then Some (NZero, add_digit a c false)
      else if is_digit c then Some (NInt, add_digit a c false) else None
  | NZero =>
      if c =? 46 then Some (NDot, a)
      else if is_e c then Some (NE, a) else None
  | NInt =>
      if is_digit c then Some (NInt, add_digit a c false)
      else if c =? 46 then Some (NDot, a)
      else if is_e c then Some (NE, a) else None
  | NDot => if is_digit c then Some (NFrac, add_digit a c true) else None
  | NFrac =>
      if is_digit c then Some (NFrac, add_digit a c true)
      else if is_e c then Some (NE, a) else None
  | NE =>
      if c =? 43 then Some (NESign, a)
      else if c =? 45 then Some (NESign, set_eneg a true)
      else if is_digit c then Some (NExp, add_edigit a c) else None
  | NESign => if is_digit c then Some (NExp, add_edigit a c) else None
  | NExp => if is_digit c then Some (NExp, add_edigit a c) else None
  end.

Definition hex_value (c : N) : option N :=
  if is_digit c then Some (c - 48)
  else if (97 <=? c) && (c <=? 102) then Some (c - 87)
  else if (65 <=? c) && (c <=? 70) then Some (c - 55)
  else None.

(** The unit an escape letter stands for; [\u] is handled apart. *)
Definition escape_value (c : N) : option N :=
  if c =? 34 then Some 34
  else if c =? 92 then Some 92
  else if c =? 47 then Some 47
  else if c =? 98 then Some 8
  else if c =? 102 then Some 12
  else if c =? 110 then Some 10
  else if c =? 114 then Some 13
  else if c =? 116 then Some 9
  else None.

Definition empty_acc (negative : bool) : numacc := NumAcc negative 0 0 0 false 0.

(** A unit read between tokens. *)
Definition step_idle (p : phase) (st : list frame) (c : N) : option pstate :=
  if is_ws c then Some (PState LIdle p st)
  else if c =? 34 then
    if wants_value p || wants_key p then Some (PState (LString []) p st) else None
  else if c =? 123 then
    if wants_value p then Some (PState LIdle PKeyOrEnd (FObject [] None :: st)) else None
  else if c =? 91 then
    if wants_value p then Some (PState LIdle PValueOrEnd (FArray [] :: st)) else None
  else if c =? 125 then
    match p, st with
    | (PKeyOrEnd | PCommaOrEnd), FObject props None :: st' =>
        push_value (JObject props) st'
    | _, _ => None
    end
  else if c =? 93 then
    match p, st with
    | (PValueOrEnd | PCommaOrEnd), FArray elems :: st' =>
        push_value (JArray (rev elems)) st'
    | _, _ => None
    end
  else if c =? 44 then
    match p, st with
    | PCommaOrEnd, FArray _ :: _ => Some (PState LIdle PValue st)
    | PCommaOrEnd, FObject _ _ :: _ => Some (PState LIdle PKey st)
    | _, _ => None
    end
  else if c =? 58 then
    match p with PColon => Some (PState LIdle PValue st) | _ => None end
  else if negb (wants_value p) then None
  else if c =? 45 then Some (PState (LNumber NMinus (empty_acc true)) p st)
  else if c =? 48 then
    Some (PState (LNumber NZero (add_digit (empty_acc false) c false)) p st)
  else if is_digit c then
    Some (PState (LNumber NInt (add_digit (empty_acc false) c false)) p st)
  else if c =? 116 then Some (PState (LLiteral (js "rue") (JBool true)) p st)
  else if c =? 102 then Some (PState (LLiteral (js "alse") (JBool false)) p st)
  else if c =? 110 then Some (PState (LLiteral (js "ull") JNull) p st)
  else None.

(** The closing quote of a string: a key in an object, a value elsewhere. *)
Definition end_string (s : jsstring) (p : phase) (st : list frame) : option pstate :=
  if wants_key p then
    match st with
    | FObject props None :: st' =>
        Some (PState LIdle PColon (FObject props (Some s) :: st'))
    | _ => None
    end
  else push_value (JString s) st.

Definition step (s : pstate) (c : N) : option pstate :=
  match lex s with
  | LIdle => step_idle (ph s) (stack s) c
  | LString acc =>
      if c =? 34 then end_string (rev acc) (ph s) (stack s)
      else if c =? 92 then Some (PState (LEscape acc) (ph s) (stack s))
      else if c <? 32 then None
      else Some (PState (LString (c :: acc)) (ph s) (stack s))
  | LEscape acc =>
      if c =? 117 then Some (PState (LUnicode acc 4 0) (ph s) (stack s))
      else match escape_value c with
           | Some u => Some (PState (LString (u :: acc)) (ph s) (stack s))
           | None => None
           end
  | LUnicode acc k code =>
      match hex_value c with
      | Some d =>
          let code' := code * 16 + d in
          match k with
          | S (S k') => Some (PState (LUnicode acc (S k') code') (ph s) (stack s))
          | _ => Some (PState (LString (code' :: acc)) (ph s) (stack s))
          end
      | None => None
      end
  | LNumber p a =>
      match num_step p a c with
      | Some (p', a') => Some (PState (LNumber p' a') (ph s) (stack s))
      | None =>
          if num_complete p then
            match push_value (JNumber (number_of_acc a)) (stack s) with
            | Some s' => step_idle (ph s') (stack s') c
            | None => None
            end
          else None
      end
  | LLiteral rest v =>
      match rest with
      | r :: rest' =>
          if c =? r then
            match rest' with
            | [] => push_value v (stack s)
            | _ :: _ => Some (PState (LLiteral rest' v) (ph s) (stack s))
            end
          else None
      | [] => None
      end
  end.

Fixpoint run (s : pstate) (text : jsstring) : option pstate :=
  match text with
  | [] => Some s
  | c :: text' =>
      match step s c with
      | Some s' => run s' text'
      | None => None
      end
  end.

(** The end of the text: a number may still be open; the top-level value
    must be complete and nothing else open. *)
Definition finish (s : pstate) : option value :=
  let closed :=
    match lex s with
    | LIdle => Some s
    | LNumber p a =>
        if num_complete p
        then push_value (JNumber (number_of_acc a)) (stack s) else None
    | _ => None
    end in
  match closed with
  | Some (PState LIdle (PDone v) []) => Some v
  | _ => None
  end.

(** [JSON.parse(text)]: the value, or [None] where it throws a SyntaxError. *)
Definition parse (text : jsstring) : option value :=
  match run init text with
  | Some s => finish s
  | None => None
  end.

End Json.

(** ** JSON.stringify *)

Fixpoint units_of_uint (u : Decimal.uint) : jsstring :=
  match u with
  | Decimal.Nil => []
  | Decimal.D0 u' => 48 :: units_of_uint u'
  | Decimal.D1 u' => 49 :: units_of_uint u'
  | Decimal.D2 u' => 50 :: units_of_uint u'
  | Decimal.D3 u' => 51 :: units_of_uint u'
  | Decimal.D4 u' => 52 :: units_of_uint u'
  | Decimal.D5 u' => 53 :: units_of_uint u'
  | Decimal.D6 u' => 54 :: units_of_uint u'
  | Decimal.D7 u' => 55 :: units_of_uint u'
  | Decimal.D8 u' => 56 :: units_of_uint u'
  | Decimal.D9 u' => 57 :: units_of_uint u'
  end.

(** The decimal digits of a natural number, ["0"] for zero. *)
Definition decimal (n : N) : jsstring := units_of_uint (N.to_uint n).

(** Number::toString: with the digits [s], their count [k] and the
    position [n] of the point, the plain form when [-6 < n <= 21], the
    exponent form otherwise. *)
Definition number_to_string (x : number) : jsstring :=
  let m := mantissa x in
  if (m =? 0)%Z then js "0"
  else
    let s := decimal (Z.abs_N m) in
    let k := Z.of_nat (List.length s) in
    let n := (k + exponent x)%Z in
    let body :=
      if ((k <=? n) && (n <=? 21))%Z then
        s ++ repeat 48 (Z.to_nat (n - k))
      else if ((0 <? n) && (n <=? 21))%Z then
        firstn (Z.to_nat n) s ++ 46 :: skipn (Z.to_nat n) s
      else if ((-6 <? n) && (n <=? 0))%Z then
        48 :: 46 :: repeat 48 (Z.to_nat (- n)) ++ s
      else
        let e := (n - 1)%Z in
        let sign := if (e <? 0)%Z then 45 else 43 in
        match s with
        | [d] => d :: 101 :: sign :: decimal (Z.abs_N e)
        | d :: ds => d :: 46 :: ds ++ 101 :: sign :: decimal (Z.abs_N e)
        | [] => []
        end in
    if (m <? 0)%Z then 45 :: body else body.

Definition hex_digit (d : N) : N := if d <? 10 then 48 + d else 87 + d.

(** The six units of a [\uXXXX] escape, in lower-case hexadecimal. *)
Definition unicode_escape (c : N) : jsstring :=
  [92; 117; hex_digit (c / 4096 mod 16); hex_digit (c / 256 mod 16);
   hex_digit (c / 16 mod 16); hex_digit (c mod 16)].

Definition is_high_surrogate (c : N) : bool := (55296 <=? c) && (c <=? 56319).
Definition is_low_surrogate (c : N) : bool := (56320 <=? c) && (c <=? 57343).

Definition quote_unit (c : N) : jsstring :=
  if c =? 8 then js "\b"
  else if c =? 9 then js "\t"
  else if c =? 10 then js "\n"
  else if c =? 12 then js "\f"
  else if c =? 13 then js "\r"
  else if c =? 34 then [92; 34]
  else if c =? 92 then [92; 92]
  else if (c <? 32) || is_high_surrogate c || is_low_surrogate c
  then unicode_escape c
  else [c].

Fixpoint quote_body (s : jsstring) : jsstring :=
  match s with
  | [] => []
  | c :: tl =>
      match tl with
      | d :: tl' =>
          if is_high_surrogate c && is_low_surrogate d
          then c :: d :: quote_body tl'
          else quote_unit c ++ quote_body tl
      | [] => quote_unit c
      end
  end.

(** QuoteJSONString *)
Definition quote (s : jsstring) : jsstring := 34 :: quote_body s ++ [34].

Fixpoint join (sep : jsstring) (parts : list jsstring) : jsstring :=
  match parts with
  | [] => []
  | [p] => p
  | p :: rest => p ++ sep ++ join sep rest
  end.

(** [JSON.stringify(v)] without replacer or indentation; [None] is the
    [undefined] it returns for [undefined].  In an array [undefined]
    prints as null, in an object the property is left out. *)
Fixpoint JSON_stringify (v : value) : option jsstring :=
  match v with
  | JUndefined => None
  | JNull => Some (js "null")
  | JBool true => Some (js "true")
  | JBool false => Some (js "false")
  | JNumber n => Some (number_to_string n)
  | JString s => Some (quote s)
  | JArray elems =>
      let parts :=
        map (fun x => match JSON_stringify x with
                      | Some t => t
                      | None => js "null"
                      end) elems in
      Some (91 :: join [44] parts ++ [93])
  | JObject props =>
      let printed := map (fun kv => (fst kv, JSON_stringify (snd kv))) props in
      let parts :=
        flat_map (fun kt => match snd kt with
                            | Some t => [quote (fst kt) ++ 58 :: t]
                            | None => []
                            end) (own_props printed) in
      Some (123 :: join [44] parts ++ [125])
  end.

(** ** UTF-8 and URLSearchParams

    [new URLSearchParams(text)] follows the URL Standard: the text is
    encoded to UTF-8, cut at every [&], each non-empty piece cut at its
    first [=], every [+] read as a space, percent escapes decoded, and the
    bytes decoded from UTF-8 with U+FFFD for what is ill-formed. *)

Module Utf8.

(** The scalar values of a string: a surrogate pair is one code point, a
    lone surrogate is replaced by U+FFFD. *)
Fixpoint scalars (s : jsstring) : list N :=
  match s with
  | [] => []
  | c :: tl =>
      match tl with
      | d :: tl' =>
          if is_high_surrogate c && is_low_surrogate d
          then (65536 + (c - 55296) * 1024 + (d - 56320)) :: scalars tl'
          else (if is_high_surrogate c || is_low_surrogate c then 65533 else c)
               :: scalars tl
      | [] => [if is_high_surrogate c || is_low_surrogate c then 65533 else c]
      end
  end.

Definition encode_scalar (cp : N) : list N :=
  if cp <? 128 then [cp]
  else if cp <? 2048 then [192 + cp / 64; 128 + cp mod 64]
  else if cp <? 65536 then
    [224 + cp / 4096; 128 + cp / 64 mod 64; 128 + cp mod 64]
  else
    [240 + cp / 262144; 128 + cp / 4096 mod 64; 128 + cp / 64 mod 64;
     128 + cp mod 64].

Definition encode (s : jsstring) : list N := flat_map encode_scalar (scalars s).

Definition units_of_scalar (cp : N) : jsstring :=
  if cp <? 65536 then [cp]
  else [55296 + (cp - 65536) / 1024; 56320 + (cp - 65536) mod 1024].

(** The decoder's state between bytes: the code point being assembled, the
    continuation bytes still due, and the range the next one must lie in. *)
Record dstate := DState { cp : N; needed : nat; lower : N; upper : N }.

Definition dinit : dstate := DState 0 0 128 191.

(** A byte that starts a sequence. *)
Definition start (b : N) : jsstring * dstate :=
  if b <? 128 then ([b], dinit)
  else if (194 <=? b) && (b <=? 223) then ([], DState (b - 192) 1 128 191)
  else if (224 <=? b) && (b <=? 239) then
    ([], DState (b - 224) 2 (if b =? 224 then 160 else 128)
                (if b =? 237 then 159 else 191))
  else if (240 <=? b) && (b <=? 244) then
    ([], DState (b - 240) 3 (if b =? 240 then 144 else 128)
                (if b =? 244 then 143 else 191))
  else ([65533], dinit).

Definition dstep (st : dstate) (b : N) : jsstring * dstate :=
  match needed st with
  | O => start b
  | S n =>
      if (lower st <=? b) && (b <=? upper st) then
        let cp' := cp st * 64 + (b - 128) in
        match n with
        | O => (units_of_scalar cp', dinit)
        | S _ => ([], DState cp' n 128 191)
        end
      else
        let (out, st') := start b in (65533 :: out, st')
  end.

Fixpoint decode_from (st : dstate) (bytes : list N) : jsstring :=
  match bytes with
  | [] => match needed st with O => [] | S _ => [65533] end
  | b :: bytes' => let (out, st') := dstep st b in out ++ decode_from st' bytes'
  end.

(** UTF-8 decode without BOM. *)
Definition decode (bytes : list N) : jsstring := decode_from dinit bytes.

End Utf8.

Fixpoint percent_decode (bytes : list N) : list N :=
  match bytes with
  | [] => []
  | c :: tl =>
      if c =? 37 then
        match tl with
        | h :: l :: tl' =>
            match Json.hex_value h, Json.hex_value l with
            | Some x, Some y => (x * 16 + y) :: percent_decode tl'
            | _, _ => c :: percent_decode tl
            end
        | _ => c :: percent_decode tl
        end
      else c :: percent_decode tl
  end.

(** The bytes after the first [sep], none when there is no [sep]. *)
Fixpoint after_first (sep : N) (s : list N) : list N :=
  match s with
  | [] => []
  | c :: s' => if c =? sep then s' else after_first sep s'
  end.

Definition form_component (bytes : list N) : jsstring :=
  Utf8.decode (percent_decode (map (fun b => if b =? 43 then 32 else b) bytes)).

(** The entries of [new URLSearchParams(text)], in order. *)
Definition URLSearchParams (text : jsstring) : list (jsstring * jsstring) :=
  let init := match text with c :: rest => if c =? 63 then rest else text | [] => [] end in
  flat_map
    (fun piece =>
       match piece with
       | [] => []
       | _ :: _ => [(form_component (split_first 61 piece),
                     form_component (after_first 61 piece))]
       end)
    (split_on 38 (Utf8.encode init)).

(** ** Exceptions, promises and effects *)

(** An Error object: its [name] and its [message]. *)
Record JSError := MkError { name : jsstring; message : jsstring }.

(** [String(e)], that is Error.prototype.toString. *)
Definition String_of_error (e : JSError) : jsstring :=
  if negb (truthy (name e)) then message e
  else if negb (truthy (message e)) then name e
  else name e ++ js ": " ++ message e.

(** What [fetch] rejects with when its signal aborts. *)
Definition AbortError : JSError :=
  MkError (js "AbortError") (js "This operation was aborted").

(** How a call, or the promise of an async call, ends: with a value, with
    an exception, or never (a promise that is never settled). *)
Inductive completion (A : Type) :=
| Normal (a : A)
| Throw (e : JSError)
| Pending.
Arguments Normal {A} a.
Arguments Throw {A} e.
Arguments Pending {A}.

Module Request.
Record t := Make {
  url : jsstring;
  method : jsstring;
  headers : list (jsstring * jsstring);
  body : option jsstring   (* [None]: undefined, no body *)
}.
End Request.

(** The calls a handler makes that the properties below observe. *)
Inductive effect :=
| EJsonParse (text : jsstring)        (* JSON.parse(text) *)
| EFormParse (text : jsstring)        (* new URLSearchParams(text) *)
| EFetch (req : Request.t).           (* fetch(url, options) *)

(** A computation: the calls it made, in order, and how it ended. *)
Definition JS (A : Type) : Type := list effect * completion A.

Definition ret {A} (a : A) : JS A := ([], Normal a).

Definition bind {A B} (m : JS A) (k : A -> JS B) : JS B :=
  match m with
  | (t1, Normal a) => let (t2, r) := k a in (t1 ++ t2, r)
  | (t1, Throw e) => (t1, Throw e)
  | (t1, Pending) => (t1, Pending)
  end.

(** [try { body } catch (e) { handler }] *)
Definition try_catch {A} (body : JS A) (handler : JSError -> JS A) : JS A :=
  match body with
  | (t1, Throw e) => let (t2, r) := handler e in (t1 ++ t2, r)
  | done => done
  end.

(** [try { body } finally { cleanup }] for a cleanup that neither throws
    nor returns. *)
Definition try_finally {A} (body : JS A) (cleanup : JS unit) : JS A :=
  match body with
  | (t1, Pending) => (t1, Pending)
  | (t1, r) => (t1 ++ fst cleanup, r)
  end.

Declare Scope js_scope.
Delimit Scope js_scope with js.
Notation "x <- m ;; k" := (bind m (fun x => k))
  (at level 61, m at next level, right associativity) : js_scope.
Local Open Scope js_scope.

(** ** The world outside a handler

    The upstream server as [fetch] sees it.  Times are in milliseconds
    from the moment the request is sent, which is also the moment the
    abort timer is armed. *)

Inductive body_read :=
| BodyText (at_ms : Z) (text : jsstring)   (* the whole body has arrived *)
| BodyError (at_ms : Z) (e : JSError)      (* the transfer broke *)
| BodyNever.                               (* the transfer stalls *)

Module Response.
Record t := Make {
  status : Z;
  content_type : option jsstring;   (* headers.get("content-type") *)
  read : body_read                  (* what text() will meet *)
}.
(** [res.ok] *)
Definition ok (r : t) : bool := ((200 <=? status r) && (status r <=? 299))%Z.
End Response.

Inductive upstream :=
| Responds (at_ms : Z) (r : Response.t)   (* status line and headers arrive *)
| Fails (at_ms : Z) (e : JSError)         (* DNS, connection, TLS failure *)
| Silent.                                 (* nothing ever arrives *)

(** Everything a handler reads that is not in the event: the process
    environment, the clock, the network, and three pieces of the run time
    that are taken as given: the text of a SyntaxError, Unicode lower
    casing, and Node's lenient base64 and UTF-8 decoding. *)
Record World := MkWorld {
  env_FLOW_BASE_URL : option jsstring;
  env_FLOW_API_KEY : option jsstring;
  env_N8N_WEBHOOK_URL : option jsstring;
  now_ISO : jsstring;                         (* new Date().toISOString() *)
  network : Request.t -> upstream;
  syntax_error_message : jsstring -> jsstring;
  toLowerCase : jsstring -> jsstring;
  base64_utf8 : jsstring -> jsstring  (* Buffer.from(b, "base64").toString("utf8") *)
}.

Module Event.
Record t := Make {
  httpMethod : option jsstring;
  path : option jsstring;
  headers : option (list (jsstring * jsstring));
  queryStringParameters : option (list (jsstring * jsstring));
  body : option jsstring;
  isBase64Encoded : bool
}.
End Event.

(** What a handler returns. *)
Module Reply.
Record t := Make {
  statusCode : Z;
  headers : list (jsstring * jsstring);
  body : option jsstring   (* [None]: undefined *)
}.
End Reply.

(** The outcome of [safeJsonParse] and [parseFormUrlEncoded]:
    [{ ok: true, value }] or [{ ok: false, error }]. *)
Inductive parsed :=
| Ok (value : value)
| Failed (error : jsstring).

(** What body normalization yields. *)
Record ParseOutcome := MkOutcome {
  payload : value;
  parsedAs : jsstring;
  parseError : option jsstring   (* [None]: null or absent *)
}.

Section Runtime.
Variable w : World.

(** The exception [JSON.parse] throws on a text it rejects. *)
Definition SyntaxError (text : jsstring) : JSError :=
  MkError (js "SyntaxError") (syntax_error_message w text).

(** [JSON.parse(text)] *)
Definition JSON_parse (text : jsstring) : JS value :=
  ([EJsonParse text],
   match Json.parse text with
   | Some v => Normal v
   | None => Throw (SyntaxError text)
   end).

(** [new URLSearchParams(raw)] with its [entries()] *)
Definition new_URLSearchParams (raw : jsstring) : JS (list (jsstring * jsstring)) :=
  ([EFormParse raw], Normal (URLSearchParams raw)).

(** Whether the abort timer, armed for [deadline] ms, has fired by [t].
    [None] is a timer that is not armed, or was cleared. *)
Definition aborted (deadline : option Z) (t : Z) : bool :=
  match deadline with Some d => (d <=? t)%Z | None => false end.

(** [await fetch(url, { ..., signal })] *)
Definition fetch (req : Request.t) (deadline : option Z) : JS Response.t :=
  ([EFetch req],
   match network w req with
   | Responds t r => if aborted deadline t then Throw AbortError else Normal r
   | Fails t e => if aborted deadline t then Throw AbortError else Throw e
   | Silent => match deadline with Some _ => Throw AbortError | None => Pending end
   end).

(** [await res.text()] *)
Definition text (r : Response.t) (deadline : option Z) : JS jsstring :=
  ([],
   match Response.read r with
   | BodyText t s => if aborted deadline t then Throw AbortError else Normal s
   | BodyError t e => if aborted deadline t then Throw AbortError else Throw e
   | BodyNever => match deadline with Some _ => Throw AbortError | None => Pending end
   end).

(** *** The helpers that api.js and flow-proxy.js both define, with the
    same text *)

Definition getRawBody (event : Event.t) : jsstring :=
  match Event.body event with
  | None => []
  | Some b =>
      if negb (truthy b) then []
      else if Event.isBase64Encoded event then base64_utf8 w b
      else b
  end.

Definition safeJsonParse (text : jsstring) : JS parsed :=
  try_catch (v <- JSON_parse text ;; ret (Ok v))
            (fun e => ret (Failed (String_of_error e))).

(** [obj[k] = v] on an object made by [{}], for a string [v]: the key
    [__proto__] reaches the setter of Object.prototype, which ignores a
    string, so no property is made. *)
Definition obj_assign (k : jsstring) (v : value) (o : list (jsstring * value))
  : list (jsstring * value) :=
  if str_eqb k (js "__proto__") then o else obj_define k v o.

Definition parseFormUrlEncoded (raw : jsstring) : JS parsed :=
  try_catch
    (params <- new_URLSearchParams raw ;;
     let obj := fold_left (fun o kv => obj_assign (fst kv) (JString (snd kv)) o)
                          params [] in
     ret (Ok (JObject obj)))
    (fun e => ret (Failed (String_of_error e))).

(** [f.ok && Object.keys(f.value || {}).length > 0], for the [f] that
    [parseFormUrlEncoded] returns: its value, when there is one, is the
    object built above. *)
Definition has_keys (f : parsed) : bool :=
  match f with
  | Ok (JObject props) => (0 <? List.length (Object_keys props))%nat
  | _ => false
  end.

Definition parsed_value (f : parsed) : value :=
  match f with Ok v => v | Failed _ => JUndefined end.

End Runtime.

(** [clearTimeout(t)]: from here on the timer cannot fire, which the
    callers below express by passing no deadline to what they await next. *)
Definition clearTimeout : JS unit := ret tt.

(** ** netlify/functions/api.js *)

Module Api.
Section Handler.
Variable w : World.

Definition VERSION : jsstring := js "api-v8-2026-01-30".
Definition DEFAULT_FLOW_BASE_URL : jsstring := js "https://flow.eraenterprise.id".
Definition TIMEOUT_MS : Z := 15000.

Definition corsHeaders : list (jsstring * jsstring) :=
  obj_literal
    [(js "Access-Control-Allow-Origin", js "*");
     (js "Access-Control-Allow-Headers", js "Content-Type, Authorization, X-API-Key");
     (js "Access-Control-Allow-Methods", js "GET,POST,OPTIONS")].

Definition normalizePath (event : Event.t) : jsstring :=
  let rawPath := opt_or (Event.path event) (js "/") in
  let path := rawPath in
  let fnPrefix := js "/.netlify/functions/api" in
  let path := if startsWith path fnPrefix
              then slice_from (List.length fnPrefix) path else path in
  let path := if startsWith path (js "/api/") then slice_from 4 path else path in
  let path := if str_eqb path (js "/api") then js "/" else path in
  let path := if negb (startsWith path (js "/")) then js "/" ++ path else path in
  path.

Definition sanitizeRaw (raw : jsstring) : jsstring :=
  let s := trim (str_or raw []) in
  let s := match charCodeAt0 s with
           | Some c => if c =? 65279 then slice_from 1 s else s
           | None => s
           end in
  let s := if (2 <=? List.length s)%nat && startsWith s (js "'") && endsWith s (js "'")
           then trim (slice_1_m1 s) else s in
  s.

Definition raw_fallback (raw0 : jsstring) (error : jsstring) : ParseOutcome :=
  MkOutcome (JObject (obj_literal [(js "rawBody", JString raw0)]))
            (js "raw") (Some error).

Definition parsePayload (event : Event.t) : JS ParseOutcome :=
  let raw0 := getRawBody w event in
  let raw := sanitizeRaw raw0 in
  if negb (truthy raw) then ret (MkOutcome (JObject []) (js "empty") None)
  else
    j1 <- safeJsonParse w raw ;;
    match j1 with
    | Ok (JString inner) =>
        j2 <- safeJsonParse w inner ;;
        match j2 with
        | Ok v2 => ret (MkOutcome (nullish_or v2 (JObject [])) (js "json-double") None)
        | Failed e2 => ret (raw_fallback raw0 e2)
        end
    | Ok v1 => ret (MkOutcome (nullish_or v1 (JObject [])) (js "json") None)
    | Failed e1 =>
        f <- parseFormUrlEncoded raw ;;
        if has_keys f
        then ret (MkOutcome (parsed_value f) (js "form-urlencoded") None)
        else ret (raw_fallback raw0 e1)
    end.

(** The controller, the timer that aborts it after [timeoutMs], the
    fetch with the controller's signal, and the [finally] that clears
    the timer once the fetch has settled. *)
Definition fetchWithTimeout (req : Request.t) (timeoutMs : Z) : JS Response.t :=
  try_finally (fetch w req (Some timeoutMs)) clearTimeout.

Definition gateway_error (upstreamUrl : jsstring) (o : ParseOutcome) (msg : jsstring)
  : value :=
  JObject (obj_literal
    [(js "ok", JBool false);
     (js "version", JString VERSION);
     (js "message", JString (js "Gateway error ke flow"));
     (js "detail", JString msg);
     (js "meta", JObject (obj_literal
        ([(js "upstreamUrl", JString upstreamUrl);
          (js "parsedAs", JString (parsedAs o))]
         ++ match parseError o with
            | Some e => if truthy e then [(js "parseError", JString e)] else []
            | None => []
            end
         ++ [(js "flow_base_set", JBool (Boolean_opt (env_FLOW_BASE_URL w)));
             (js "flow_key_set", JBool (Boolean_opt (env_FLOW_API_KEY w)))])))]).

Definition timeout_message : jsstring :=
  js "Upstream timeout after " ++ number_to_string (number_of_Z TIMEOUT_MS) ++ js "ms".

Definition json_headers : list (jsstring * jsstring) :=
  obj_literal (corsHeaders ++ [(js "Content-Type", js "application/json")]).

(** The two environment values as [proxyToFlow] reads them. *)
Definition FLOW_BASE_URL : jsstring :=
  trim (opt_or (env_FLOW_BASE_URL w) DEFAULT_FLOW_BASE_URL).
Definition FLOW_API_KEY : jsstring := trim (opt_or (env_FLOW_API_KEY w) []).

(** The options of the fetch: a POST whose body is the payload. *)
Definition flow_request (upstreamUrl : jsstring) (o : ParseOutcome) : Request.t :=
  Request.Make upstreamUrl (js "POST")
    (obj_literal
       ((js "Content-Type", js "application/json")
        :: if truthy FLOW_API_KEY then [(js "X-API-Key", FLOW_API_KEY)] else []))
    (JSON_stringify (payload o)).

(** The reply that hands the upstream's answer on. *)
Definition relay (upstream : Response.t) (bodyText : jsstring) : Reply.t :=
  Reply.Make (Response.status upstream)
    (obj_literal
       (corsHeaders
        ++ [(js "Content-Type",
             opt_or (Response.content_type upstream) (js "application/json"))]))
    (Some bodyText).

(** The [msg] of the catch block. *)
Definition failure_detail (e : JSError) : jsstring :=
  if includes (String_of_error e) (js "AbortError")
  then timeout_message
  else if truthy (message e) then message e else String_of_error e.

(** The reply of the catch block. *)
Definition gateway_reply (upstreamUrl : jsstring) (o : ParseOutcome) (e : JSError)
  : Reply.t :=
  Reply.Make 502 json_headers
    (JSON_stringify (gateway_error upstreamUrl o (failure_detail e))).

Definition proxyToFlow (event : Event.t) (flowPath : jsstring) : JS Reply.t :=
  o <- parsePayload event ;;
  let upstreamUrl := FLOW_BASE_URL ++ flowPath in
  try_catch
    (upstream <- fetchWithTimeout (flow_request upstreamUrl o) TIMEOUT_MS ;;
     bodyText <- text upstream None ;;
     ret (relay upstream bodyText))
    (fun e => ret (gateway_reply upstreamUrl o e)).

Definition health_body (event : Event.t) : value :=
  let debug :=
    match Event.queryStringParameters event with
    | Some q => match obj_get (js "debug") q with
                | Some v => str_eqb v (js "1")
                | None => false
                end
    | None => false
    end in
  JObject (obj_literal
    ([(js "ok", JBool true);
      (js "version", JString VERSION);
      (js "service", JString (js "api"));
      (js "time", JString (now_ISO w));
      (js "flow_base_set", JBool (Boolean_opt (env_FLOW_BASE_URL w)));
      (js "flow_key_set", JBool (Boolean_opt (env_FLOW_API_KEY w)))]
     ++ if debug
        then [(js "debug", JObject (obj_literal
                [(js "flowBase",
                  JString (trim (opt_or (env_FLOW_BASE_URL w) DEFAULT_FLOW_BASE_URL)));
                 (js "hasKey",
                  JBool (truthy (trim (opt_or (env_FLOW_API_KEY w) []))))]))]
        else [])).

Definition handler (event : Event.t) : JS Reply.t :=
  let headers := corsHeaders in
  let method := opt_or (Event.httpMethod event) (js "GET") in
  let path := normalizePath event in
  if str_eqb method (js "OPTIONS") then ret (Reply.Make 204 headers (Some []))
  else if str_eqb method (js "GET") && str_eqb path (js "/health") then
    ret (Reply.Make 200 json_headers (JSON_stringify (health_body event)))
  else if negb (str_eqb method (js "POST")) then
    ret (Reply.Make 405 json_headers
           (JSON_stringify (JObject (obj_literal
              [(js "ok", JBool false);
               (js "version", JString VERSION);
               (js "message", JString (js "Method " ++ method ++ js " not allowed"))]))))
  else if str_eqb path (js "/auth/login") then
    proxyToFlow event (js "/webhook/api/auth/login")
  else if str_eqb path (js "/auth/signup") then
    proxyToFlow event (js "/webhook/api/auth/signup")
  else
    ret (Reply.Make 404 json_headers
           (JSON_stringify (JObject (obj_literal
              [(js "ok", JBool false);
               (js "version", JString VERSION);
               (js "message", JString (js "Not Found"));
               (js "path", JString path);
               (js "method", JString method)])))).

End Handler.
End Api.

(** ** netlify/functions/flow-proxy.js *)

Module FlowProxy.
Section Handler.
Variable w : World.

Definition VERSION : jsstring := js "v4-2026-01-29-FIX".
Definition DEFAULT_N8N_WEBHOOK_URL : jsstring :=
  js "https://flow.eraenterprise.id/webhook/eramed-clara-appsmith".

Definition baseHeaders (extra : list (jsstring * jsstring)) : list (jsstring * jsstring) :=
  obj_literal
    ([(js "content-type", js "application/json; charset=utf-8");
      (js "access-control-allow-origin", js "*");
      (js "access-control-allow-headers", js "Content-Type, Authorization");
      (js "access-control-allow-methods", js "GET, POST, OPTIONS")]
     ++ extra).

Definition version_header : list (jsstring * jsstring) :=
  [(js "x-flow-proxy-version", VERSION)].

Definition getHeader (event : Event.t) (name : jsstring) : jsstring :=
  let h := match Event.headers event with Some h => h | None => [] end in
  match find (fun k => str_eqb (toLowerCase w k) (toLowerCase w name)) (Object_keys h) with
  | Some key =>
      if truthy key
      then match obj_get key h with Some v => v | None => [] end
      else []
  | None => []
  end.

(** The declared content type as the handler reads it: the header up to
    its first semicolon, trimmed, in lower case. *)
Definition declaredContentType (event : Event.t) : jsstring :=
  let contentTypeRaw := str_or (getHeader event (js "content-type")) [] in
  toLowerCase w (trim (split_first 59 contentTypeRaw)).

(** The body of the handler from [let parsedAs = "empty"] to the end of
    [if (rawBody) { ... }]. *)
Definition normalize (rawBody : jsstring) : JS ParseOutcome :=
  if truthy rawBody then
    j <- safeJsonParse w rawBody ;;
    match j with
    | Ok v => ret (MkOutcome (nullish_or v (JObject [])) (js "json") None)
    | Failed e =>
        f <- parseFormUrlEncoded rawBody ;;
        if has_keys f
        then ret (MkOutcome (parsed_value f) (js "form-urlencoded") None)
        else ret (MkOutcome (JObject (obj_literal [(js "rawBody", JString rawBody)]))
                            (js "raw") (Some e))
    end
  else ret (MkOutcome (JObject []) (js "empty") None).

Definition forwardBody (contentType : jsstring) (o : ParseOutcome) : value :=
  JObject (obj_literal
    ([(js "source", JString (js "netlify"));
      (js "version", JString VERSION);
      (js "receivedAt", JString (now_ISO w));
      (js "contentType", if truthy contentType then JString contentType else JNull);
      (js "parsedAs", JString (parsedAs o))]
     ++ match parseError o with
        | Some e => if truthy e then [(js "parseError", JString e)] else []
        | None => []
        end
     ++ [(js "payload", payload o)])).

Definition timeoutMs : Z := 15000.

Definition envUrl : jsstring := trim (opt_or (env_N8N_WEBHOOK_URL w) []).
Definition chosenUrl : jsstring := str_or envUrl DEFAULT_N8N_WEBHOOK_URL.

(** The options of the fetch: a POST whose body is the envelope. *)
Definition forward_request (contentType : jsstring) (o : ParseOutcome) : Request.t :=
  Request.Make chosenUrl (js "POST")
    (obj_literal [(js "content-type", js "application/json")])
    (JSON_stringify (forwardBody contentType o)).

(** [out]: the upstream's JSON, or the object made up around its text. *)
Definition out_value (res : Response.t) (resText : jsstring) (maybeJson : parsed) : value :=
  match maybeJson with
  | Ok v => v
  | Failed _ =>
      JObject (obj_literal
        [(js "ok", JBool (Response.ok res));
         (js "status", JNumber (number_of_Z (Response.status res)));
         (js "text", JString resText)])
  end.

Definition timeout_message : jsstring :=
  js "Upstream timeout after " ++ number_to_string (number_of_Z timeoutMs) ++ js "ms".

(** The [msg] of the catch block. *)
Definition failure_detail (e : JSError) : jsstring :=
  if includes (String_of_error e) (js "AbortError")
  then timeout_message
  else String_of_error e.

Definition failure_body (msg : jsstring) : value :=
  JObject (obj_literal
    [(js "ok", JBool false);
     (js "version", JString VERSION);
     (js "error", JString (js "Failed to call n8n"));
     (js "detail", JString msg);
     (js "envPresent", JBool (truthy envUrl));
     (js "chosenUrl", JString chosenUrl)]).

(** The reply that hands the upstream's answer on. *)
Definition relay (res : Response.t) (resText : jsstring) (maybeJson : parsed) : Reply.t :=
  Reply.Make (Response.status res) (baseHeaders version_header)
    (JSON_stringify (out_value res resText maybeJson)).

(** The reply of the catch block. *)
Definition failure_reply (e : JSError) : Reply.t :=
  Reply.Make 502 (baseHeaders version_header)
    (JSON_stringify (failure_body (failure_detail e))).

Definition handler (event : Event.t) : JS Reply.t :=
  let method := opt_or (Event.httpMethod event) (js "GET") in
  if str_eqb method (js "OPTIONS") then ret (Reply.Make 204 (baseHeaders []) (Some []))
  else
    if str_eqb method (js "GET") then
      let debug :=
        match Event.queryStringParameters event with
        | Some q => match obj_get (js "debug") q with
                    | Some v => str_eqb v (js "1")
                    | None => false
                    end
        | None => false
        end in
      ret (Reply.Make 200 (baseHeaders version_header)
             (JSON_stringify (JObject (obj_literal
                [(js "ok", JBool true);
                 (js "version", JString VERSION);
                 (js "message",
                  JString (js "flow-proxy is running. Send POST to forward to n8n."));
                 (js "debug",
                  if debug
                  then JObject (obj_literal
                         [(js "envPresent", JBool (truthy envUrl));
                          (js "envUrlRaw", if truthy envUrl then JString envUrl else JNull);
                          (js "chosenUrl", JString chosenUrl)])
                  else JUndefined)]))))
    else if negb (str_eqb method (js "POST")) then
      ret (Reply.Make 405 (baseHeaders version_header)
             (JSON_stringify (JObject (obj_literal
                [(js "ok", JBool false);
                 (js "version", JString VERSION);
                 (js "error",
                  JString (js "Method " ++ method ++ js " not allowed. Use POST."))]))))
    else
      let rawBody := getRawBody w event in
      let contentType := declaredContentType event in
      o <- normalize rawBody ;;
      (* the controller and its timer are armed here, for timeoutMs *)
      try_catch
        (res <- fetch w (forward_request contentType o) (Some timeoutMs) ;;
         resText <- text res (Some timeoutMs) ;;
         _ <- clearTimeout ;;
         maybeJson <- safeJsonParse w resText ;;
         ret (relay res resText maybeJson))
        (fun e =>
           _ <- clearTimeout ;;
           ret (failure_reply e)).

End Handler.
End FlowProxy.

(** ** The older login proxy

    A third function of the repository: it forwards to the login webhook
    and accepts strict JSON only. *)

Module LoginProxy.
Section Handler.
Variable w : World.

Definition FLOW_BASE_URL : jsstring :=
  opt_or (env_FLOW_BASE_URL w) (js "https://flow.eraenterprise.id").
Definition FLOW_API_KEY : jsstring := opt_or (env_FLOW_API_KEY w) [].

Definition corsHeaders : list (jsstring * jsstring) :=
  obj_literal
    [(js "Access-Control-Allow-Origin", js "*");
     (js "Access-Control-Allow-Headers", js "Content-Type, Authorization, X-API-Key");
     (js "Access-Control-Allow-Methods", js "POST, OPTIONS")].

Definition method_is (event : Event.t) (m : jsstring) : bool :=
  match Event.httpMethod event with Some x => str_eqb x m | None => false end.

Definition bad_request : Reply.t :=
  Reply.Make 400 corsHeaders
    (JSON_stringify (JObject (obj_literal
       [(js "ok", JBool false); (js "message", JString (js "Body harus JSON"))]))).

Definition login_request (payload : value) : Request.t :=
  Request.Make (FLOW_BASE_URL ++ js "/webhook/api/auth/login") (js "POST")
    (obj_literal
       ((js "Content-Type", js "application/json")
        :: if truthy FLOW_API_KEY then [(js "X-API-Key", FLOW_API_KEY)] else []))
    (JSON_stringify payload).

Definition relay (upstream : Response.t) (bodyText : jsstring) : Reply.t :=
  Reply.Make (Response.status upstream)
    (obj_literal
       (corsHeaders
        ++ [(js "Content-Type",
             opt_or (Response.content_type upstream) (js "application/json"))]))
    (Some bodyText).

Definition gateway_reply (e : JSError) : Reply.t :=
  Reply.Make 502 corsHeaders
    (JSON_stringify (JObject (obj_literal
       [(js "ok", JBool false);
        (js "message", JString (js "Gateway error ke flow"));
        (js "detail",
         JString (if truthy (message e) then message e else String_of_error e))]))).

Definition handler (event : Event.t) : JS Reply.t :=
  if method_is event (js "OPTIONS") then ret (Reply.Make 204 corsHeaders (Some []))
  else if negb (method_is event (js "POST")) then
    ret (Reply.Make 405 corsHeaders (Some (js "Method Not Allowed")))
  else
    (* the catch block returns from the handler: [inr] carries its reply *)
    attempt <- try_catch
                 (v <- JSON_parse w (opt_or (Event.body event) (js "{}")) ;; ret (inl v))
                 (fun _ => ret (inr bad_request)) ;;
    match attempt with
    | inr reply => ret reply
    | inl payload =>
        try_catch
          (upstream <- fetch w (login_request payload) None ;;
           bodyText <- text upstream None ;;
           ret (relay upstream bodyText))
          (fun e => ret (gateway_reply e))
    end.

End Handler.
End LoginProxy.

(** ** A sample world

    One admissible run time, used to run the handlers on concrete
    requests: ASCII lower casing, RFC 4648 base64 decoding that skips what
    is outside the alphabet and stops at the padding, a fixed SyntaxError
    text, an empty environment, and a network given by the caller. *)

Module Sample.

Definition lower_unit (c : N) : N :=
  if (65 <=? c) && (c <=? 90) then c + 32 else c.

Definition sextet (c : N) : option N :=
  if (65 <=? c) && (c <=? 90) then Some (c - 65)
  else if (97 <=? c) && (c <=? 122) then Some (c - 71)
  else if is_digit c then Some (c + 4)
  else if (c =? 43) || (c =? 45) then Some 62
  else if (c =? 47) || (c =? 95) then Some 63
  else None.

Fixpoint sextets (s : jsstring) : list N :=
  match s with
  | [] => []
  | c :: s' =>
      if c =? 61 then []
      else match sextet c with
           | Some x => x :: sextets s'
           | None => sextets s'
           end
  end.

Fixpoint bytes_of_sextets (l : list N) : list N :=
  match l with
  | a :: b :: c :: d :: rest =>
      (a * 4 + b / 16) :: (b mod 16 * 16 + c / 4) :: (c mod 4 * 64 + d)
      :: bytes_of_sextets rest
  | [a; b; c] => [a * 4 + b / 16; b mod 16 * 16 + c / 4]
  | [a; b] => [a * 4 + b / 16]
  | _ => []
  end.

Definition base64_utf8 (s : jsstring) : jsstring :=
  Utf8.decode (bytes_of_sextets (sextets s)).

Definition world (net : Request.t -> upstream) : World :=
  MkWorld None None None                        (* an empty process.env *)
          (js "2026-01-30T08:00:00.000Z")       (* the clock *)
          net
          (fun _ => js "Unexpected token in JSON")
          (map lower_unit)
          base64_utf8.

(** An upstream that answers after 120 ms and has sent its body by 150 ms. *)
Definition answers (status : Z) (content_type : option jsstring) (body : jsstring)
  : Request.t -> upstream :=
  fun _ => Responds 120 (Response.Make status content_type (BodyText 150 body)).

Definition silent : Request.t -> upstream := fun _ => Silent.

Definition unreachable : Request.t -> upstream :=
  fun _ => Fails 35 (MkError (js "TypeError") (js "fetch failed")).

(** A POST with the given path, content type and body. *)
Definition post (path : jsstring) (content_type : jsstring) (body : jsstring) : Event.t :=
  Event.Make (Some (js "POST")) (Some path)
             (Some [(js "Content-Type", content_type)]) None (Some body) false.

(** A JSON login sent to [/api/auth/login], and what api.js makes of it. *)
Definition login : Event.t :=
  post (js "/api/auth/login") (js "application/json") (jsq "{`a`:1}").

Definition login_outcome : ParseOutcome :=
  MkOutcome (JObject [(js "a", JNumber (Num 1 0))]) (js "json") None.

Definition login_url : jsstring :=
  js "https://flow.eraenterprise.id/webhook/api/auth/login".

Definition login_request : Request.t :=
  Request.Make login_url (js "POST")
    [(js "Content-Type", js "application/json")] (Some (jsq "{`a`:1}")).

(** A form sent to flow-proxy.js, the envelope that goes upstream, and
    the request that carries it. *)
Definition form : Event.t :=
  post (js "/") (js "application/x-www-form-urlencoded; charset=UTF-8") (js "a=1&b=2").

Definition form_envelope : jsstring :=
  jsq "{`source`:`netlify`,`version`:`v4-2026-01-29-FIX`,`receivedAt`:`2026-01-30T08:00:00.000Z`,`contentType`:`application/x-www-form-urlencoded`,`parsedAs`:`form-urlencoded`,`payload`:{`a`:`1`,`b`:`2`}}".

Definition form_request : Request.t :=
  Request.Make (js "https://flow.eraenterprise.id/webhook/eramed-clara-appsmith")
    (js "POST") [(js "content-type", js "application/json")] (Some form_envelope).

(** The same form declared as plain text. *)
Definition plain_form : Event.t :=
  post (js "/") (js "text/plain") (js "a=1&b=2").

Definition plain_form_request : Request.t :=
  Request.Make (js "https://flow.eraenterprise.id/webhook/eramed-clara-appsmith")
    (js "POST") [(js "content-type", js "application/json")]
    (Some (jsq "{`source`:`netlify`,`version`:`v4-2026-01-29-FIX`,`receivedAt`:`2026-01-30T08:00:00.000Z`,`contentType`:`text/plain`,`parsedAs`:`form-urlencoded`,`payload`:{`a`:`1`,`b`:`2`}}")).

Definition form_outcome : ParseOutcome :=
  MkOutcome (JObject [(js "a", JString (js "1")); (js "b", JString (js "2"))])
            (js "form-urlencoded") None.

(** A PUT to a forwarded path, with a body that is no JSON, and the reply
    of api.js. *)
Definition put : Event.t :=
  Event.Make (Some (js "PUT")) (Some (js "/auth/login")) None None
             (Some (js "not json")) false.

Definition put_reply : Reply.t :=
  Reply.Make 405
    [(js "Access-Control-Allow-Origin", js "*");
     (js "Access-Control-Allow-Headers", js "Content-Type, Authorization, X-API-Key");
     (js "Access-Control-Allow-Methods", js "GET,POST,OPTIONS");
     (js "Content-Type", js "application/json")]
    (Some (jsq "{`ok`:false,`version`:`api-v8-2026-01-30`,`message`:`Method PUT not allowed`}")).



End Sample.

(** * Vocabulary of the properties *)

(** A JSON value: [undefined] occurs nowhere in it. *)
Fixpoint is_json (v : value) : bool :=
  match v with
  | JUndefined => false
  | JArray elems => forallb is_json elems
  | JObject props => forallb (fun kv => is_json (snd kv)) props
  | _ => true
  end.

(** ** What every run of the JSON automaton maintains *)

Module JsonInv.
Import Json.

Definition frame_ok (f : frame) : bool :=
  match f with
  | FArray elems => forallb is_json elems
  | FObject props _ => forallb (fun kv => is_json (snd kv)) props
  end.

Definition lex_ok (l : lexstate) : bool :=
  match l with
  | LLiteral rest v => is_json v && forallb (fun r => negb (isWhiteSpace r)) rest
  | _ => true
  end.

Definition phase_ok (p : phase) : bool :=
  match p with PDone v => is_json v | _ => true end.

(** The values held anywhere in a state are JSON values, and a literal
    in progress still expects letters only. *)
Definition state_ok (s : pstate) : bool :=
  lex_ok (lex s) && phase_ok (ph s) && forallb frame_ok (stack s).

End JsonInv.

(** ** Body normalization without the effects

    The fallback chains of the two files as plain functions of the raw
    body; [parsePayload_run] and [normalize_run] show that the code
    computes them, and which calls it makes on the way. *)

Section Outcomes.
Variable w : World.

(** [String(e)] for the SyntaxError of a text. *)
Definition syntax_error_text (text : jsstring) : jsstring :=
  String_of_error (SyntaxError w text).

(** The object that [parseFormUrlEncoded] fills from the entries. *)
Definition form_object (raw : jsstring) : list (jsstring * value) :=
  fold_left (fun o kv => obj_assign (fst kv) (JString (snd kv)) o)
            (URLSearchParams raw) [].

Definition empty_outcome : ParseOutcome := MkOutcome (JObject []) (js "empty") None.

Definition form_or_raw (raw : jsstring) (fallback : ParseOutcome) : ParseOutcome :=
  if has_keys (Ok (JObject (form_object raw)))
  then MkOutcome (JObject (form_object raw)) (js "form-urlencoded") None
  else fallback.

Definition api_outcome (raw0 : jsstring) : ParseOutcome :=
  let raw := Api.sanitizeRaw raw0 in
  if negb (truthy raw) then empty_outcome
  else match Json.parse raw with
       | Some (JString inner) =>
           match Json.parse inner with
           | Some v2 => MkOutcome (nullish_or v2 (JObject [])) (js "json-double") None
           | None => Api.raw_fallback raw0 (syntax_error_text inner)
           end
       | Some v1 => MkOutcome (nullish_or v1 (JObject [])) (js "json") None
       | None =>
           form_or_raw raw (Api.raw_fallback raw0 (syntax_error_text raw))
       end.

Definition api_calls (raw0 : jsstring) : list effect :=
  let raw := Api.sanitizeRaw raw0 in
  if negb (truthy raw) then []
  else match Json.parse raw with
       | Some (JString inner) => [EJsonParse raw; EJsonParse inner]
       | Some _ => [EJsonParse raw]
       | None => [EJsonParse raw; EFormParse raw]
       end.

Definition flow_outcome (rawBody : jsstring) : ParseOutcome :=
  if truthy rawBody then
    match Json.parse rawBody with
    | Some v => MkOutcome (nullish_or v (JObject [])) (js "json") None
    | None =>
        form_or_raw rawBody
          (MkOutcome (JObject (obj_literal [(js "rawBody", JString rawBody)]))
                     (js "raw") (Some (syntax_error_text rawBody)))
    end
  else empty_outcome.

Definition flow_calls (rawBody : jsstring) : list effect :=
  if truthy rawBody then
    match Json.parse rawBody with
    | Some _ => [EJsonParse rawBody]
    | None => [EJsonParse rawBody; EFormParse rawBody]
    end
  else [].

End Outcomes.

(** The text is wrapped in single quotes, as [sanitizeRaw] tests it. *)
Definition quoted (s : jsstring) : bool :=
  (2 <=? List.length s)%nat && startsWith s (js "'") && endsWith s (js "'").


(** ** Outcomes and forward attempts *)

(** The tags [parsedAs] may take. *)
Definition tags : list jsstring :=
  [js "empty"; js "json"; js "json-double"; js "form-urlencoded"; js "raw"].

(** The event is a POST, as both handlers read the method. *)
Definition is_post (event : Event.t) : bool :=
  str_eqb (opt_or (Event.httpMethod event) (js "GET")) (js "POST").

(** The requests a run has sent upstream, in order. *)
Fixpoint fetches (calls : list effect) : list Request.t :=
  match calls with
  | [] => []
  | EFetch req :: rest => req :: fetches rest
  | _ :: rest => fetches rest
  end.


(** [status] is the status of the answer to a request of this run. *)
Definition mirrored (w : World) (calls : list effect) (status : Z) : Prop :=
  exists req t r,
    In (EFetch req) calls /\ network w req = Responds t r /\ Response.status r = status.

Definition client_error (status : Z) : Prop := (400 <= status <= 499)%Z.

(** ** Routing and the one forward attempt *)

(** The Flow path that api.js forwards the event to, if it forwards it. *)
Definition api_forwards (event : Event.t) : option jsstring :=
  if is_post event then
    if str_eqb (Api.normalizePath event) (js "/auth/login")
    then Some (js "/webhook/api/auth/login")
    else if str_eqb (Api.normalizePath event) (js "/auth/signup")
         then Some (js "/webhook/api/auth/signup")
         else None
  else None.

Section Settles.
Variable w : World.

(** How the forward attempt of api.js ends: the timer covers the wait
    for the status line, not the reading of the body. *)
Definition api_settles (upstreamUrl : jsstring) (o : ParseOutcome) : completion Reply.t :=
  match network w (Api.flow_request w upstreamUrl o) with
  | Responds t r =>
      if (Api.TIMEOUT_MS <=? t)%Z
      then Normal (Api.gateway_reply w upstreamUrl o AbortError)
      else match Response.read r with
           | BodyText _ s => Normal (Api.relay r s)
           | BodyError _ e => Normal (Api.gateway_reply w upstreamUrl o e)
           | BodyNever => Pending
           end
  | Fails t e =>
      Normal (Api.gateway_reply w upstreamUrl o
                (if (Api.TIMEOUT_MS <=? t)%Z then AbortError else e))
  | Silent => Normal (Api.gateway_reply w upstreamUrl o AbortError)
  end.

(** What [safeJsonParse] returns, as a value. *)
Definition safe_parse (text : jsstring) : parsed :=
  match Json.parse text with
  | Some v => Ok v
  | None => Failed (syntax_error_text w text)
  end.

(** How the forward attempt of flow-proxy.js ends, and the text it has
    read when it got one: the timer covers the body too. *)
Definition flow_settles (contentType : jsstring) (o : ParseOutcome)
  : option jsstring * Reply.t :=
  match network w (FlowProxy.forward_request w contentType o) with
  | Responds t r =>
      if (FlowProxy.timeoutMs <=? t)%Z then (None, FlowProxy.failure_reply w AbortError)
      else match Response.read r with
           | BodyText t' s =>
               if (FlowProxy.timeoutMs <=? t')%Z
               then (None, FlowProxy.failure_reply w AbortError)
               else (Some s, FlowProxy.relay r s (safe_parse s))
           | BodyError t' e =>
               (None, FlowProxy.failure_reply w
                        (if (FlowProxy.timeoutMs <=? t')%Z then AbortError else e))
           | BodyNever => (None, FlowProxy.failure_reply w AbortError)
           end
  | Fails t e =>
      (None, FlowProxy.failure_reply w
               (if (FlowProxy.timeoutMs <=? t)%Z then AbortError else e))
  | Silent => (None, FlowProxy.failure_reply w AbortError)
  end.

End Settles.

(** ** More vocabulary: paths, form entries, the login proxy *)

(** The event with another path. *)
Definition set_path (event : Event.t) (p : jsstring) : Event.t :=
  Event.Make (Event.httpMethod event) (Some p) (Event.headers event)
             (Event.queryStringParameters event) (Event.body event)
             (Event.isBase64Encoded event).

(** The value of the last entry under key [k]. *)
Fixpoint last_value (k : jsstring) (entries : list (jsstring * jsstring))
  : option jsstring :=
  match entries with
  | [] => None
  | (k', v) :: rest =>
      match last_value k rest with
      | Some x => Some x
      | None => if str_eqb k' k then Some v else None
      end
  end.

(** Some entry has a key other than [__proto__]. *)
Definition has_plain_key (entries : list (jsstring * jsstring)) : bool :=
  existsb (fun kv => negb (str_eqb (fst kv) (js "__proto__"))) entries.

(** The automaton is not inside a string, and a literal in progress does
    not expect an equals sign. *)
Definition outside_string (s : Json.pstate) : bool :=
  match Json.lex s with
  | Json.LString _ | Json.LEscape _ | Json.LUnicode _ _ _ => false
  | Json.LLiteral rest _ => forallb (fun r => negb (r =? 61)) rest
  | _ => true
  end.

(** How the forward attempt of the login proxy ends: no timer is armed. *)
Definition login_settles (w : World) (payload : value) : completion Reply.t :=
  match network w (LoginProxy.login_request w payload) with
  | Responds _ r =>
      match Response.read r with
      | BodyText _ s => Normal (LoginProxy.relay r s)
      | BodyError _ e => Normal (LoginProxy.gateway_reply e)
      | BodyNever => Pending
      end
  | Fails _ e => Normal (LoginProxy.gateway_reply e)
  | Silent => Pending
  end.

(** The world with another API key in its environment. *)
Definition set_api_key (w : World) (key : option jsstring) : World :=
  MkWorld (env_FLOW_BASE_URL w) key (env_N8N_WEBHOOK_URL w) (now_ISO w)
          (network w) (syntax_error_message w) (toLowerCase w) (base64_utf8 w).

(** ** Reading back what [JSON.stringify] writes *)

(** The state once a number still open at the end of a token is closed:
    what [Json.finish] looks at, and what the next delimiter sees. *)
Definition closed (s : Json.pstate) : option Json.pstate :=
  match Json.lex s with
  | Json.LIdle => Some s
  | Json.LNumber p a =>
      if Json.num_complete p
      then Json.push_value (JNumber (Json.number_of_acc a)) (Json.stack s)
      else None
  | _ => None
  end.

(** A stack whose innermost container can take a value. *)
Definition pushable (st : list Json.frame) : bool :=
  match st with Json.FObject _ None :: _ => false | _ => true end.

(** The text [t], read wherever a value may come, is one value, [v]. *)
Definition reads_as (t : jsstring) (v : value) : Prop :=
  forall p st, Json.wants_value p = true -> pushable st = true ->
    exists s1,
      Json.run (Json.PState Json.LIdle p st) t = Some s1
      /\ closed s1 = Json.push_value v st.

(** A member of an object text: its key, the text of its value and the
    value that text reads as. *)
Definition member_text (m : jsstring * (jsstring * value)) : jsstring :=
  quote (fst m) ++ 58 :: fst (snd m).

Definition add_member (o : list (jsstring * value)) (m : jsstring * (jsstring * value))
  : list (jsstring * value) :=
  obj_define (fst m) (snd (snd m)) o.

(** The units of a number, fed to [Json.num_step] one by one. *)
Fixpoint num_run (p : Json.numphase) (a : Json.numacc) (t : jsstring)
  : option (Json.numphase * Json.numacc) :=
  match t with
  | [] => Some (p, a)
  | c :: t' =>
      match Json.num_step p a c with
      | Some (p', a') => num_run p' a' t'
      | None => None
      end
  end.

(** A number text read from its first unit on, the sign apart. *)
Definition num_read (t : jsstring) : option (Json.numphase * Json.numacc) :=
  match t with
  | c :: t' =>
      if c =? 45 then num_run Json.NMinus (Json.empty_acc true) t'
      else num_run Json.NMinus (Json.empty_acc false) t
  | [] => None
  end.

(** Keys that differ from one another. *)
Fixpoint distinct (keys : list jsstring) : bool :=
  match keys with
  | [] => true
  | k :: rest => negb (existsb (str_eqb k) rest) && distinct rest
  end.

(** A key that is no array index, so that it keeps its place among the
    keys of its object. *)
Definition ordinary_key (k : jsstring) : bool :=
  match array_index k with Some _ => false | None => true end.

(** A value made of strings, Booleans and null, in arrays and in objects
    whose keys are distinct and ordinary: no number, no [undefined]. *)
Fixpoint texty (v : value) : bool :=
  match v with
  | JNull | JBool _ | JString _ => true
  | JUndefined | JNumber _ => false
  | JArray elems => forallb texty elems
  | JObject props =>
      forallb (fun kv => ordinary_key (fst kv) && texty (snd kv)) props
      && distinct (map fst props)
  end.

(** The text [JSON.stringify] gives for [v], empty for [undefined]. *)
Definition text_of (v : value) : jsstring :=
  match JSON_stringify v with Some t => t | None => [] end.


(** ** Numbers as an engine reads them *)

(** A number in lowest terms, as [Json.number_of_acc] leaves it. *)
Definition canonical (n : number) : bool :=
  if (mantissa n =? 0)%Z then (exponent n =? 0)%Z
  else negb (Z.rem (mantissa n) 10 =? 0)%Z.

(** At most fifteen significant digits, well inside the binary64 range:
    on such a number the nearest binary64 prints with the digits of the
    decimal itself, so that an engine's [JSON.parse] and [JSON.stringify]
    agree with the exact reading taken here.  Beyond it an engine rounds
    the literal, or reads it as Infinity, which is not modelled. *)
Definition fifteen_digits (n : number) : bool :=
  ((Z.abs (mantissa n) <? 10 ^ 15) && (-300 <=? exponent n) && (exponent n <=? 292))%Z.

(** A plain JSON value: no [undefined]; every number in lowest terms and
    of at most fifteen digits; in every object keys that are distinct and
    no array indices, so that they are enumerated as they were created. *)
Fixpoint plain (v : value) : bool :=
  match v with
  | JUndefined => false
  | JNull | JBool _ | JString _ => true
  | JNumber n => canonical n && fifteen_digits n
  | JArray elems => forallb plain elems
  | JObject props =>
      forallb (fun kv => ordinary_key (fst kv) && plain (snd kv)) props
      && distinct (map fst props)
  end.

(** * Properties *)

Unset Implicit Arguments.

(** ** Strings *)

Lemma str_eqb_refl (a : jsstring) : str_eqb a a = true.
Proof. induction a as [|x a IH]; simpl; [reflexivity|]. now rewrite N.eqb_refl. Qed.

Lemma str_eqb_eq (a b : jsstring) : str_eqb a b = true <-> a = b.
Proof.
  split; [|intros ->; apply str_eqb_refl].
  revert b; induction a as [|x a IH]; intros [|y b]; simpl; try discriminate; auto.
  intros H. apply andb_true_iff in H as [Hx Hab].
  apply N.eqb_eq in Hx. f_equal; auto.
Qed.

Lemma str_or_empty (a : jsstring) : str_or a [] = a.
Proof. now destruct a. Qed.

Lemma trimStart_all_space (s : jsstring) :
  forallb isWhiteSpace s = true -> trimStart s = [].
Proof.
  induction s as [|c s IH]; simpl; [reflexivity|].
  intros H. apply andb_true_iff in H as [Hc Hs]. now rewrite Hc; apply IH.
Qed.

Lemma trimStart_head (s : jsstring) (c : N) :
  hd_error (trimStart s) = Some c -> isWhiteSpace c = false.
Proof.
  induction s as [|x s IH]; simpl; [discriminate|].
  destruct (isWhiteSpace x) eqn:Hx; [exact IH|].
  simpl. now intros [= <-].
Qed.

Lemma trimStart_snoc (l : jsstring) (h : N) :
  isWhiteSpace h = false -> trimStart (l ++ [h]) = trimStart l ++ [h].
Proof.
  intros Hh. induction l as [|x l IH]; simpl.
  - now rewrite Hh.
  - destruct (isWhiteSpace x); [exact IH | reflexivity].
Qed.

Lemma trimEnd_cons (h : N) (t : jsstring) :
  isWhiteSpace h = false -> trimEnd (h :: t) = h :: trimEnd t.
Proof.
  intros Hh. unfold trimEnd. simpl rev at 2.
  rewrite trimStart_snoc by exact Hh.
  now rewrite rev_app_distr.
Qed.

(** The first unit of a trimmed string is no white space... *)
Lemma trim_head (s : jsstring) (c : N) :
  hd_error (trim s) = Some c -> isWhiteSpace c = false.
Proof.
  unfold trim. destruct (trimStart s) as [|x t] eqn:E.
  - discriminate.
  - assert (Hx : isWhiteSpace x = false) by (apply (trimStart_head s); now rewrite E).
    rewrite trimEnd_cons by exact Hx. simpl. now intros [= <-].
Qed.

(** ... and neither is the last. *)
Lemma trim_last (s : jsstring) (c : N) :
  hd_error (rev (trim s)) = Some c -> isWhiteSpace c = false.
Proof.
  unfold trim, trimEnd. rewrite rev_involutive. apply trimStart_head.
Qed.

Lemma trim_all_space (s : jsstring) :
  forallb isWhiteSpace s = true -> trim s = [].
Proof. intros H. unfold trim. now rewrite trimStart_all_space. Qed.

Lemma trimStart_fixed (s : jsstring) (c : N) (t : jsstring) :
  s = c :: t -> isWhiteSpace c = false -> trimStart s = s.
Proof. intros -> H. simpl. now rewrite H. Qed.

(** Trimming what is trimmed changes nothing. *)
Lemma trim_idempotent (s : jsstring) : trim (trim s) = trim s.
Proof.
  destruct (trim s) as [|c t] eqn:E; [reflexivity|].
  assert (Hc : isWhiteSpace c = false) by (apply (trim_head s); now rewrite E).
  unfold trim at 1. rewrite (trimStart_fixed _ c t eq_refl Hc).
  unfold trimEnd.
  destruct (rev (c :: t)) as [|x r] eqn:Er.
  - apply (f_equal (@rev N)) in Er. rewrite rev_involutive in Er. discriminate.
  - assert (Hx : isWhiteSpace x = false).
    { apply (trim_last s). now rewrite E, Er. }
    rewrite (trimStart_fixed _ x r eq_refl Hx), <- Er. apply rev_involutive.
Qed.

(** ** JSON.parse: what every run maintains *)

Module JsonFacts.
Import Json JsonInv.

Lemma obj_define_json k v props :
  is_json v = true ->
  forallb (fun kv => is_json (snd kv)) props = true ->
  forallb (fun kv => is_json (snd kv)) (obj_define k v props) = true.
Proof.
  intros Hv. induction props as [|[k' v'] rest IH]; simpl.
  - now rewrite Hv.
  - intros H. apply andb_true_iff in H as [H1 H2].
    destruct (str_eqb k' k); simpl.
    + now rewrite Hv.
    + now rewrite H1, IH.
Qed.

Lemma push_value_ok v st s' :
  is_json v = true -> forallb frame_ok st = true ->
  push_value v st = Some s' -> state_ok s' = true /\ lex s' = LIdle.
Proof.
  intros Hv Hst. unfold push_value.
  destruct st as [|[elems|props [k|]] st']; try discriminate;
    intros [= <-]; unfold state_ok; simpl in *; split; try reflexivity.
  - now rewrite Hv.
  - apply andb_true_iff in Hst as [H1 H2]. now rewrite Hv, H1, H2.
  - apply andb_true_iff in Hst as [H1 H2]. now rewrite obj_define_json, H2.
Qed.

Lemma forallb_rev {A} (f : A -> bool) (l : list A) :
  forallb f (rev l) = forallb f l.
Proof.
  induction l as [|x l IH]; simpl; [reflexivity|].
  rewrite forallb_app, IH. simpl. rewrite andb_true_r. apply andb_comm.
Qed.

Ltac split_if :=
  match goal with
  | |- context [if ?b then _ else _] => destruct b eqn:?
  end.

Lemma step_idle_ok p st c s' :
  forallb frame_ok st = true -> phase_ok p = true ->
  step_idle p st c = Some s' -> state_ok s' = true.
Proof.
  intros Hst Hp. unfold step_idle.
  repeat split_if; try discriminate;
    try (intros [= <-]; unfold state_ok; simpl; now rewrite ?Hp, ?Hst);
    destruct p; try discriminate;
    try (intros [= <-]; unfold state_ok; simpl; now rewrite ?Hst);
    destruct st as [|[elems|props [k|]] st']; try discriminate;
    try (intros [= <-]; unfold state_ok; simpl in *; now rewrite ?Hst);
    simpl in Hst; apply andb_true_iff in Hst as [H1 H2];
    intros H; apply push_value_ok in H; try tauto;
    simpl; now rewrite ?forallb_rev.
Qed.

Lemma state_ok_parts s :
  state_ok s = true ->
  lex_ok (lex s) = true /\ phase_ok (ph s) = true /\ forallb frame_ok (stack s) = true.
Proof.
  unfold state_ok. intros H.
  apply andb_true_iff in H as [H H3]. apply andb_true_iff in H as [H1 H2]. auto.
Qed.

Lemma end_string_ok str p st s' :
  forallb frame_ok st = true -> phase_ok p = true ->
  end_string str p st = Some s' -> state_ok s' = true.
Proof.
  intros Hst Hp. unfold end_string. destruct (wants_key p).
  - destruct st as [|[elems|props [k|]] st']; try discriminate.
    intros [= <-]. unfold state_ok; simpl in *. exact Hst.
  - intros H. now apply (push_value_ok (JString str) st) in H.
Qed.

(** Every step keeps the invariant. *)
Lemma step_ok s c s' : state_ok s = true -> step s c = Some s' -> state_ok s' = true.
Proof.
  intros Hs. destruct (state_ok_parts s Hs) as (Hl & Hp & Hst).
  unfold step. destruct (lex s) as [|acc|acc|acc k code|p a|rest v] eqn:El.
  - now apply step_idle_ok.
  - repeat split_if; try discriminate.
    + now apply end_string_ok.
    + intros [= <-]. unfold state_ok; simpl. now rewrite Hp, Hst.
    + intros [= <-]. unfold state_ok; simpl. now rewrite Hp, Hst.
  - split_if.
    + intros [= <-]. unfold state_ok; simpl. now rewrite Hp, Hst.
    + destruct (escape_value c); try discriminate.
      intros [= <-]. unfold state_ok; simpl. now rewrite Hp, Hst.
  - destruct (hex_value c); try discriminate.
    destruct k as [|[|k']]; intros [= <-]; unfold state_ok; simpl; now rewrite Hp, Hst.
  - destruct (num_step p a c) as [[p' a']|].
    + intros [= <-]. unfold state_ok; simpl. now rewrite Hp, Hst.
    + destruct (num_complete p); try discriminate.
      destruct (push_value (JNumber (number_of_acc a)) (stack s)) as [s1|] eqn:E1;
        try discriminate.
      apply push_value_ok in E1 as [H1 _]; auto.
      destruct (state_ok_parts s1 H1) as (_ & Hp1 & Hst1).
      now apply step_idle_ok.
  - simpl in Hl. apply andb_true_iff in Hl as [Hv Hrest].
    destruct rest as [|r rest']; try discriminate.
    simpl in Hrest. apply andb_true_iff in Hrest as [Hr Hrest'].
    destruct (c =? r); try discriminate.
    destruct rest' as [|r' rest''].
    + intros H. now apply push_value_ok in H.
    + intros [= <-]. unfold state_ok; simpl. simpl in Hrest'.
      now rewrite Hv, Hrest', Hp, Hst.
Qed.

Lemma run_ok text : forall s s',
  state_ok s = true -> run s text = Some s' -> state_ok s' = true.
Proof.
  induction text as [|c text IH]; simpl; intros s s' Hs.
  - now intros [= <-].
  - destruct (step s c) as [s1|] eqn:E; try discriminate.
    apply IH. now apply (step_ok s c).
Qed.

Lemma run_app a : forall s b,
  run s (a ++ b) = match run s a with Some s1 => run s1 b | None => None end.
Proof.
  induction a as [|c a IH]; simpl; intros s b; [reflexivity|].
  destruct (step s c); [apply IH | reflexivity].
Qed.

Lemma finish_ok s v : state_ok s = true -> finish s = Some v -> is_json v = true.
Proof.
  intros Hs. destruct (state_ok_parts s Hs) as (Hl & Hp & Hst).
  unfold finish. destruct (lex s) eqn:El; try discriminate.
  - destruct s as [l p st]; simpl in *; subst l.
    destruct p; try discriminate. destruct st; try discriminate.
    now intros [= <-].
  - destruct (num_complete p); try discriminate.
    destruct (push_value (JNumber (number_of_acc a)) (stack s)) as [s1|] eqn:E1;
      try discriminate.
    apply push_value_ok in E1 as [H1 L1]; auto.
    destruct (state_ok_parts s1 H1) as (_ & Hp1 & _).
    destruct s1 as [l1 p1 st1]; simpl in *; subst l1.
    destruct p1; try discriminate. destruct st1; try discriminate.
    now intros [= <-].
Qed.

(** What [JSON.parse] returns is a JSON value. *)
Lemma parse_is_json text v : parse text = Some v -> is_json v = true.
Proof.
  unfold parse. destruct (run init text) as [s|] eqn:E; try discriminate.
  apply finish_ok. now apply (run_ok text init).
Qed.

End JsonFacts.

(** ** JSON.parse and trimming

    A text that parses still parses, to the same value, once trimmed: the
    units [trim] takes from a text that parses are JSON white space. *)

Module TrimFacts.
Import Json JsonInv JsonFacts.







Lemma finish_idle_eq s1 :
  lex s1 = LIdle -> finish (PState LIdle (ph s1) (stack s1)) = finish s1.
Proof. destruct s1 as [l p st]; simpl. now intros ->. Qed.







End TrimFacts.

(** ** The helpers never throw *)

Section HelperFacts.
Variable w : World.

Lemma safeJsonParse_run text :
  safeJsonParse w text =
  ([EJsonParse text],
   Normal match Json.parse text with
          | Some v => Ok v
          | None => Failed (syntax_error_text w text)
          end).
Proof.
  unfold safeJsonParse, JSON_parse, try_catch, bind, ret; simpl.
  destruct (Json.parse text); reflexivity.
Qed.

Lemma parseFormUrlEncoded_run raw :
  parseFormUrlEncoded raw = ([EFormParse raw], Normal (Ok (JObject (form_object raw)))).
Proof. reflexivity. Qed.

(** The name SyntaxError makes the text non-empty, whatever the message. *)
Lemma syntax_error_text_truthy text : truthy (syntax_error_text w text) = true.
Proof.
  unfold syntax_error_text, String_of_error, SyntaxError; simpl.
  destruct (syntax_error_message w text); reflexivity.
Qed.

Lemma obj_assign_json k s o :
  forallb (fun kv => is_json (snd kv)) o = true ->
  forallb (fun kv => is_json (snd kv)) (obj_assign k (JString s) o) = true.
Proof.
  intros H. unfold obj_assign. destruct (str_eqb k (js "__proto__")); [exact H|].
  now apply JsonFacts.obj_define_json.
Qed.

Lemma form_object_json raw :
  forallb (fun kv => is_json (snd kv)) (form_object raw) = true.
Proof.
  unfold form_object.
  assert (G : forall l o, forallb (fun kv => is_json (snd kv)) o = true ->
            forallb (fun kv => is_json (snd kv))
              (fold_left (fun o kv => obj_assign (fst kv) (JString (snd kv)) o) l o)
            = true).
  { induction l as [|kv l IH]; simpl; intros o Ho; [exact Ho|].
    apply IH. now apply obj_assign_json. }
  now apply G.
Qed.

End HelperFacts.

(** ** The handlers compute the plain fallback chains *)

Section OutcomeFacts.
Variable w : World.

Lemma parsePayload_run event :
  Api.parsePayload w event =
  (api_calls (getRawBody w event), Normal (api_outcome w (getRawBody w event))).
Proof.
  unfold Api.parsePayload, api_calls, api_outcome, form_or_raw.
  destruct (negb (truthy (Api.sanitizeRaw (getRawBody w event)))); [reflexivity|].
  unfold bind at 1. rewrite safeJsonParse_run.
  destruct (Json.parse (Api.sanitizeRaw (getRawBody w event))) as [v1|].
  - destruct v1 as [| | b | n | inner | elems | props]; try reflexivity.
    unfold bind. rewrite safeJsonParse_run.
    destruct (Json.parse inner); reflexivity.
  - unfold bind. rewrite parseFormUrlEncoded_run.
    destruct (has_keys (Ok (JObject (form_object (Api.sanitizeRaw (getRawBody w event))))));
      reflexivity.
Qed.

Lemma normalize_run rawBody :
  FlowProxy.normalize w rawBody = (flow_calls rawBody, Normal (flow_outcome w rawBody)).
Proof.
  unfold FlowProxy.normalize, flow_calls, flow_outcome, form_or_raw.
  destruct (truthy rawBody); [|reflexivity].
  unfold bind at 1. rewrite safeJsonParse_run.
  destruct (Json.parse rawBody) as [v|]; [reflexivity|].
  unfold bind. rewrite parseFormUrlEncoded_run.
  destruct (has_keys (Ok (JObject (form_object rawBody)))); reflexivity.
Qed.

End OutcomeFacts.

(** ** sanitizeRaw *)

Section SanitizeFacts.

(** The byte-order-mark test never fires: [trim] has taken U+FEFF
    already.  What is left is the trim and the one pair of quotes. *)
Lemma sanitizeRaw_eq raw :
  Api.sanitizeRaw raw =
  if quoted (trim raw) then trim (slice_1_m1 (trim raw)) else trim raw.
Proof.
  unfold Api.sanitizeRaw, quoted. rewrite str_or_empty.
  destruct (charCodeAt0 (trim raw)) as [c|] eqn:E; [|reflexivity].
  apply trim_head in E.
  destruct (c =? 65279) eqn:Ec; [|reflexivity].
  apply N.eqb_eq in Ec; subst c. discriminate E.
Qed.

Lemma trimStart_app a b :
  trimStart (a ++ b) =
  if forallb isWhiteSpace a then trimStart b else trimStart a ++ b.
Proof.
  induction a as [|c a IH]; simpl; [reflexivity|].
  destruct (isWhiteSpace c); simpl; [exact IH | reflexivity].
Qed.

Lemma trimEnd_app_space a post :
  forallb isWhiteSpace post = true -> trimEnd (a ++ post) = trimEnd a.
Proof.
  intros H. unfold trimEnd. rewrite rev_app_distr, trimStart_app.
  now rewrite JsonFacts.forallb_rev, H.
Qed.

Lemma trim_app_space_l pre s :
  forallb isWhiteSpace pre = true -> trim (pre ++ s) = trim s.
Proof. intros H. unfold trim. now rewrite trimStart_app, H. Qed.

Lemma trim_app_space_r s post :
  forallb isWhiteSpace post = true -> trim (s ++ post) = trim s.
Proof.
  intros H. unfold trim. rewrite trimStart_app.
  destruct (forallb isWhiteSpace s) eqn:Hs.
  - rewrite (trimStart_all_space post H), (trimStart_all_space s Hs). reflexivity.
  - now apply trimEnd_app_space.
Qed.

Lemma sanitizeRaw_space_l pre raw :
  forallb isWhiteSpace pre = true -> Api.sanitizeRaw (pre ++ raw) = Api.sanitizeRaw raw.
Proof. intros H. now rewrite !sanitizeRaw_eq, trim_app_space_l. Qed.

Lemma sanitizeRaw_space_r raw post :
  forallb isWhiteSpace post = true -> Api.sanitizeRaw (raw ++ post) = Api.sanitizeRaw raw.
Proof. intros H. now rewrite !sanitizeRaw_eq, trim_app_space_r. Qed.

Lemma sanitizeRaw_trimmed raw : trim (Api.sanitizeRaw raw) = Api.sanitizeRaw raw.
Proof. rewrite sanitizeRaw_eq. destruct (quoted (trim raw)); apply trim_idempotent. Qed.

Lemma sanitizeRaw_all_space raw :
  forallb isWhiteSpace raw = true -> Api.sanitizeRaw raw = [].
Proof. intros H. rewrite sanitizeRaw_eq, (trim_all_space raw H). reflexivity. Qed.

Lemma startsWith_nil s : startsWith s [] = true.
Proof. now destruct s. Qed.

Lemma quoted_wrap mid : quoted (39 :: mid ++ [39]) = true.
Proof.
  unfold quoted, endsWith. simpl rev. rewrite rev_app_distr. simpl.
  now rewrite !startsWith_nil, length_app, Nat.add_1_r.
Qed.

Lemma sanitizeRaw_quoted raw mid :
  trim raw = 39 :: mid ++ [39] -> Api.sanitizeRaw raw = trim mid.
Proof.
  intros H. rewrite sanitizeRaw_eq, H, quoted_wrap.
  unfold slice_1_m1. simpl skipn. now rewrite removelast_last.
Qed.

Lemma sanitizeRaw_unquoted raw :
  startsWith (trim raw) (js "'") = false -> Api.sanitizeRaw raw = trim raw.
Proof.
  intros H. rewrite sanitizeRaw_eq. unfold quoted. rewrite H.
  now rewrite andb_false_r.
Qed.


End SanitizeFacts.

(** ** What normalization returns *)

Section NormalizerFacts.
Variable w : World.

Lemma nullish_or_json v : is_json v = true -> is_json (nullish_or v (JObject [])) = true.
Proof. destruct v; simpl; auto. Qed.

Lemma is_json_serializable v : is_json v = true -> exists s, JSON_stringify v = Some s.
Proof. destruct v as [| |[|]| | | |]; simpl; try discriminate; eauto. Qed.

Lemma form_or_raw_json raw fallback :
  is_json (payload fallback) = true -> is_json (payload (form_or_raw raw fallback)) = true.
Proof.
  intros H. unfold form_or_raw.
  destruct (has_keys _); [|exact H]. simpl. apply form_object_json.
Qed.

Lemma form_or_raw_tag raw fallback :
  In (parsedAs fallback) tags -> In (parsedAs (form_or_raw raw fallback)) tags.
Proof.
  intros H. unfold form_or_raw.
  destruct (has_keys _); [|exact H]. simpl. tauto.
Qed.

Lemma api_outcome_json raw0 : is_json (payload (api_outcome w raw0)) = true.
Proof.
  unfold api_outcome. destruct (negb _); [reflexivity|].
  destruct (Json.parse (Api.sanitizeRaw raw0)) as [v1|] eqn:E1.
  - apply JsonFacts.parse_is_json in E1.
    destruct v1 as [| | b | n | inner | elems | props];
      try reflexivity; try exact E1.
    destruct (Json.parse inner) as [v2|] eqn:E2; [|reflexivity].
    apply JsonFacts.parse_is_json in E2. simpl. now apply nullish_or_json.
  - now apply form_or_raw_json.
Qed.

Lemma api_outcome_tag raw0 : In (parsedAs (api_outcome w raw0)) tags.
Proof.
  unfold api_outcome. destruct (negb _); [simpl; tauto|].
  destruct (Json.parse (Api.sanitizeRaw raw0)) as [v1|].
  - destruct v1 as [| | b | n | inner | elems | props]; try (simpl; tauto).
    destruct (Json.parse inner); simpl; tauto.
  - apply form_or_raw_tag. simpl; tauto.
Qed.

Lemma flow_outcome_json rawBody : is_json (payload (flow_outcome w rawBody)) = true.
Proof.
  unfold flow_outcome. destruct (truthy rawBody); [|reflexivity].
  destruct (Json.parse rawBody) as [v|] eqn:E.
  - apply JsonFacts.parse_is_json in E. simpl. now apply nullish_or_json.
  - now apply form_or_raw_json.
Qed.

Lemma flow_outcome_tag rawBody : In (parsedAs (flow_outcome w rawBody)) tags.
Proof.
  unfold flow_outcome. destruct (truthy rawBody); [|simpl; tauto].
  destruct (Json.parse rawBody); [simpl; tauto|].
  apply form_or_raw_tag. simpl; tauto.
Qed.

End NormalizerFacts.

(** C2.  Body normalization never throws: whatever the body, the base64
    flag, the headers and the run time, [parsePayload] of api.js and the
    normalization block of flow-proxy.js end normally with an outcome whose
    payload is a JSON value, which [JSON.stringify] turns into a string,
    and whose [parsedAs] is one of empty, json, json-double,
    form-urlencoded, raw. *)
Theorem normalization_never_throws (w : World) (event : Event.t) :
  (exists calls o,
      Api.parsePayload w event = (calls, Normal o)
      /\ is_json (payload o) = true
      /\ (exists s, JSON_stringify (payload o) = Some s)
      /\ In (parsedAs o) tags)
  /\ (exists calls o,
      FlowProxy.normalize w (getRawBody w event) = (calls, Normal o)
      /\ is_json (payload o) = true
      /\ (exists s, JSON_stringify (payload o) = Some s)
      /\ In (parsedAs o) tags).
Proof.
  split.
  - exists (api_calls (getRawBody w event)), (api_outcome w (getRawBody w event)).
    split; [apply parsePayload_run|].
    pose proof (api_outcome_json w (getRawBody w event)) as J.
    repeat split; [exact J | now apply is_json_serializable | apply api_outcome_tag].
  - exists (flow_calls (getRawBody w event)), (flow_outcome w (getRawBody w event)).
    split; [apply normalize_run|].
    pose proof (flow_outcome_json w (getRawBody w event)) as J.
    repeat split; [exact J | now apply is_json_serializable | apply flow_outcome_tag].
Qed.

Lemma parse_nonempty (text : jsstring) (v : value) :
  Json.parse text = Some v -> truthy text = true.
Proof. destruct text; [discriminate | reflexivity]. Qed.

(** C9 (as amended).  In api.js a body whose sanitized text is empty, a
    white-space-only body among them, ends normalization at once with
    parsedAs = "empty" and payload {}, no JSON.parse and no
    URLSearchParams call made, and no other body does.  In flow-proxy.js,
    which does not sanitize, that is so for the empty body alone. *)
Theorem empty_body_ends_normalization (w : World) (event : Event.t) :
  (Api.parsePayload w event = ([], Normal (MkOutcome (JObject []) (js "empty") None))
   <-> Api.sanitizeRaw (getRawBody w event) = [])
  /\ (forallb isWhiteSpace (getRawBody w event) = true ->
      Api.sanitizeRaw (getRawBody w event) = [])
  /\ (FlowProxy.normalize w (getRawBody w event)
        = ([], Normal (MkOutcome (JObject []) (js "empty") None))
      <-> getRawBody w event = []).
Proof.
  split; [|split].
  - rewrite parsePayload_run. unfold api_calls, api_outcome.
    destruct (Api.sanitizeRaw (getRawBody w event)) as [|c raw] eqn:E; simpl.
    + tauto.
    + split; [|discriminate].
      destruct (Json.parse (c :: raw)) as [[]|]; discriminate.
  - apply sanitizeRaw_all_space.
  - rewrite normalize_run. unfold flow_calls, flow_outcome.
    destruct (getRawBody w event) as [|c raw] eqn:E; simpl.
    + tauto.
    + split; [|discriminate].
      destruct (Json.parse (c :: raw)); discriminate.
Qed.

(** A white-space-only body to api.js. *)
Lemma empty_body_witness :
  Api.parsePayload (Sample.world Sample.silent)
    (Sample.post (js "/auth/login") (js "text/plain") (js "  "))
  = ([], Normal (MkOutcome (JObject []) (js "empty") None)).
Proof.
  apply (proj2 (proj1 (empty_body_ends_normalization
                         (Sample.world Sample.silent)
                         (Sample.post (js "/auth/login") (js "text/plain") (js "  "))))).
  apply (proj1 (proj2 (empty_body_ends_normalization
                         (Sample.world Sample.silent)
                         (Sample.post (js "/auth/login") (js "text/plain") (js "  "))))).
  reflexivity.
Defined.

(** Against C9 as stated: the two-space body sanitizes to nothing, yet
    flow-proxy.js runs both parsers on it and forwards it as a form with
    the one key made of the two spaces. *)
Lemma flow_proxy_parses_blank_body :
  Api.sanitizeRaw (js "  ") = []
  /\ FlowProxy.normalize (Sample.world Sample.silent)
       (getRawBody (Sample.world Sample.silent)
          (Sample.post (js "/") (js "text/plain") (js "  ")))
     = ([EJsonParse (js "  "); EFormParse (js "  ")],
        Normal (MkOutcome (JObject [(js "  ", JString [])]) (js "form-urlencoded") None)).
Proof. split; vm_compute; reflexivity. Qed.

(** C5 (as amended).  In api.js, when the sanitized text parses to a
    string: if the string parses to B the outcome is parsedAs =
    "json-double" with payload B, or {} for null; if it does not, the
    outcome is the raw fallback with the original body and the second
    parse's error, and URLSearchParams is not tried.  In flow-proxy.js
    there is no second parse: the string itself is the payload, under
    parsedAs = "json". *)
Theorem double_encoded_json (w : World) (event : Event.t) (inner : jsstring) :
  (Json.parse (Api.sanitizeRaw (getRawBody w event)) = Some (JString inner) ->
   Api.parsePayload w event =
   ([EJsonParse (Api.sanitizeRaw (getRawBody w event)); EJsonParse inner],
    Normal match Json.parse inner with
           | Some B => MkOutcome (nullish_or B (JObject [])) (js "json-double") None
           | None =>
               MkOutcome (JObject [(js "rawBody", JString (getRawBody w event))])
                         (js "raw")
                         (Some (String_of_error (SyntaxError w inner)))
           end))
  /\ (Json.parse (getRawBody w event) = Some (JString inner) ->
      FlowProxy.normalize w (getRawBody w event) =
      ([EJsonParse (getRawBody w event)],
       Normal (MkOutcome (JString inner) (js "json") None))).
Proof.
  split; intros H.
  - rewrite parsePayload_run. unfold api_calls, api_outcome.
    rewrite (parse_nonempty _ _ H), H. simpl.
    destruct (Json.parse inner); reflexivity.
  - rewrite normalize_run. unfold flow_calls, flow_outcome.
    rewrite (parse_nonempty _ _ H), H. reflexivity.
Qed.

(** The JSON text of the string that holds the JSON text of an object. *)
Lemma double_encoded_witness :
  Api.parsePayload (Sample.world Sample.silent)
    (Sample.post (js "/auth/login") (js "application/json") (jsq "`{\`a\`:1}`"))
  = ([EJsonParse (jsq "`{\`a\`:1}`"); EJsonParse (jsq "{`a`:1}")],
     Normal (MkOutcome (JObject [(js "a", JNumber (Num 1 0))]) (js "json-double") None)).
Proof.
  apply (proj1 (double_encoded_json (Sample.world Sample.silent)
                  (Sample.post (js "/auth/login") (js "application/json")
                               (jsq "`{\`a\`:1}`"))
                  (jsq "{`a`:1}"))).
  reflexivity.
Defined.

(** Against C5 as stated: flow-proxy.js forwards the same body as the
    string, parsedAs = "json". *)
Lemma flow_proxy_keeps_double_encoding :
  Json.parse (jsq "`{\`a\`:1}`") = Some (JString (jsq "{`a`:1}"))
  /\ Json.parse (jsq "{`a`:1}") = Some (JObject [(js "a", JNumber (Num 1 0))])
  /\ FlowProxy.normalize (Sample.world Sample.silent)
       (getRawBody (Sample.world Sample.silent)
          (Sample.post (js "/") (js "application/json") (jsq "`{\`a\`:1}`")))
     = ([EJsonParse (jsq "`{\`a\`:1}`")],
        Normal (MkOutcome (JString (jsq "{`a`:1}")) (js "json") None)).
Proof. repeat split; vm_compute; reflexivity. Qed.


(** C7 (as amended).  In api.js, [sanitizeRaw] drops the white space
    around the body, a leading byte-order mark with it; when what is left
    is wrapped in single quotes it drops that one pair and trims again;
    it unwraps nothing else, double quotes included.  The single-quoted
    body of the scenario then parses as JSON.  (flow-proxy.js has no such
    step: its first call is JSON.parse on the body as received.) *)
Theorem sanitize_before_parsing (raw : jsstring) :
  (forall pre post,
      forallb isWhiteSpace pre = true -> forallb isWhiteSpace post = true ->
      Api.sanitizeRaw (pre ++ raw ++ post) = Api.sanitizeRaw raw)
  /\ (forall c, hd_error (Api.sanitizeRaw raw) = Some c -> isWhiteSpace c = false)
  /\ (forall c, hd_error (rev (Api.sanitizeRaw raw)) = Some c -> isWhiteSpace c = false)
  /\ Api.sanitizeRaw (65279 :: raw) = Api.sanitizeRaw raw
  /\ (forall mid, trim raw = 39 :: mid ++ [39] -> Api.sanitizeRaw raw = trim mid)
  /\ (startsWith (trim raw) (js "'") = false -> Api.sanitizeRaw raw = trim raw)
  /\ (forall rest, trim raw = 34 :: rest -> Api.sanitizeRaw raw = 34 :: rest)
  /\ (forall w,
        Api.parsePayload w
          (Sample.post (js "/auth/login") (js "application/json") (jsq "'{`a`:1}'"))
        = ([EJsonParse (jsq "{`a`:1}")],
           Normal (MkOutcome (JObject [(js "a", JNumber (Num 1 0))]) (js "json") None)))
  /\ (forall w, truthy raw = true ->
        hd_error (fst (FlowProxy.normalize w raw)) = Some (EJsonParse raw)).
Proof.
  repeat apply conj.
  - intros pre post Hpre Hpost.
    now rewrite sanitizeRaw_space_l, sanitizeRaw_space_r.
  - intros c. rewrite <- sanitizeRaw_trimmed. apply trim_head.
  - intros c. rewrite <- sanitizeRaw_trimmed. apply trim_last.
  - apply (sanitizeRaw_space_l [65279] raw). reflexivity.
  - apply sanitizeRaw_quoted.
  - apply sanitizeRaw_unquoted.
  - intros rest H. rewrite sanitizeRaw_unquoted; rewrite H; reflexivity.
  - intros w. reflexivity.
  - intros w H. rewrite normalize_run. unfold flow_calls. rewrite H.
    destruct (Json.parse raw); reflexivity.
Qed.

(** Two pairs of single quotes around x, with spaces: one pair goes. *)
Lemma sanitize_witness :
  Api.sanitizeRaw (js "  ''x''  ") = js "'x'".
Proof.
  rewrite (proj1 (proj2 (proj2 (proj2 (proj2 (sanitize_before_parsing (js "  ''x''  "))))))
             (js "'x'") eq_refl).
  reflexivity.
Defined.

(** Against C7 as stated: flow-proxy.js does not strip the quotes; there
    the single-quoted body of the scenario is no JSON and becomes a form
    with one key. *)
Lemma flow_proxy_does_not_sanitize :
  FlowProxy.normalize (Sample.world Sample.silent)
    (getRawBody (Sample.world Sample.silent)
       (Sample.post (js "/") (js "application/json") (jsq "'{`a`:1}'")))
  = ([EJsonParse (jsq "'{`a`:1}'"); EFormParse (jsq "'{`a`:1}'")],
     Normal (MkOutcome (JObject [(jsq "'{`a`:1}'", JString [])])
                       (js "form-urlencoded") None)).
Proof. vm_compute; reflexivity. Qed.

(** ** The handlers, branch by branch *)

Section HandlerFacts.
Variable w : World.

Lemma proxyToFlow_run event flowPath :
  Api.proxyToFlow w event flowPath =
  (api_calls (getRawBody w event)
   ++ [EFetch (Api.flow_request w (Api.FLOW_BASE_URL w ++ flowPath)
                 (api_outcome w (getRawBody w event)))],
   api_settles w (Api.FLOW_BASE_URL w ++ flowPath) (api_outcome w (getRawBody w event))).
Proof.
  unfold Api.proxyToFlow. rewrite parsePayload_run.
  unfold bind at 1, api_settles, Api.fetchWithTimeout, fetch, text, try_finally,
    try_catch, bind, ret, clearTimeout, aborted.
  destruct (network w _) as [t r | t e |]; simpl.
  - destruct (Api.TIMEOUT_MS <=? t)%Z; simpl; [reflexivity|].
    destruct (Response.read r); reflexivity.
  - destruct (Api.TIMEOUT_MS <=? t)%Z; reflexivity.
  - reflexivity.
Qed.

Lemma api_handler_forward event flowPath :
  api_forwards event = Some flowPath ->
  Api.handler w event = Api.proxyToFlow w event flowPath.
Proof.
  unfold api_forwards, is_post, Api.handler.
  destruct (str_eqb (opt_or (Event.httpMethod event) (js "GET")) (js "POST")) eqn:E;
    [|discriminate].
  apply str_eqb_eq in E. rewrite E.
  change (str_eqb (js "POST") (js "OPTIONS")) with false.
  change (str_eqb (js "POST") (js "GET")) with false.
  change (str_eqb (js "POST") (js "POST")) with true. simpl.
  destruct (str_eqb (Api.normalizePath event) (js "/auth/login")).
  - now intros [= <-].
  - destruct (str_eqb (Api.normalizePath event) (js "/auth/signup")); [|discriminate].
    now intros [= <-].
Qed.

(** Without forwarding api.js makes no call, and answers 204, 200, 405
    to what is no POST, or 404 to a POST. *)
Lemma api_handler_local event :
  api_forwards event = None ->
  exists reply,
    Api.handler w event = ([], Normal reply)
    /\ (Reply.statusCode reply = 204%Z \/ Reply.statusCode reply = 200%Z
        \/ (Reply.statusCode reply = 405%Z /\ is_post event = false)
        \/ (Reply.statusCode reply = 404%Z /\ is_post event = true)).
Proof.
  unfold api_forwards, is_post, Api.handler.
  destruct (str_eqb (opt_or (Event.httpMethod event) (js "GET")) (js "OPTIONS")).
  { intros _. eexists; split; [reflexivity|]. simpl; auto. }
  destruct (str_eqb (opt_or (Event.httpMethod event) (js "GET")) (js "GET")
            && str_eqb (Api.normalizePath event) (js "/health")).
  { intros _. eexists; split; [reflexivity|]. simpl; auto. }
  destruct (str_eqb (opt_or (Event.httpMethod event) (js "GET")) (js "POST")); simpl.
  - destruct (str_eqb (Api.normalizePath event) (js "/auth/login")); [discriminate|].
    destruct (str_eqb (Api.normalizePath event) (js "/auth/signup")); [discriminate|].
    intros _. eexists; split; [reflexivity|]. simpl; auto 6.
  - intros _. eexists; split; [reflexivity|]. simpl; auto 6.
Qed.

Lemma api_calls_no_fetch raw0 req : ~ In (EFetch req) (api_calls raw0).
Proof.
  unfold api_calls. destruct (negb _); [simpl; tauto|].
  destruct (Json.parse (Api.sanitizeRaw raw0)) as [[]|]; simpl;
    intros H; repeat destruct H as [H|H]; try discriminate; auto.
Qed.

Lemma api_calls_fetches raw0 rest : fetches (api_calls raw0 ++ rest) = fetches rest.
Proof.
  unfold api_calls. destruct (negb _); [reflexivity|].
  destruct (Json.parse (Api.sanitizeRaw raw0)) as [[]|]; reflexivity.
Qed.

Lemma flow_calls_no_fetch raw req : ~ In (EFetch req) (flow_calls raw).
Proof.
  unfold flow_calls. destruct (truthy raw); [|simpl; tauto].
  destruct (Json.parse raw); simpl;
    intros H; repeat destruct H as [H|H]; try discriminate; auto.
Qed.

Lemma flow_calls_fetches raw rest : fetches (flow_calls raw ++ rest) = fetches rest.
Proof.
  unfold flow_calls. destruct (truthy raw); [|reflexivity].
  destruct (Json.parse raw); reflexivity.
Qed.

(** A POST to flow-proxy.js: the parse calls, the one fetch, and after a
    body that was read in time the parse of it. *)
Lemma flow_handler_post event :
  is_post event = true ->
  FlowProxy.handler w event =
  (flow_calls (getRawBody w event)
   ++ EFetch (FlowProxy.forward_request w (FlowProxy.declaredContentType w event)
                (flow_outcome w (getRawBody w event)))
      :: match fst (flow_settles w (FlowProxy.declaredContentType w event)
                      (flow_outcome w (getRawBody w event))) with
         | Some s => [EJsonParse s]
         | None => []
         end,
   Normal (snd (flow_settles w (FlowProxy.declaredContentType w event)
                  (flow_outcome w (getRawBody w event))))).
Proof.
  unfold is_post, FlowProxy.handler. intros E.
  apply str_eqb_eq in E. rewrite E.
  change (str_eqb (js "POST") (js "OPTIONS")) with false.
  change (str_eqb (js "POST") (js "GET")) with false.
  change (str_eqb (js "POST") (js "POST")) with true. simpl negb. cbv iota.
  rewrite normalize_run.
  unfold bind at 1, flow_settles, fetch, text, try_catch, bind, ret, clearTimeout,
    aborted.
  destruct (network w _) as [t r | t e |]; simpl.
  - destruct (FlowProxy.timeoutMs <=? t)%Z; simpl; [reflexivity|].
    destruct (Response.read r) as [t' s | t' e |]; simpl.
    + destruct (FlowProxy.timeoutMs <=? t')%Z; simpl; [reflexivity|].
      rewrite safeJsonParse_run. reflexivity.
    + destruct (FlowProxy.timeoutMs <=? t')%Z; reflexivity.
    + reflexivity.
  - destruct (FlowProxy.timeoutMs <=? t)%Z; reflexivity.
  - reflexivity.
Qed.

(** What is no POST is answered by flow-proxy.js without any call. *)
Lemma flow_handler_local event :
  is_post event = false ->
  exists reply,
    FlowProxy.handler w event = ([], Normal reply)
    /\ (Reply.statusCode reply = 204%Z \/ Reply.statusCode reply = 200%Z
        \/ Reply.statusCode reply = 405%Z).
Proof.
  unfold is_post, FlowProxy.handler. intros E. rewrite E.
  destruct (str_eqb (opt_or (Event.httpMethod event) (js "GET")) (js "OPTIONS")).
  { eexists; split; [reflexivity|]. simpl; auto. }
  destruct (str_eqb (opt_or (Event.httpMethod event) (js "GET")) (js "GET")).
  { eexists; split; [reflexivity|]. simpl; auto. }
  eexists; split; [reflexivity|]. simpl; auto.
Qed.

End HandlerFacts.

Section ForwardFacts.
Variable w : World.





(** The one request of a run of api.js that forwards, and how it ends. *)
Lemma api_forward_attempt event req :
  In (EFetch req) (fst (Api.handler w event)) ->
  exists flowPath,
    req = Api.flow_request w (Api.FLOW_BASE_URL w ++ flowPath)
            (api_outcome w (getRawBody w event))
    /\ fetches (fst (Api.handler w event)) = [req]
    /\ snd (Api.handler w event)
       = api_settles w (Api.FLOW_BASE_URL w ++ flowPath)
           (api_outcome w (getRawBody w event)).
Proof.
  destruct (api_forwards event) as [flowPath|] eqn:R.
  - rewrite (api_handler_forward w event flowPath R), proxyToFlow_run. simpl.
    intros H. apply in_app_or in H as [H|H].
    + now apply api_calls_no_fetch in H.
    + destruct H as [H|[]]. injection H as <-.
      exists flowPath. rewrite api_calls_fetches. auto.
  - destruct (api_handler_local w event R) as (reply & -> & _). intros [].
Qed.

(** The same for flow-proxy.js. *)
Lemma flow_forward_attempt event req :
  In (EFetch req) (fst (FlowProxy.handler w event)) ->
  req = FlowProxy.forward_request w (FlowProxy.declaredContentType w event)
          (flow_outcome w (getRawBody w event))
  /\ fetches (fst (FlowProxy.handler w event)) = [req]
  /\ snd (FlowProxy.handler w event)
     = Normal (snd (flow_settles w (FlowProxy.declaredContentType w event)
                      (flow_outcome w (getRawBody w event)))).
Proof.
  destruct (is_post event) eqn:P.
  - rewrite (flow_handler_post w event P). simpl.
    intros H. apply in_app_or in H as [H|H].
    + now apply flow_calls_no_fetch in H.
    + assert (E : EFetch (FlowProxy.forward_request w (FlowProxy.declaredContentType w event)
                            (flow_outcome w (getRawBody w event))) = EFetch req).
      { destruct H as [H|H]; [exact H|].
        destruct (fst (flow_settles w _ _)); simpl in H;
          [destruct H as [H|[]]; discriminate | destruct H]. }
      injection E as <-. rewrite flow_calls_fetches. simpl.
      destruct (fst (flow_settles w _ _)); auto.
  - destruct (flow_handler_local w event P) as (reply & -> & _). intros [].
Qed.

End ForwardFacts.

(** C8 (as amended).  When the upstream's status line arrives within the
    15000 ms, the outgoing status is the upstream's, whatever it is.  In
    flow-proxy.js, with the body read in time too, the outgoing body is
    the serialization of the body's JSON value, or, when the body is no
    JSON, of the object made of the upstream's ok flag, status and text.
    In api.js the outgoing body is the upstream's text as it is. *)
Theorem upstream_answer_is_relayed (w : World) (event : Event.t) (req : Request.t)
    (t : Z) (r : Response.t) (t' : Z) (s : jsstring) :
  network w req = Responds t r -> (t < 15000)%Z ->
  Response.read r = BodyText t' s ->
  (In (EFetch req) (fst (Api.handler w event)) ->
   exists reply,
     snd (Api.handler w event) = Normal reply
     /\ Reply.statusCode reply = Response.status r
     /\ Reply.body reply = Some s)
  /\ (In (EFetch req) (fst (FlowProxy.handler w event)) -> (t' < 15000)%Z ->
      exists reply,
        snd (FlowProxy.handler w event) = Normal reply
        /\ Reply.statusCode reply = Response.status r
        /\ Reply.body reply =
           JSON_stringify
             match Json.parse s with
             | Some v => v
             | None =>
                 JObject [(js "ok", JBool (Response.ok r));
                          (js "status", JNumber (number_of_Z (Response.status r)));
                          (js "text", JString s)]
             end
        /\ exists b, Reply.body reply = Some b).
Proof.
  intros N Ht Hr. apply Z.leb_gt in Ht. split.
  - intros Hin.
    destruct (api_forward_attempt w event req Hin) as (flowPath & Hreq & _ & Hend).
    rewrite Hend. unfold api_settles. rewrite <- Hreq, N.
    change Api.TIMEOUT_MS with 15000%Z. rewrite Ht, Hr.
    eexists; split; [reflexivity|]. split; reflexivity.
  - intros Hin Ht'. apply Z.leb_gt in Ht'.
    destruct (flow_forward_attempt w event req Hin) as (Hreq & _ & Hend).
    rewrite Hend. unfold flow_settles. rewrite <- Hreq, N.
    change FlowProxy.timeoutMs with 15000%Z. rewrite Ht, Hr, Ht'.
    eexists; split; [reflexivity|]. split; [reflexivity|].
    simpl. unfold safe_parse.
    destruct (Json.parse s) as [v|] eqn:E; simpl.
    + split; [reflexivity|]. apply is_json_serializable.
      now apply (JsonFacts.parse_is_json s).
    + split; [reflexivity|]. eexists; reflexivity.
Qed.

(** A form to flow-proxy.js; the upstream answers 201 with JSON that
    has white space in it. *)
Lemma upstream_answer_witness :
  exists reply,
    snd (FlowProxy.handler
           (Sample.world (Sample.answers 201 None (jsq "{ `ok` : true }")))
           Sample.form) = Normal reply
    /\ Reply.statusCode reply = 201%Z
    /\ Reply.body reply = Some (jsq "{`ok`:true}").
Proof.
  destruct (proj2 (upstream_answer_is_relayed
                     (Sample.world (Sample.answers 201 None (jsq "{ `ok` : true }")))
                     Sample.form Sample.form_request
                     120 (Response.Make 201 None (BodyText 150 (jsq "{ `ok` : true }")))
                     150 (jsq "{ `ok` : true }")
                     eq_refl eq_refl eq_refl))
    as (reply & H1 & H2 & H3 & _).
  { right. right. left. reflexivity. }
  { reflexivity. }
  exists reply. split; [exact H1|]. split; [exact H2 | exact H3].
Defined.

(** Against C8 as stated: the upstream answers 500 with the text oops;
    api.js hands the text on as it is, where the claim has the object
    made of ok, status and text. *)
Lemma api_relays_text_unchanged :
  Json.parse (js "oops") = None
  /\ snd (Api.handler (Sample.world (Sample.answers 500 None (js "oops"))) Sample.login)
     = Normal (Reply.Make 500
                 (Api.corsHeaders ++ [(js "Content-Type", js "application/json")])
                 (Some (js "oops")))
  /\ JSON_stringify
       (JObject [(js "ok", JBool false);
                 (js "status", JNumber (number_of_Z 500));
                 (js "text", JString (js "oops"))])
     = Some (jsq "{`ok`:false,`status`:500,`text`:`oops`}").
Proof. repeat apply conj; vm_compute; reflexivity. Qed.

Section EnvelopeFacts.
Variable w : World.

Lemma form_or_raw_error raw fallback e :
  parseError (form_or_raw raw fallback) = Some e -> parseError fallback = Some e.
Proof. unfold form_or_raw. destruct (has_keys _); [discriminate | auto]. Qed.

(** An error kept in an outcome of flow-proxy.js is a non-empty text. *)
Lemma flow_outcome_error rawBody e :
  parseError (flow_outcome w rawBody) = Some e -> truthy e = true.
Proof.
  unfold flow_outcome. destruct (truthy rawBody); [|discriminate].
  destruct (Json.parse rawBody); [discriminate|].
  intros H. apply form_or_raw_error in H. injection H as <-.
  apply syntax_error_text_truthy.
Qed.

(** The envelope, field by field, in the order it is serialized. *)
Lemma forwardBody_fields contentType o :
  (forall e, parseError o = Some e -> truthy e = true) ->
  FlowProxy.forwardBody w contentType o =
  JObject ([(js "source", JString (js "netlify"));
            (js "version", JString FlowProxy.VERSION);
            (js "receivedAt", JString (now_ISO w));
            (js "contentType", if truthy contentType then JString contentType else JNull);
            (js "parsedAs", JString (parsedAs o))]
           ++ match parseError o with
              | Some e => [(js "parseError", JString e)]
              | None => []
              end
           ++ [(js "payload", payload o)]).
Proof.
  intros H. unfold FlowProxy.forwardBody.
  destruct (parseError o) as [e|]; [rewrite (H e eq_refl)|]; reflexivity.
Qed.

End EnvelopeFacts.

(** C3 (as amended).  flow-proxy.js sends upstream the serialized
    envelope and nothing else: an object with source, version,
    receivedAt, the declared content type (or null), parsedAs, parseError
    when there is one, and payload.  api.js sends the serialized payload
    by itself, without an envelope. *)
Theorem forwarded_body (w : World) (event : Event.t) (req : Request.t) :
  (In (EFetch req) (fst (FlowProxy.handler w event)) ->
   forall o, snd (FlowProxy.normalize w (getRawBody w event)) = Normal o ->
     Request.body req =
     JSON_stringify
       (JObject ([(js "source", JString (js "netlify"));
                  (js "version", JString FlowProxy.VERSION);
                  (js "receivedAt", JString (now_ISO w));
                  (js "contentType",
                   if truthy (FlowProxy.declaredContentType w event)
                   then JString (FlowProxy.declaredContentType w event) else JNull);
                  (js "parsedAs", JString (parsedAs o))]
                 ++ match parseError o with
                    | Some e => [(js "parseError", JString e)]
                    | None => []
                    end
                 ++ [(js "payload", payload o)]))
     /\ exists s, Request.body req = Some s)
  /\ (In (EFetch req) (fst (Api.handler w event)) ->
      forall o, snd (Api.parsePayload w event) = Normal o ->
        Request.body req = JSON_stringify (payload o)
        /\ exists s, Request.body req = Some s).
Proof.
  split; intros Hin o Ho.
  - destruct (flow_forward_attempt w event req Hin) as (Hreq & _ & _).
    rewrite normalize_run in Ho. simpl in Ho. injection Ho as <-.
    rewrite Hreq. unfold FlowProxy.forward_request. cbn [Request.body].
    rewrite forwardBody_fields by apply flow_outcome_error.
    split; [reflexivity|]. eexists; reflexivity.
  - destruct (api_forward_attempt w event req Hin) as (flowPath & Hreq & _ & _).
    rewrite parsePayload_run in Ho. simpl in Ho. injection Ho as <-.
    rewrite Hreq. simpl. split; [reflexivity|].
    apply is_json_serializable, api_outcome_json.
Qed.

(** The form of the scenario through flow-proxy.js. *)
Lemma forwarded_body_witness :
  Request.body Sample.form_request
  = Some (jsq "{`source`:`netlify`,`version`:`v4-2026-01-29-FIX`,`receivedAt`:`2026-01-30T08:00:00.000Z`,`contentType`:`application/x-www-form-urlencoded`,`parsedAs`:`form-urlencoded`,`payload`:{`a`:`1`,`b`:`2`}}").
Proof.
  destruct (proj1 (forwarded_body (Sample.world Sample.silent) Sample.form
                     Sample.form_request))
    with (o := Sample.form_outcome) as [H _].
  { right. right. left. reflexivity. }
  { reflexivity. }
  reflexivity.
Defined.

(** Against C3 as stated: the body api.js sends for the login is the
    payload alone, an object whose one key is a. *)
Lemma api_sends_bare_payload :
  fetches (fst (Api.handler (Sample.world Sample.silent) Sample.login))
  = [Sample.login_request]
  /\ snd (Api.parsePayload (Sample.world Sample.silent) Sample.login)
     = Normal Sample.login_outcome
  /\ Request.body Sample.login_request = JSON_stringify (payload Sample.login_outcome)
  /\ Request.body Sample.login_request = Some (jsq "{`a`:1}")
  /\ Json.parse (jsq "{`a`:1}") = Some (JObject [(js "a", JNumber (Num 1 0))]).
Proof. repeat apply conj; vm_compute; reflexivity. Qed.

(** C1 (as amended).  In api.js and flow-proxy.js no 4xx comes from
    the body: a 4xx reply is the 405 given to a method that is not
    allowed, the 404 api.js gives to a POST on an unknown path, or the
    status of the upstream's own answer handed on.  The older login proxy
    does answer 400 when the body of a POST is no strict JSON. *)
Theorem client_errors_come_from_routing (w : World) (event : Event.t) :
  (forall reply,
      snd (Api.handler w event) = Normal reply ->
      client_error (Reply.statusCode reply) ->
      (Reply.statusCode reply = 405%Z /\ is_post event = false)
      \/ (Reply.statusCode reply = 404%Z /\ is_post event = true
          /\ api_forwards event = None)
      \/ mirrored w (fst (Api.handler w event)) (Reply.statusCode reply))
  /\ (forall reply,
      snd (FlowProxy.handler w event) = Normal reply ->
      client_error (Reply.statusCode reply) ->
      (Reply.statusCode reply = 405%Z /\ is_post event = false)
      \/ mirrored w (fst (FlowProxy.handler w event)) (Reply.statusCode reply))
  /\ (LoginProxy.method_is event (js "POST") = true ->
      Json.parse (opt_or (Event.body event) (js "{}")) = None ->
      LoginProxy.handler w event
      = ([EJsonParse (opt_or (Event.body event) (js "{}"))],
         Normal (Reply.Make 400 LoginProxy.corsHeaders
                   (Some (jsq "{`ok`:false,`message`:`Body harus JSON`}"))))).
Proof.
  unfold client_error. repeat apply conj.
  - intros reply Hr Hc.
    destruct (api_forwards event) as [flowPath|] eqn:R.
    + right; right. revert Hr.
      rewrite (api_handler_forward w event flowPath R), proxyToFlow_run. simpl.
      unfold api_settles, mirrored.
      destruct (network w _) as [t r | t e |] eqn:N.
      * destruct (Api.TIMEOUT_MS <=? t)%Z.
        { intros [= <-]. simpl in Hc. lia. }
        destruct (Response.read r) as [t' s | t' e |]; try discriminate.
        { intros [= <-]. simpl.
          eexists; exists t, r. split; [|split; [exact N | reflexivity]].
          apply in_or_app. right. left. reflexivity. }
        { intros [= <-]. simpl in Hc. lia. }
      * intros [= <-]. simpl in Hc. lia.
      * intros [= <-]. simpl in Hc. lia.
    + destruct (api_handler_local w event R) as (reply' & E & S).
      rewrite E in Hr. simpl in Hr. injection Hr as ->.
      destruct S as [S | [S | [S | S]]]; try lia; [left | right; left]; tauto.
  - intros reply Hr Hc.
    destruct (is_post event) eqn:P.
    + right. revert Hr. rewrite (flow_handler_post w event P). simpl.
      unfold flow_settles, mirrored.
      destruct (network w _) as [t r | t e |] eqn:N; simpl.
      * destruct (FlowProxy.timeoutMs <=? t)%Z.
        { intros [= <-]. simpl in Hc. lia. }
        destruct (Response.read r) as [t' s | t' e |].
        { destruct (FlowProxy.timeoutMs <=? t')%Z.
          - intros [= <-]. simpl in Hc. lia.
          - intros [= <-]. simpl.
            eexists; exists t, r. split; [|split; [exact N | reflexivity]].
            apply in_or_app. right. left. reflexivity. }
        { intros [= <-]. simpl in Hc. lia. }
        { intros [= <-]. simpl in Hc. lia. }
      * intros [= <-]. simpl in Hc. lia.
      * intros [= <-]. simpl in Hc. lia.
    + destruct (flow_handler_local w event P) as (reply' & E & S).
      rewrite E in Hr. simpl in Hr. injection Hr as ->.
      destruct S as [S | [S | S]]; try lia; left; tauto.
  - intros M HP. unfold LoginProxy.handler.
    assert (O : LoginProxy.method_is event (js "OPTIONS") = false).
    { revert M. unfold LoginProxy.method_is.
      destruct (Event.httpMethod event) as [x|]; [|discriminate].
      intros M. apply str_eqb_eq in M. now subst x. }
    rewrite O, M. simpl negb. cbv iota.
    unfold JSON_parse, try_catch, bind, ret. rewrite HP. reflexivity.
Qed.

(** A PUT with a body that is no JSON, to api.js: 405, for the method. *)
Lemma client_error_witness :
  snd (Api.handler (Sample.world Sample.silent) Sample.put) = Normal Sample.put_reply
  /\ Reply.statusCode Sample.put_reply = 405%Z
  /\ is_post Sample.put = false.
Proof.
  split; [reflexivity|].
  destruct (proj1 (client_errors_come_from_routing (Sample.world Sample.silent) Sample.put)
              Sample.put_reply eq_refl)
    as [H | [H | H]].
  - unfold client_error; simpl; lia.
  - exact H.
  - exfalso. simpl in H. destruct H as [H _]. discriminate H.
  - exfalso. destruct H as (req & t & r & [] & _).
Defined.

(** Against C1 as stated: a POST whose body is no JSON gets 400 from the
    login proxy. *)
Lemma login_proxy_rejects_unparsable_body :
  LoginProxy.handler (Sample.world Sample.silent)
    (Sample.post (js "/") (js "text/plain") (js "not json"))
  = ([EJsonParse (js "not json")],
     Normal (Reply.Make 400 LoginProxy.corsHeaders
               (Some (jsq "{`ok`:false,`message`:`Body harus JSON`}")))).
Proof. vm_compute. reflexivity. Qed.

(** C10.  The declared content type has no part in body normalization:
    two events that differ in their headers alone get the same outcome
    from the same calls, in both files.  api.js then sends the same
    request for both; flow-proxy.js sends envelopes made from the one
    outcome, each with its own declared content type. *)
Theorem content_type_does_not_steer_parsing (w : World)
    (m p : option jsstring) (q : option (list (jsstring * jsstring)))
    (b : option jsstring) (i : bool) (h1 h2 : option (list (jsstring * jsstring))) :
  Api.parsePayload w (Event.Make m p h1 q b i)
  = Api.parsePayload w (Event.Make m p h2 q b i)
  /\ FlowProxy.normalize w (getRawBody w (Event.Make m p h1 q b i))
     = FlowProxy.normalize w (getRawBody w (Event.Make m p h2 q b i))
  /\ Api.handler w (Event.Make m p h1 q b i) = Api.handler w (Event.Make m p h2 q b i)
  /\ (forall req1 req2,
        In (EFetch req1) (fst (FlowProxy.handler w (Event.Make m p h1 q b i))) ->
        In (EFetch req2) (fst (FlowProxy.handler w (Event.Make m p h2 q b i))) ->
        exists o,
          snd (FlowProxy.normalize w (getRawBody w (Event.Make m p h1 q b i))) = Normal o
          /\ Request.body req1
             = JSON_stringify
                 (FlowProxy.forwardBody w
                    (FlowProxy.declaredContentType w (Event.Make m p h1 q b i)) o)
          /\ Request.body req2
             = JSON_stringify
                 (FlowProxy.forwardBody w
                    (FlowProxy.declaredContentType w (Event.Make m p h2 q b i)) o)).
Proof.
  repeat apply conj; try reflexivity.
  intros req1 req2 H1 H2.
  apply flow_forward_attempt in H1 as (-> & _ & _).
  apply flow_forward_attempt in H2 as (-> & _ & _).
  exists (flow_outcome w (getRawBody w (Event.Make m p h1 q b i))).
  split; [now rewrite normalize_run|]. split; reflexivity.
Qed.

(** The form of the scenario, declared once as a form and once as plain
    text: one outcome, two envelopes that differ in contentType. *)
Lemma content_type_witness :
  snd (FlowProxy.normalize (Sample.world Sample.silent)
         (getRawBody (Sample.world Sample.silent) Sample.form))
  = Normal Sample.form_outcome
  /\ Request.body Sample.form_request
     = JSON_stringify
         (FlowProxy.forwardBody (Sample.world Sample.silent)
            (js "application/x-www-form-urlencoded") Sample.form_outcome)
  /\ Request.body Sample.plain_form_request
     = JSON_stringify
         (FlowProxy.forwardBody (Sample.world Sample.silent)
            (js "text/plain") Sample.form_outcome).
Proof.
  destruct (proj2 (proj2 (proj2
             (content_type_does_not_steer_parsing (Sample.world Sample.silent)
                (Some (js "POST")) (Some (js "/")) None (Some (js "a=1&b=2")) false
                (Some [(js "Content-Type",
                        js "application/x-www-form-urlencoded; charset=UTF-8")])
                (Some [(js "Content-Type", js "text/plain")]))))
              Sample.form_request Sample.plain_form_request)
    as (o & Ho & B1 & B2).
  { right. right. left. reflexivity. }
  { right. right. left. reflexivity. }
  assert (E : o = Sample.form_outcome).
  { vm_compute in Ho. injection Ho as <-. reflexivity. }
  subst o. split; [reflexivity|]. split; [exact B1 | exact B2].
Defined.

(** * Further properties of the code *)

(** ** normalizePath *)

Lemma startsWith_app (p s : jsstring) : startsWith (p ++ s) p = true.
Proof.
  induction p as [|c p IH]; simpl; [apply startsWith_nil|].
  now rewrite N.eqb_refl.
Qed.

Lemma skipn_length_app (p s : jsstring) : skipn (List.length p) (p ++ s) = s.
Proof. induction p as [|c p IH]; simpl; auto. Qed.

Lemma startsWith_truthy (s p : jsstring) :
  startsWith s p = true -> truthy p = true -> truthy s = true.
Proof. destruct s, p; simpl; auto; discriminate. Qed.

(** X1.  The path api.js routes on always begins with a slash, whatever
    the event's path is, missing and empty included. *)
Theorem normalizePath_rooted (event : Event.t) :
  startsWith (Api.normalizePath event) (js "/") = true.
Proof.
  unfold Api.normalizePath. cbv zeta.
  match goal with
  | |- context [negb (startsWith ?x ?p)] => destruct (startsWith x p) eqn:E
  end; cbn [negb]; [exact E | apply (startsWith_app (js "/"))].
Qed.

(** X2.  The three ways a route reaches api.js give one normalized path:
    a path [p] that is rooted and carries neither prefix is routed as [p],
    and so are [/api] followed by [p], the function prefix followed by [p],
    and the function prefix followed by [/api] and [p]. *)
Theorem normalizePath_prefixes (event : Event.t) (p : jsstring) :
  startsWith p (js "/") = true ->
  startsWith p (js "/api/") = false ->
  p <> js "/api" ->
  startsWith p (js "/.netlify/functions/api") = false ->
  Api.normalizePath (set_path event p) = p
  /\ Api.normalizePath (set_path event (js "/api" ++ p)) = p
  /\ Api.normalizePath (set_path event (js "/.netlify/functions/api" ++ p)) = p
  /\ Api.normalizePath (set_path event (js "/.netlify/functions/api" ++ js "/api" ++ p)) = p.
Proof.
  intros Hroot Hapi Hne Hfn.
  assert (Heq : str_eqb p (js "/api") = false).
  { destruct (str_eqb p (js "/api")) eqn:E; [|reflexivity].
    apply str_eqb_eq in E. contradiction. }
  assert (Hp : truthy p = true) by (apply (startsWith_truthy p (js "/")); auto).
  assert (Tail : forall q,
            (if startsWith p (js "/api/") then slice_from 4 p else p) = q -> q = p).
  { intros q <-. now rewrite Hapi. }
  unfold Api.normalizePath, set_path; cbn [Event.path]; cbv zeta.
  repeat apply conj.
  - unfold opt_or, str_or. rewrite Hp, Hfn, Hapi, Heq, Hroot. reflexivity.
  - change (opt_or (Some (js "/api" ++ p)) (js "/")) with (js "/api" ++ p).
    change (startsWith (js "/api" ++ p) (js "/.netlify/functions/api")) with false.
    cbv iota.
    change (startsWith (js "/api" ++ p) (js "/api/")) with (startsWith p (js "/")).
    rewrite Hroot.
    change (slice_from 4 (js "/api" ++ p)) with p.
    rewrite Heq, Hroot. reflexivity.
  - change (opt_or (Some (js "/.netlify/functions/api" ++ p)) (js "/"))
      with (js "/.netlify/functions/api" ++ p).
    rewrite startsWith_app. unfold slice_from. rewrite skipn_length_app.
    rewrite Hapi, Heq, Hroot. reflexivity.
  - change (opt_or (Some (js "/.netlify/functions/api" ++ js "/api" ++ p)) (js "/"))
      with (js "/.netlify/functions/api" ++ js "/api" ++ p).
    rewrite startsWith_app. unfold slice_from. rewrite skipn_length_app.
    change (startsWith (js "/api" ++ p) (js "/api/")) with (startsWith p (js "/")).
    rewrite Hroot.
    change (skipn 4 (js "/api" ++ p)) with p.
    rewrite Heq, Hroot. reflexivity.
Qed.

(** The login route, reached in all four ways. *)
Lemma normalizePath_prefixes_witness :
  Api.normalizePath (set_path Sample.login (js "/auth/login")) = js "/auth/login"
  /\ Api.normalizePath (set_path Sample.login (js "/api/auth/login")) = js "/auth/login"
  /\ Api.normalizePath
       (set_path Sample.login (js "/.netlify/functions/api/auth/login"))
     = js "/auth/login"
  /\ Api.normalizePath
       (set_path Sample.login (js "/.netlify/functions/api/api/auth/login"))
     = js "/auth/login".
Proof.
  apply (normalizePath_prefixes Sample.login (js "/auth/login")); try reflexivity.
  discriminate.
Defined.

(** ** Objects: define and look up *)

Lemma str_eqb_neq (a b : jsstring) : str_eqb a b = false <-> a <> b.
Proof.
  split.
  - intros H E. apply str_eqb_eq in E. congruence.
  - intros H. destruct (str_eqb a b) eqn:E; [|reflexivity].
    apply str_eqb_eq in E. contradiction.
Qed.

Lemma str_eqb_sym (a b : jsstring) : str_eqb a b = str_eqb b a.
Proof.
  destruct (str_eqb a b) eqn:E; symmetry.
  - apply str_eqb_eq in E. subst. apply str_eqb_refl.
  - apply str_eqb_neq in E. apply str_eqb_neq. congruence.
Qed.

Lemma obj_get_define {A} (k k' : jsstring) (v : A) (o : list (jsstring * A)) :
  obj_get k (obj_define k' v o) = if str_eqb k' k then Some v else obj_get k o.
Proof.
  induction o as [|[k2 v2] rest IH]; simpl; [reflexivity|].
  destruct (str_eqb k2 k') eqn:E1; simpl.
  - apply str_eqb_eq in E1. subst k2. now destruct (str_eqb k' k).
  - rewrite IH. destruct (str_eqb k2 k) eqn:E2; [|reflexivity].
    apply str_eqb_eq in E2. subst k2. rewrite str_eqb_sym in E1. now rewrite E1.
Qed.

Lemma obj_define_keys {A} (k0 k : jsstring) (v : A) (o : list (jsstring * A)) :
  In k0 (map fst (obj_define k v o)) <-> k0 = k \/ In k0 (map fst o).
Proof.
  induction o as [|[k2 v2] rest IH]; simpl.
  - intuition.
  - destruct (str_eqb k2 k) eqn:E; simpl.
    + apply str_eqb_eq in E. subst k2. intuition.
    + rewrite IH. intuition.
Qed.

Lemma obj_define_NoDup {A} (k : jsstring) (v : A) (o : list (jsstring * A)) :
  NoDup (map fst o) -> NoDup (map fst (obj_define k v o)).
Proof.
  induction o as [|[k2 v2] rest IH]; simpl; intros H.
  - constructor; [intros [] | constructor].
  - inversion H as [|x l Hx Hl]; subst.
    destruct (str_eqb k2 k) eqn:E; simpl.
    + apply str_eqb_eq in E. subst k2. now constructor.
    + constructor; [|auto].
      rewrite obj_define_keys. intros [->|Hin]; [|contradiction].
      apply str_eqb_neq in E. congruence.
Qed.

Lemma obj_define_not_nil {A} (k : jsstring) (v : A) (o : list (jsstring * A)) :
  obj_define k v o <> [].
Proof. destruct o as [|[k2 v2] rest]; simpl; [|destruct (str_eqb k2 k)]; discriminate. Qed.

Lemma insert_index_not_nil {A} i (kv : jsstring * A) l : insert_index i kv l <> [].
Proof. destruct l as [|[j kv'] l]; simpl; [|destruct (i <? j)]; discriminate. Qed.

(** An object has keys to enumerate exactly when it has properties. *)
Lemma Object_keys_nil {A} (props : list (jsstring * A)) :
  Object_keys props = [] <-> props = [].
Proof.
  split; [|now intros ->].
  destruct props as [|kv rest]; [reflexivity|].
  unfold Object_keys, own_props. simpl.
  destruct (array_index (fst kv)) eqn:E; simpl.
  - intros H. apply map_eq_nil in H. apply app_eq_nil in H as [H _].
    apply map_eq_nil in H. now apply insert_index_not_nil in H.
  - intros H. apply map_eq_nil in H. apply app_eq_nil in H as [_ H]. discriminate.
Qed.

Lemma has_keys_iff (props : list (jsstring * value)) :
  has_keys (Ok (JObject props)) = true <-> props <> [].
Proof.
  unfold has_keys. rewrite <- Object_keys_nil.
  destruct (Object_keys props); simpl; split; try discriminate; auto;
    intros H; now contradiction H.
Qed.

(** ** parseFormUrlEncoded *)

Section FormFacts.

Let assign := fun (o : list (jsstring * value)) (kv : jsstring * jsstring) =>
  obj_assign (fst kv) (JString (snd kv)) o.

Lemma fold_assign_get entries : forall o k,
  str_eqb k (js "__proto__") = false ->
  obj_get k (fold_left assign entries o) =
  match last_value k entries with
  | Some v => Some (JString v)
  | None => obj_get k o
  end.
Proof.
  induction entries as [|[k' v] rest IH]; simpl; intros o k Hk; [reflexivity|].
  rewrite IH by exact Hk.
  destruct (last_value k rest); [reflexivity|].
  unfold assign, obj_assign; simpl.
  destruct (str_eqb k' (js "__proto__")) eqn:E.
  - apply str_eqb_eq in E. subst k'. rewrite str_eqb_sym, Hk. reflexivity.
  - rewrite obj_get_define. now destruct (str_eqb k' k).
Qed.

Lemma fold_assign_proto entries : forall o,
  obj_get (js "__proto__") (fold_left assign entries o) = obj_get (js "__proto__") o.
Proof.
  induction entries as [|[k' v] rest IH]; simpl; intros o; [reflexivity|].
  rewrite IH. unfold assign, obj_assign; simpl.
  destruct (str_eqb k' (js "__proto__")) eqn:E; [reflexivity|].
  rewrite obj_get_define, E. reflexivity.
Qed.

Lemma fold_assign_NoDup entries : forall o,
  NoDup (map fst o) -> NoDup (map fst (fold_left assign entries o)).
Proof.
  induction entries as [|[k' v] rest IH]; simpl; intros o H; [exact H|].
  apply IH. unfold assign, obj_assign; simpl.
  destruct (str_eqb k' (js "__proto__")); [exact H|]. now apply obj_define_NoDup.
Qed.

Lemma fold_assign_strings entries : forall o,
  Forall (fun kv => exists s, snd kv = JString s) o ->
  Forall (fun kv => exists s, snd kv = JString s) (fold_left assign entries o).
Proof.
  induction entries as [|[k' v] rest IH]; simpl; intros o H; [exact H|].
  apply IH. unfold assign, obj_assign; simpl.
  destruct (str_eqb k' (js "__proto__")); [exact H|].
  clear IH. induction o as [|[k2 v2] o IHo]; simpl.
  - constructor; [eexists; reflexivity | constructor].
  - inversion H; subst. destruct (str_eqb k2 k'); constructor; simpl; eauto.
Qed.

Lemma fold_assign_nil entries : forall o,
  fold_left assign entries o = [] <-> o = [] /\ has_plain_key entries = false.
Proof.
  induction entries as [|[k' v] rest IH]; simpl; intros o; [intuition|].
  rewrite IH. unfold assign, obj_assign; simpl.
  destruct (str_eqb k' (js "__proto__")); simpl; [reflexivity|].
  split; [intros [H _]; now apply obj_define_not_nil in H | intros [_ H]; discriminate].
Qed.

End FormFacts.

(** X3.  [parseFormUrlEncoded] never fails.  In the object it returns a
    key maps to the value of its last entry, every key occurs once, and
    the key [__proto__] is never there, whatever the entries. *)
Theorem parseFormUrlEncoded_lookup (raw : jsstring) :
  exists props,
    parseFormUrlEncoded raw = ([EFormParse raw], Normal (Ok (JObject props)))
    /\ (forall k,
          obj_get k props =
          if str_eqb k (js "__proto__") then None
          else option_map JString (last_value k (URLSearchParams raw)))
    /\ NoDup (map fst props)
    /\ (props = [] <-> has_plain_key (URLSearchParams raw) = false).
Proof.
  exists (form_object raw). split; [apply parseFormUrlEncoded_run|].
  unfold form_object. repeat apply conj.
  - intros k. destruct (str_eqb k (js "__proto__")) eqn:E.
    + apply str_eqb_eq in E. subst k. now rewrite fold_assign_proto.
    + rewrite fold_assign_get by exact E.
      now destruct (last_value k (URLSearchParams raw)).
  - apply fold_assign_NoDup. constructor.
  - intros H. apply fold_assign_nil in H. tauto.
  - intros H. apply fold_assign_nil. auto.
Qed.

(** ** The shape of an outcome *)

Lemma form_object_strings (raw : jsstring) :
  Forall (fun kv => exists s, snd kv = JString s) (form_object raw).
Proof. unfold form_object. apply fold_assign_strings. constructor. Qed.

Lemma form_object_nil (raw : jsstring) :
  form_object raw = [] <-> has_plain_key (URLSearchParams raw) = false.
Proof.
  unfold form_object. rewrite fold_assign_nil. tauto.
Qed.

Lemma has_keys_form (raw : jsstring) :
  has_keys (Ok (JObject (form_object raw))) = has_plain_key (URLSearchParams raw).
Proof.
  destruct (has_plain_key (URLSearchParams raw)) eqn:E.
  - apply has_keys_iff. rewrite form_object_nil. congruence.
  - apply form_object_nil in E. now rewrite E.
Qed.

(** Settles one implication about a concrete outcome: its premise is
    absurd, or its conclusion holds by computation. *)
Ltac tag_goal :=
  first
    [ let H := fresh in
      intros H; exfalso;
      first [ now contradiction H | vm_compute in H; discriminate H ]
    | intros _; first [ reflexivity | discriminate ] ].

Ltac tag_cases := repeat apply conj; tag_goal.

(** X4.  What an outcome of either file holds goes with its tag: an
    error is kept exactly under raw, where the payload wraps the body as
    received (before any sanitization) under rawBody; empty comes with the
    payload {}; form-urlencoded comes with a non-empty object of strings. *)
Theorem outcome_shape (w : World) (event : Event.t) (o : ParseOutcome) :
  snd (Api.parsePayload w event) = Normal o
  \/ snd (FlowProxy.normalize w (getRawBody w event)) = Normal o ->
  (parseError o <> None <-> parsedAs o = js "raw")
  /\ (parsedAs o = js "raw" ->
      payload o = JObject [(js "rawBody", JString (getRawBody w event))])
  /\ (parsedAs o = js "empty" -> payload o = JObject [])
  /\ (parsedAs o = js "form-urlencoded" ->
      exists props,
        payload o = JObject props /\ props <> []
        /\ Forall (fun kv => exists s, snd kv = JString s) props).
Proof.
  assert (F : forall raw fb,
             parsedAs fb = js "raw" -> parseError fb <> None ->
             payload fb = JObject [(js "rawBody", JString (getRawBody w event))] ->
             let r := form_or_raw raw fb in
             (parseError r <> None <-> parsedAs r = js "raw")
             /\ (parsedAs r = js "raw" ->
                 payload r = JObject [(js "rawBody", JString (getRawBody w event))])
             /\ (parsedAs r = js "empty" -> payload r = JObject [])
             /\ (parsedAs r = js "form-urlencoded" ->
                 exists props,
                   payload r = JObject props /\ props <> []
                   /\ Forall (fun kv => exists s, snd kv = JString s) props)).
  { intros raw fb T E P. unfold form_or_raw.
    destruct (has_keys _) eqn:K; cbn [parseError parsedAs payload].
    - repeat apply conj; try tag_goal.
      intros _. exists (form_object raw).
      split; [reflexivity|]. split; [now apply has_keys_iff | apply form_object_strings].
    - rewrite T. repeat apply conj; try tag_goal; auto. }
  intros [H | H].
  - rewrite parsePayload_run in H. simpl in H. injection H as <-.
    unfold api_outcome. destruct (negb _); [simpl; tag_cases|].
    destruct (Json.parse (Api.sanitizeRaw (getRawBody w event))) as [v1|].
    + destruct v1 as [| | b | n | inner | elems | props]; try (simpl; tag_cases).
      destruct (Json.parse inner); simpl; tag_cases.
    + apply F; [reflexivity | discriminate | reflexivity].
  - rewrite normalize_run in H. simpl in H. injection H as <-.
    unfold flow_outcome. destruct (truthy _); [|simpl; tag_cases].
    destruct (Json.parse (getRawBody w event)); [simpl; tag_cases|].
    apply F; [reflexivity | discriminate | reflexivity].
Qed.

(** A body that is neither JSON nor a form, with spaces around it, to
    api.js: the payload keeps the spaces. *)
Lemma outcome_shape_witness :
  payload (api_outcome (Sample.world Sample.silent) (js " & "))
  = JObject [(js "rawBody", JString (js " & "))].
Proof.
  apply (proj1 (proj2 (outcome_shape (Sample.world Sample.silent)
                         (Sample.post (js "/auth/login") (js "text/plain") (js " & "))
                         (api_outcome (Sample.world Sample.silent) (js " & "))
                         (or_introl eq_refl)))).
  reflexivity.
Defined.

(** ** When a body is taken for a form *)

Section EqualsSign.
Import Json.

Lemma push_value_idle v st s' : push_value v st = Some s' -> lex s' = LIdle.
Proof.
  unfold push_value. destruct st as [|[elems|props [k|]] st']; try discriminate;
    now intros [= <-].
Qed.

Lemma step_idle_outside p st c s' :
  c <> 34 -> step_idle p st c = Some s' -> outside_string s' = true.
Proof.
  intros Hc. unfold step_idle.
  destruct (c =? 34) eqn:E; [apply N.eqb_eq in E; contradiction|].
  repeat JsonFacts.split_if; try discriminate;
    try (intros [= <-]; reflexivity);
    destruct p; try discriminate; try (intros [= <-]; reflexivity);
    destruct st as [|[elems|props [k|]] st']; try discriminate;
    try (intros [= <-]; reflexivity);
    intros H; apply push_value_idle in H; unfold outside_string; now rewrite H.
Qed.

Lemma step_outside s c s' :
  outside_string s = true -> c <> 34 -> step s c = Some s' ->
  outside_string s' = true.
Proof.
  intros Hs Hc. unfold outside_string in Hs. unfold step.
  destruct (lex s) as [|acc|acc|acc k code|p a|rest v]; try discriminate.
  - now apply step_idle_outside.
  - destruct (num_step p a c) as [[p' a']|].
    + now intros [= <-].
    + destruct (num_complete p); try discriminate.
      destruct (push_value _ _) as [s1|]; try discriminate.
      now apply step_idle_outside.
  - destruct rest as [|r rest']; try discriminate.
    simpl in Hs. apply andb_true_iff in Hs as [_ Hs].
    destruct (c =? r); try discriminate.
    destruct rest' as [|r' rest''].
    + intros H. apply push_value_idle in H. unfold outside_string. now rewrite H.
    + intros [= <-]. exact Hs.
Qed.

Lemma step_idle_equals p st : step_idle p st 61 = None.
Proof. unfold step_idle. simpl. now destruct (wants_value p). Qed.

(** Outside a string an equals sign is never accepted. *)
Lemma step_equals s : outside_string s = true -> step s 61 = None.
Proof.
  intros Hs. unfold outside_string in Hs. unfold step.
  destruct (lex s) as [|acc|acc|acc k code|p a|rest v]; try discriminate.
  - apply step_idle_equals.
  - assert (N : num_step p a 61 = None) by now destruct p.
    rewrite N. destruct (num_complete p); [|reflexivity].
    destruct (push_value _ _); [apply step_idle_equals | reflexivity].
  - destruct rest as [|r rest']; [reflexivity|].
    simpl in Hs. apply andb_true_iff in Hs as [Hr _].
    rewrite N.eqb_sym. apply negb_true_iff in Hr. now rewrite Hr.
Qed.

Lemma run_equals text : forall s,
  outside_string s = true -> ~ In 34 text -> In 61 text -> run s text = None.
Proof.
  induction text as [|c text IH]; simpl; intros s Hs Hq He; [contradiction|].
  destruct (N.eq_dec c 61) as [->|Hc].
  - now rewrite step_equals.
  - destruct (step s c) as [s1|] eqn:E; [|reflexivity].
    apply IH; [|tauto|intuition congruence].
    apply (step_outside s c); auto.
Qed.

(** A text with an equals sign and no double quote is no JSON. *)
Lemma parse_equals text : In 61 text -> ~ In 34 text -> parse text = None.
Proof.
  intros He Hq. unfold parse. now rewrite (run_equals text init eq_refl Hq He).
Qed.

End EqualsSign.

(** X5.  flow-proxy.js takes a body for a form exactly when the body is
    not empty, is no JSON, and has an entry whose key is not __proto__;
    without such an entry it falls back to raw.  api.js decides the same
    way on the sanitized text. *)
Theorem form_or_raw_decision (w : World) (event : Event.t) :
  (forall o, snd (FlowProxy.normalize w (getRawBody w event)) = Normal o ->
     Json.parse (getRawBody w event) = None -> truthy (getRawBody w event) = true ->
     parsedAs o =
     if has_plain_key (URLSearchParams (getRawBody w event))
     then js "form-urlencoded" else js "raw")
  /\ (forall o, snd (Api.parsePayload w event) = Normal o ->
      Json.parse (Api.sanitizeRaw (getRawBody w event)) = None ->
      truthy (Api.sanitizeRaw (getRawBody w event)) = true ->
      parsedAs o =
      if has_plain_key (URLSearchParams (Api.sanitizeRaw (getRawBody w event)))
      then js "form-urlencoded" else js "raw").
Proof.
  split; intros o H P T.
  - rewrite normalize_run in H. simpl in H. injection H as <-.
    unfold flow_outcome, form_or_raw. rewrite T, P, has_keys_form.
    now destruct (has_plain_key _).
  - rewrite parsePayload_run in H. simpl in H. injection H as <-.
    unfold api_outcome, form_or_raw. rewrite T, P, has_keys_form. simpl.
    now destruct (has_plain_key _).
Qed.

(** The body whose one key is __proto__ is forwarded raw by flow-proxy.js. *)
Lemma form_or_raw_decision_witness :
  parsedAs (flow_outcome (Sample.world Sample.silent) (js "__proto__=1")) = js "raw".
Proof.
  apply (proj1 (form_or_raw_decision (Sample.world Sample.silent)
                  (Sample.post (js "/") (js "text/plain") (js "__proto__=1")))
           (flow_outcome (Sample.world Sample.silent) (js "__proto__=1")));
    reflexivity.
Defined.

(** X6.  A body that holds an equals sign and no double quote is never
    read as JSON by flow-proxy.js: it is forwarded as a form or, failing
    that, raw, with JSON.parse tried first and URLSearchParams second. *)
Theorem equals_sign_body_is_not_json (w : World) (event : Event.t) :
  In 61 (getRawBody w event) -> ~ In 34 (getRawBody w event) ->
  exists o,
    FlowProxy.normalize w (getRawBody w event)
    = ([EJsonParse (getRawBody w event); EFormParse (getRawBody w event)], Normal o)
    /\ parsedAs o =
       if has_plain_key (URLSearchParams (getRawBody w event))
       then js "form-urlencoded" else js "raw".
Proof.
  intros He Hq. pose proof (parse_equals _ He Hq) as P.
  assert (T : truthy (getRawBody w event) = true).
  { destruct (getRawBody w event); [contradiction | reflexivity]. }
  exists (flow_outcome w (getRawBody w event)).
  rewrite normalize_run. unfold flow_calls, flow_outcome, form_or_raw.
  rewrite T, P, has_keys_form. split; [reflexivity|].
  now destruct (has_plain_key _).
Qed.

(** The form of the scenario. *)
Lemma equals_sign_witness :
  exists o,
    FlowProxy.normalize (Sample.world Sample.silent) (js "a=1&b=2")
    = ([EJsonParse (js "a=1&b=2"); EFormParse (js "a=1&b=2")], Normal o)
    /\ parsedAs o = js "form-urlencoded".
Proof.
  apply (equals_sign_body_is_not_json (Sample.world Sample.silent) Sample.form).
  - vm_compute. tauto.
  - vm_compute. intuition discriminate.
Defined.

(** ** The login proxy, branch by branch *)

Section LoginFacts.
Variable w : World.

Lemma login_method_options event :
  LoginProxy.method_is event (js "POST") = true ->
  LoginProxy.method_is event (js "OPTIONS") = false.
Proof.
  unfold LoginProxy.method_is.
  destruct (Event.httpMethod event) as [x|]; [|discriminate].
  intros M. apply str_eqb_eq in M. now subst x.
Qed.

Lemma login_handler_post event :
  LoginProxy.method_is event (js "POST") = true ->
  LoginProxy.handler w event =
  match Json.parse (opt_or (Event.body event) (js "{}")) with
  | None =>
      ([EJsonParse (opt_or (Event.body event) (js "{}"))],
       Normal LoginProxy.bad_request)
  | Some v =>
      ([EJsonParse (opt_or (Event.body event) (js "{}"));
        EFetch (LoginProxy.login_request w v)],
       login_settles w v)
  end.
Proof.
  intros M. unfold LoginProxy.handler.
  rewrite (login_method_options event M), M. simpl negb. cbv iota.
  unfold JSON_parse, try_catch, bind, ret, login_settles, fetch, text, aborted.
  destruct (Json.parse _) as [v|]; [|reflexivity]. simpl.
  destruct (network w _) as [t r | t e |]; simpl; try reflexivity.
  destruct (Response.read r); reflexivity.
Qed.

Lemma login_handler_local event :
  LoginProxy.method_is event (js "POST") = false ->
  exists reply,
    LoginProxy.handler w event = ([], Normal reply)
    /\ (reply = Reply.Make 204 LoginProxy.corsHeaders (Some [])
        \/ reply = Reply.Make 405 LoginProxy.corsHeaders (Some (js "Method Not Allowed"))).
Proof.
  intros M. unfold LoginProxy.handler. rewrite M.
  destruct (LoginProxy.method_is event (js "OPTIONS")); eexists; split;
    try reflexivity; auto.
Qed.

End LoginFacts.

(** X7.  No handler ever throws.  flow-proxy.js always answers.  api.js
    answers unless the upstream's status line came within the 15000 ms
    and its body then never arrives: the timer is cleared by then.  The
    login proxy, which arms no timer, answers unless the upstream stays
    silent or its body never arrives. *)
Theorem handlers_never_throw (w : World) (event : Event.t) :
  (exists reply, snd (FlowProxy.handler w event) = Normal reply)
  /\ (forall e, snd (Api.handler w event) <> Throw e)
  /\ (snd (Api.handler w event) = Pending <->
      exists req t r,
        In (EFetch req) (fst (Api.handler w event))
        /\ network w req = Responds t r /\ (t < Api.TIMEOUT_MS)%Z
        /\ Response.read r = BodyNever)
  /\ (forall e, snd (LoginProxy.handler w event) <> Throw e)
  /\ (snd (LoginProxy.handler w event) = Pending <->
      exists req,
        In (EFetch req) (fst (LoginProxy.handler w event))
        /\ (network w req = Silent
            \/ exists t r, network w req = Responds t r
                           /\ Response.read r = BodyNever)).
Proof.
  repeat apply conj.
  - destruct (is_post event) eqn:P.
    + rewrite (flow_handler_post w event P). eexists; reflexivity.
    + destruct (flow_handler_local w event P) as (reply & -> & _). eexists; reflexivity.
  - intros e. destruct (api_forwards event) as [flowPath|] eqn:R.
    + rewrite (api_handler_forward w event flowPath R), proxyToFlow_run. simpl.
      unfold api_settles. destruct (network w _) as [t r | t e' |]; try discriminate.
      destruct (Api.TIMEOUT_MS <=? t)%Z; try discriminate.
      destruct (Response.read r); discriminate.
    + destruct (api_handler_local w event R) as (reply & -> & _). discriminate.
  - intros H. destruct (api_forwards event) as [flowPath|] eqn:R.
    + revert H. rewrite (api_handler_forward w event flowPath R), proxyToFlow_run. simpl.
      unfold api_settles. destruct (network w _) as [t r | t e' |] eqn:N; try discriminate.
      destruct (Api.TIMEOUT_MS <=? t)%Z eqn:T; try discriminate.
      destruct (Response.read r) eqn:B; try discriminate. intros _.
      eexists; exists t, r. split; [apply in_or_app; right; left; reflexivity|].
      split; [exact N|]. split; [now apply Z.leb_gt | exact B].
    + destruct (api_handler_local w event R) as (reply & E & _).
      rewrite E in H. discriminate.
  - intros (req & t & r & Hin & N & T & B).
    destruct (api_forward_attempt w event req Hin) as (flowPath & Hreq & _ & Hend).
    rewrite Hend. unfold api_settles. rewrite <- Hreq, N.
    apply Z.leb_gt in T. now rewrite T, B.
  - intros e. destruct (LoginProxy.method_is event (js "POST")) eqn:M.
    + rewrite (login_handler_post w event M).
      destruct (Json.parse _) as [v|]; [|discriminate]. simpl.
      unfold login_settles. destruct (network w _) as [t r | t e' |]; try discriminate.
      destruct (Response.read r); discriminate.
    + destruct (login_handler_local w event M) as (reply & -> & _). discriminate.
  - intros H. destruct (LoginProxy.method_is event (js "POST")) eqn:M.
    + revert H. rewrite (login_handler_post w event M).
      destruct (Json.parse _) as [v|]; [|discriminate]. simpl.
      unfold login_settles.
      destruct (network w _) as [t r | t e' |] eqn:N; try discriminate.
      * destruct (Response.read r) eqn:B; try discriminate. intros _.
        eexists. split; [right; left; reflexivity|]. right. now exists t, r.
      * intros _. eexists. split; [right; left; reflexivity|]. now left.
    + destruct (login_handler_local w event M) as (reply & E & _).
      rewrite E in H. discriminate.
  - intros (req & Hin & N).
    destruct (LoginProxy.method_is event (js "POST")) eqn:M.
    + revert Hin. rewrite (login_handler_post w event M).
      destruct (Json.parse _) as [v|]; simpl.
      * intros [Hin | [Hin | []]]; [discriminate|]. injection Hin as <-.
        unfold login_settles.
        destruct N as [N | (t & r & N & B)]; rewrite N; [reflexivity|].
        now rewrite B.
      * intros [Hin | []]. discriminate.
    + destruct (login_handler_local w event M) as (reply & E & _).
      rewrite E in Hin. destruct Hin.
Qed.

(** The login proxy before a silent upstream: its promise is never
    settled. *)
Lemma handlers_never_throw_witness :
  snd (LoginProxy.handler (Sample.world Sample.silent) Sample.login) = Pending.
Proof.
  apply (proj2 (proj2 (proj2 (proj2
           (handlers_never_throw (Sample.world Sample.silent) Sample.login))))).
  exists (LoginProxy.login_request (Sample.world Sample.silent)
            (JObject [(js "a", JNumber (Num 1 0))])).
  split; [right; left; reflexivity | left; reflexivity].
Defined.

(** ** What is forwarded, where, and with which headers *)

Lemma api_forwards_route event flowPath :
  api_forwards event = Some flowPath ->
  is_post event = true
  /\ ((Api.normalizePath event = js "/auth/login"
       /\ flowPath = js "/webhook/api/auth/login")
      \/ (Api.normalizePath event = js "/auth/signup"
          /\ flowPath = js "/webhook/api/auth/signup")).
Proof.
  unfold api_forwards. destruct (is_post event); [|discriminate].
  destruct (str_eqb (Api.normalizePath event) (js "/auth/login")) eqn:L.
  - apply str_eqb_eq in L. intros [= <-]. auto.
  - destruct (str_eqb (Api.normalizePath event) (js "/auth/signup")) eqn:S;
      [|discriminate].
    apply str_eqb_eq in S. intros [= <-]. auto.
Qed.

Lemma login_forward_attempt w event req :
  In (EFetch req) (fst (LoginProxy.handler w event)) ->
  LoginProxy.method_is event (js "POST") = true
  /\ exists v,
       Json.parse (opt_or (Event.body event) (js "{}")) = Some v
       /\ req = LoginProxy.login_request w v
       /\ fetches (fst (LoginProxy.handler w event)) = [req]
       /\ snd (LoginProxy.handler w event) = login_settles w v.
Proof.
  destruct (LoginProxy.method_is event (js "POST")) eqn:M.
  - rewrite (login_handler_post w event M).
    destruct (Json.parse _) as [v|]; simpl.
    + intros [H | [H | []]]; [discriminate|]. injection H as <-.
      split; [reflexivity|]. exists v. auto.
    + intros [H | []]. discriminate.
  - destruct (login_handler_local w event M) as (reply & -> & _). intros [].
Qed.

(** X8.  Only a POST is ever forwarded, and as a POST.  api.js forwards
    the two auth routes alone, each to its own webhook path under the
    base URL; flow-proxy.js forwards to the chosen URL; the login proxy to
    the login webhook.  No run sends more than the one request. *)
Theorem only_posts_are_forwarded (w : World) (event : Event.t) (req : Request.t) :
  (In (EFetch req) (fst (Api.handler w event)) ->
   is_post event = true /\ Request.method req = js "POST"
   /\ ((Api.normalizePath event = js "/auth/login"
        /\ Request.url req = Api.FLOW_BASE_URL w ++ js "/webhook/api/auth/login")
       \/ (Api.normalizePath event = js "/auth/signup"
           /\ Request.url req = Api.FLOW_BASE_URL w ++ js "/webhook/api/auth/signup")))
  /\ (In (EFetch req) (fst (FlowProxy.handler w event)) ->
      is_post event = true /\ Request.method req = js "POST"
      /\ Request.url req = FlowProxy.chosenUrl w)
  /\ (In (EFetch req) (fst (LoginProxy.handler w event)) ->
      Event.httpMethod event = Some (js "POST") /\ Request.method req = js "POST"
      /\ Request.url req = LoginProxy.FLOW_BASE_URL w ++ js "/webhook/api/auth/login"
      /\ fetches (fst (LoginProxy.handler w event)) = [req]).
Proof.
  repeat apply conj; intros Hin.
  - destruct (api_forwards event) as [flowPath|] eqn:R.
    + destruct (api_forwards_route event flowPath R) as [P Route].
      revert Hin. rewrite (api_handler_forward w event flowPath R), proxyToFlow_run.
      simpl. intros Hin. apply in_app_or in Hin as [Hin|Hin].
      * now apply api_calls_no_fetch in Hin.
      * destruct Hin as [Hin|[]]. injection Hin as <-.
        split; [exact P|]. split; [reflexivity|]. simpl.
        destruct Route as [[Hp ->] | [Hp ->]]; auto.
    + destruct (api_handler_local w event R) as (reply & E & _).
      rewrite E in Hin. destruct Hin.
  - destruct (is_post event) eqn:P.
    + destruct (flow_forward_attempt w event req Hin) as (-> & _ & _). auto.
    + destruct (flow_handler_local w event P) as (reply & E & _).
      rewrite E in Hin. destruct Hin.
  - destruct (login_forward_attempt w event req Hin) as (M & v & _ & -> & One & _).
    split.
    { revert M. unfold LoginProxy.method_is.
      destruct (Event.httpMethod event) as [x|]; [|discriminate].
      intros M. apply str_eqb_eq in M. now subst x. }
    auto.
Qed.

(** The login through api.js under its redirect path. *)
Lemma only_posts_witness :
  is_post Sample.login = true
  /\ Request.url Sample.login_request
     = js "https://flow.eraenterprise.id" ++ js "/webhook/api/auth/login".
Proof.
  destruct (proj1 (only_posts_are_forwarded (Sample.world Sample.silent)
                     Sample.login Sample.login_request))
    as (P & _ & [[_ U] | [S _]]).
  - right. left. reflexivity.
  - split; [exact P | exact U].
  - exfalso. vm_compute in S. discriminate S.
Defined.

(** X9.  The X-API-Key header.  api.js sends it exactly when the key in
    the environment, trimmed, is not empty, and sends the trimmed key;
    the login proxy sends the key as it is, exactly when it is not empty;
    flow-proxy.js never sends one.  All three declare the body as
    application/json. *)
Theorem api_key_header (w : World) (event : Event.t) (req : Request.t) :
  (In (EFetch req) (fst (Api.handler w event)) ->
   obj_get (js "X-API-Key") (Request.headers req)
   = (if truthy (trim (opt_or (env_FLOW_API_KEY w) []))
      then Some (trim (opt_or (env_FLOW_API_KEY w) [])) else None)
   /\ obj_get (js "Content-Type") (Request.headers req) = Some (js "application/json"))
  /\ (In (EFetch req) (fst (FlowProxy.handler w event)) ->
      Request.headers req = [(js "content-type", js "application/json")])
  /\ (In (EFetch req) (fst (LoginProxy.handler w event)) ->
      obj_get (js "X-API-Key") (Request.headers req)
      = (if truthy (opt_or (env_FLOW_API_KEY w) [])
         then Some (opt_or (env_FLOW_API_KEY w) []) else None)
      /\ obj_get (js "Content-Type") (Request.headers req)
         = Some (js "application/json")).
Proof.
  repeat apply conj; intros Hin.
  - destruct (api_forward_attempt w event req Hin) as (flowPath & -> & _ & _).
    unfold Api.flow_request, Api.FLOW_API_KEY. cbn [Request.headers].
    destruct (truthy (trim (opt_or (env_FLOW_API_KEY w) []))); split; reflexivity.
  - destruct (flow_forward_attempt w event req Hin) as (-> & _ & _). reflexivity.
  - destruct (login_forward_attempt w event req Hin) as (_ & v & _ & -> & _ & _).
    unfold LoginProxy.login_request, LoginProxy.FLOW_API_KEY. cbn [Request.headers].
    destruct (truthy (opt_or (env_FLOW_API_KEY w) [])); split; reflexivity.
Qed.

(** A key made of spaces: api.js sends no header, the login proxy sends
    the spaces. *)
Lemma api_key_header_witness :
  obj_get (js "X-API-Key")
    (Request.headers
       (Api.flow_request (set_api_key (Sample.world Sample.silent) (Some (js "  ")))
          Sample.login_url Sample.login_outcome)) = None
  /\ obj_get (js "X-API-Key")
       (Request.headers
          (LoginProxy.login_request
             (set_api_key (Sample.world Sample.silent) (Some (js "  ")))
             (payload Sample.login_outcome))) = Some (js "  ").
Proof.
  split.
  - apply (proj1 (api_key_header
                    (set_api_key (Sample.world Sample.silent) (Some (js "  ")))
                    Sample.login
                    (Api.flow_request
                       (set_api_key (Sample.world Sample.silent) (Some (js "  ")))
                       Sample.login_url Sample.login_outcome))).
    right. left. reflexivity.
  - apply (proj2 (proj2 (api_key_header
                    (set_api_key (Sample.world Sample.silent) (Some (js "  ")))
                    Sample.login
                    (LoginProxy.login_request
                       (set_api_key (Sample.world Sample.silent) (Some (js "  ")))
                       (payload Sample.login_outcome))))).
    right. left. reflexivity.
Defined.

(** X10.  A blank URL in the environment.  flow-proxy.js never calls an
    empty URL: a missing or white-space-only N8N_WEBHOOK_URL gives the
    default, and the URL it uses is trimmed.  api.js trims FLOW_BASE_URL
    after choosing between it and the default, so a white-space-only
    value leaves it with an empty base URL. *)
Theorem blank_upstream_url (w : World) :
  truthy (FlowProxy.chosenUrl w) = true
  /\ trim (FlowProxy.chosenUrl w) = FlowProxy.chosenUrl w
  /\ (match env_N8N_WEBHOOK_URL w with
      | Some s => forallb isWhiteSpace s = true
      | None => True
      end ->
      FlowProxy.chosenUrl w = FlowProxy.DEFAULT_N8N_WEBHOOK_URL)
  /\ trim (Api.FLOW_BASE_URL w) = Api.FLOW_BASE_URL w
  /\ (forall s, env_FLOW_BASE_URL w = Some s -> truthy s = true ->
        forallb isWhiteSpace s = true -> Api.FLOW_BASE_URL w = []).
Proof.
  unfold FlowProxy.chosenUrl, FlowProxy.envUrl, Api.FLOW_BASE_URL.
  repeat apply conj.
  - unfold str_or. destruct (trim _) eqn:E; reflexivity.
  - unfold str_or. destruct (truthy (trim _)) eqn:E; [apply trim_idempotent|].
    vm_compute. reflexivity.
  - destruct (env_N8N_WEBHOOK_URL w) as [s|]; [|reflexivity].
    intros H. unfold opt_or. rewrite str_or_empty, (trim_all_space s H). reflexivity.
  - apply trim_idempotent.
  - intros s E T H. rewrite E. unfold opt_or, str_or. rewrite T. now apply trim_all_space.
Qed.

(** The environment holds two spaces for both URLs. *)
Lemma blank_upstream_url_witness :
  FlowProxy.chosenUrl
    (MkWorld (Some (js "  ")) None (Some (js "  ")) [] Sample.silent
             (fun _ => []) (fun s => s) (fun s => s))
  = FlowProxy.DEFAULT_N8N_WEBHOOK_URL
  /\ Api.FLOW_BASE_URL
       (MkWorld (Some (js "  ")) None (Some (js "  ")) [] Sample.silent
                (fun _ => []) (fun s => s) (fun s => s))
     = [].
Proof.
  destruct (blank_upstream_url
              (MkWorld (Some (js "  ")) None (Some (js "  ")) [] Sample.silent
                       (fun _ => []) (fun s => s) (fun s => s)))
    as (_ & _ & F & _ & A).
  split.
  - apply F. reflexivity.
  - apply (A (js "  ")); reflexivity.
Defined.

Lemma split_first_app (sep : N) (a rest : jsstring) :
  ~ In sep a -> split_first sep (a ++ sep :: rest) = a.
Proof.
  induction a as [|c a IH]; simpl; intros H.
  - now rewrite N.eqb_refl.
  - destruct (c =? sep) eqn:E.
    + apply N.eqb_eq in E. tauto.
    + f_equal. apply IH. tauto.
Qed.

Lemma split_first_none (sep : N) (a : jsstring) : ~ In sep a -> split_first sep a = a.
Proof.
  induction a as [|c a IH]; simpl; intros H; [reflexivity|].
  destruct (c =? sep) eqn:E.
  - apply N.eqb_eq in E. tauto.
  - f_equal. apply IH. tauto.
Qed.

Lemma Object_keys_single {A} (k : jsstring) (v : A) : Object_keys [(k, v)] = [k].
Proof.
  unfold Object_keys, own_props. simpl. now destruct (array_index k).
Qed.

(** X12.  The login proxy forwards the body's JSON value re-serialized,
    whatever that value is, and [{}] when the event has no body or an
    empty one.  It hands back the upstream's status and text as they are,
    however late they come, and answers 502 when the transport fails. *)
Theorem login_proxy_forwards (w : World) (event : Event.t) (v : value) :
  Event.httpMethod event = Some (js "POST") ->
  Json.parse (opt_or (Event.body event) (js "{}")) = Some v ->
  fst (LoginProxy.handler w event)
  = [EJsonParse (opt_or (Event.body event) (js "{}"));
     EFetch (LoginProxy.login_request w v)]
  /\ Request.body (LoginProxy.login_request w v) = JSON_stringify v
  /\ (exists s, JSON_stringify v = Some s)
  /\ (Event.body event = None \/ Event.body event = Some [] ->
      v = JObject [] /\ JSON_stringify v = Some (js "{}"))
  /\ (forall t r t' s,
        network w (LoginProxy.login_request w v) = Responds t r ->
        Response.read r = BodyText t' s ->
        exists reply,
          snd (LoginProxy.handler w event) = Normal reply
          /\ Reply.statusCode reply = Response.status r
          /\ Reply.body reply = Some s)
  /\ (forall e,
        (exists t, network w (LoginProxy.login_request w v) = Fails t e)
        \/ (exists t r t', network w (LoginProxy.login_request w v) = Responds t r
                           /\ Response.read r = BodyError t' e) ->
        snd (LoginProxy.handler w event) = Normal (LoginProxy.gateway_reply e)
        /\ Reply.statusCode (LoginProxy.gateway_reply e) = 502%Z).
Proof.
  intros M P.
  assert (M' : LoginProxy.method_is event (js "POST") = true).
  { unfold LoginProxy.method_is. now rewrite M. }
  rewrite (login_handler_post w event M'), P. simpl.
  repeat apply conj.
  - reflexivity.
  - reflexivity.
  - apply is_json_serializable.
    now apply (JsonFacts.parse_is_json (opt_or (Event.body event) (js "{}")) v).
  - intros [B | B]; rewrite B in P; vm_compute in P; injection P as <-;
      split; reflexivity.
  - intros t r t' s N B. unfold login_settles. rewrite N, B.
    eexists; repeat split; reflexivity.
  - intros e H. unfold login_settles.
    destruct H as [(t & N) | (t & r & t' & N & B)]; rewrite N; rewrite ?B;
      split; reflexivity.
Qed.

(** A POST without a body: the login proxy sends [{}]. *)
Lemma login_proxy_forwards_witness :
  fetches (fst (LoginProxy.handler (Sample.world Sample.silent)
                  (Event.Make (Some (js "POST")) None None None None false)))
  = [Request.Make Sample.login_url (js "POST")
       [(js "Content-Type", js "application/json")] (Some (js "{}"))].
Proof.
  destruct (login_proxy_forwards (Sample.world Sample.silent)
              (Event.Make (Some (js "POST")) None None None None false)
              (JObject []) eq_refl eq_refl) as (H & _).
  rewrite H. reflexivity.
Defined.

(** X13.  Every reply carries the CORS header that allows any origin,
    the error replies included; those of flow-proxy.js also declare JSON
    as their content type. *)
Theorem every_reply_allows_any_origin (w : World) (event : Event.t) (reply : Reply.t) :
  (snd (Api.handler w event) = Normal reply ->
   obj_get (js "Access-Control-Allow-Origin") (Reply.headers reply) = Some (js "*"))
  /\ (snd (FlowProxy.handler w event) = Normal reply ->
      obj_get (js "access-control-allow-origin") (Reply.headers reply) = Some (js "*")
      /\ obj_get (js "content-type") (Reply.headers reply)
         = Some (js "application/json; charset=utf-8"))
  /\ (snd (LoginProxy.handler w event) = Normal reply ->
      obj_get (js "Access-Control-Allow-Origin") (Reply.headers reply) = Some (js "*")).
Proof.
  repeat apply conj.
  - destruct (api_forwards event) as [flowPath|] eqn:R.
    + rewrite (api_handler_forward w event flowPath R), proxyToFlow_run. simpl.
      unfold api_settles. destruct (network w _) as [t r | t e |].
      * destruct (Api.TIMEOUT_MS <=? t)%Z; [now intros [= <-]|].
        destruct (Response.read r); try discriminate; now intros [= <-].
      * now intros [= <-].
      * now intros [= <-].
    + clear R. unfold Api.handler.
      destruct (str_eqb _ (js "OPTIONS")); [now intros [= <-]|].
      destruct (_ && _); [now intros [= <-]|].
      destruct (negb _); [now intros [= <-]|].
      destruct (str_eqb _ (js "/auth/login")).
      { rewrite proxyToFlow_run. simpl. unfold api_settles.
        destruct (network w _) as [t r | t e |].
        - destruct (Api.TIMEOUT_MS <=? t)%Z; [now intros [= <-]|].
          destruct (Response.read r); try discriminate; now intros [= <-].
        - now intros [= <-].
        - now intros [= <-]. }
      destruct (str_eqb _ (js "/auth/signup")); [|now intros [= <-]].
      rewrite proxyToFlow_run. simpl. unfold api_settles.
      destruct (network w _) as [t r | t e |].
      * destruct (Api.TIMEOUT_MS <=? t)%Z; [now intros [= <-]|].
        destruct (Response.read r); try discriminate; now intros [= <-].
      * now intros [= <-].
      * now intros [= <-].
  - destruct (is_post event) eqn:P.
    + rewrite (flow_handler_post w event P). simpl. unfold flow_settles.
      destruct (network w _) as [t r | t e |].
      * destruct (FlowProxy.timeoutMs <=? t)%Z; [now intros [= <-]|].
        destruct (Response.read r) as [t' s | t' e |]; try (now intros [= <-]).
        destruct (FlowProxy.timeoutMs <=? t')%Z; now intros [= <-].
      * now intros [= <-].
      * now intros [= <-].
    + clear P. unfold FlowProxy.handler.
      destruct (str_eqb _ (js "OPTIONS")); [now intros [= <-]|].
      destruct (str_eqb _ (js "GET")); [now intros [= <-]|].
      destruct (negb _); [now intros [= <-]|].
      rewrite normalize_run.
      unfold bind, try_catch, fetch, text, ret, clearTimeout, aborted. simpl.
      destruct (network w _) as [t r | t e |]; simpl.
      * destruct (FlowProxy.timeoutMs <=? t)%Z; simpl; [now intros [= <-]|].
        destruct (Response.read r) as [t' s | t' e |]; simpl;
          try (now intros [= <-]).
        { destruct (FlowProxy.timeoutMs <=? t')%Z; simpl; [now intros [= <-]|].
          rewrite safeJsonParse_run. simpl. now intros [= <-]. }
        destruct (FlowProxy.timeoutMs <=? t')%Z; simpl; now intros [= <-].
      * destruct (FlowProxy.timeoutMs <=? t)%Z; simpl; now intros [= <-].
      * now intros [= <-].
  - destruct (LoginProxy.method_is event (js "POST")) eqn:M.
    + rewrite (login_handler_post w event M).
      destruct (Json.parse _) as [v|]; simpl; [|now intros [= <-]].
      unfold login_settles. destruct (network w _) as [t r | t e |].
      * destruct (Response.read r); try discriminate; now intros [= <-].
      * now intros [= <-].
      * discriminate.
    + destruct (login_handler_local w event M) as (r & -> & [-> | ->]);
        now intros [= <-].
Qed.

(** The 502 of api.js before a silent upstream. *)
Lemma every_reply_witness :
  obj_get (js "Access-Control-Allow-Origin") Api.json_headers = Some (js "*").
Proof.
  apply (proj1 (every_reply_allows_any_origin (Sample.world Sample.silent) Sample.login
                  (Reply.Make 502 Api.json_headers
                     (JSON_stringify
                        (Api.gateway_error (Sample.world Sample.silent) Sample.login_url
                           Sample.login_outcome (js "Upstream timeout after 15000ms")))))).
  reflexivity.
Defined.




(** ** sanitizeRaw only cuts at the ends *)

Lemma trimStart_cut (s : jsstring) :
  exists pre, s = pre ++ trimStart s /\ forallb isWhiteSpace pre = true.
Proof.
  induction s as [|c s (pre & E & W)]; simpl.
  - now exists [].
  - destruct (isWhiteSpace c) eqn:Hc.
    + exists (c :: pre). simpl. rewrite Hc, W. split; [now f_equal | reflexivity].
    + now exists [].
Qed.

Lemma trimEnd_cut (s : jsstring) :
  exists post, s = trimEnd s ++ post /\ forallb isWhiteSpace post = true.
Proof.
  unfold trimEnd. destruct (trimStart_cut (rev s)) as (pre & E & W).
  exists (rev pre). split; [|now rewrite JsonFacts.forallb_rev].
  rewrite <- rev_app_distr, <- E. symmetry. apply rev_involutive.
Qed.

Lemma trim_cut (s : jsstring) :
  exists pre post,
    s = pre ++ trim s ++ post
    /\ forallb isWhiteSpace pre = true /\ forallb isWhiteSpace post = true.
Proof.
  destruct (trimStart_cut s) as (pre & E1 & W1).
  destruct (trimEnd_cut (trimStart s)) as (post & E2 & W2).
  exists pre, post. unfold trim. now rewrite <- E2, <- E1.
Qed.

Lemma quoted_cut (s : jsstring) :
  quoted s = true -> s = 39 :: slice_1_m1 s ++ [39].
Proof.
  unfold quoted, endsWith, slice_1_m1. intros H.
  apply andb_true_iff in H as [H E]. apply andb_true_iff in H as [L S].
  destruct s as [|c [|d t]]; try discriminate.
  simpl in S. apply andb_true_iff in S as [S _]. apply N.eqb_eq in S. subst c.
  simpl skipn. f_equal.
  assert (Ne : d :: t <> []) by discriminate.
  assert (L39 : last (d :: t) 0 = 39).
  { revert E. change (rev (39 :: d :: t)) with (rev (d :: t) ++ [39]).
    rewrite (app_removelast_last 0 Ne) at 1.
    rewrite rev_app_distr. simpl.
    intros E. apply andb_true_iff in E as [E _]. now apply N.eqb_eq in E. }
  rewrite (app_removelast_last 0 Ne) at 1. now rewrite L39.
Qed.

(** X15.  [sanitizeRaw] never touches the inside of the body: the
    sanitized text is one contiguous part of the body, and what is cut
    off before and after it is white space and single quotes alone. *)
Theorem sanitizeRaw_cuts_the_ends (raw : jsstring) :
  exists pre post,
    raw = pre ++ Api.sanitizeRaw raw ++ post
    /\ forallb (fun c => isWhiteSpace c || (c =? 39)) pre = true
    /\ forallb (fun c => isWhiteSpace c || (c =? 39)) post = true.
Proof.
  assert (W : forall l, forallb isWhiteSpace l = true ->
                        forallb (fun c => isWhiteSpace c || (c =? 39)) l = true).
  { intros l H. rewrite forallb_forall in *. intros c Hc. now rewrite (H c Hc). }
  destruct (trim_cut raw) as (pre & post & E & Wpre & Wpost).
  rewrite sanitizeRaw_eq. destruct (quoted (trim raw)) eqn:Q.
  - destruct (trim_cut (slice_1_m1 (trim raw))) as (pre' & post' & E' & Wpre' & Wpost').
    exists (pre ++ 39 :: pre'), (post' ++ 39 :: post).
    rewrite !forallb_app. simpl. rewrite (W _ Wpre), (W _ Wpre'), (W _ Wpost), (W _ Wpost').
    rewrite ?orb_true_r. repeat split; try reflexivity.
    rewrite E at 1. rewrite (quoted_cut _ Q) at 1. rewrite E' at 1.
    rewrite <- !app_assoc. simpl. rewrite <- !app_assoc. reflexivity.
  - exists pre, post. auto.
Qed.

(** ** What the health replies disclose *)

(** X16.  Without [debug=1] a health reply discloses no URL: the GET
    reply of flow-proxy.js is the same in every world, and the health
    reply of api.js depends on the clock and on whether the two
    environment values are set, nothing else. *)
Theorem health_discloses_no_url (w1 w2 : World) (event : Event.t) :
  match Event.queryStringParameters event with
  | Some q => obj_get (js "debug") q <> Some (js "1")
  | None => True
  end ->
  (opt_or (Event.httpMethod event) (js "GET") = js "GET" ->
   FlowProxy.handler w1 event = FlowProxy.handler w2 event)
  /\ (api_forwards event = None ->
      now_ISO w1 = now_ISO w2 ->
      Boolean_opt (env_FLOW_BASE_URL w1) = Boolean_opt (env_FLOW_BASE_URL w2) ->
      Boolean_opt (env_FLOW_API_KEY w1) = Boolean_opt (env_FLOW_API_KEY w2) ->
      Api.handler w1 event = Api.handler w2 event).
Proof.
  intros D.
  assert (Dbg : match Event.queryStringParameters event with
                | Some q => match obj_get (js "debug") q with
                            | Some v => str_eqb v (js "1")
                            | None => false
                            end
                | None => false
                end = false).
  { destruct (Event.queryStringParameters event) as [q|]; [|reflexivity].
    destruct (obj_get (js "debug") q) as [v|]; [|reflexivity].
    apply str_eqb_neq. congruence. }
  split.
  - intros M. unfold FlowProxy.handler. rewrite M, Dbg. reflexivity.
  - intros R T B K. revert R. unfold api_forwards, is_post, Api.handler.
    destruct (str_eqb _ (js "OPTIONS")); [reflexivity|].
    destruct (_ && _).
    { intros _. unfold Api.health_body. now rewrite Dbg, T, B, K. }
    destruct (str_eqb _ (js "POST")); simpl; [|reflexivity].
    destruct (str_eqb _ (js "/auth/login")); [discriminate|].
    destruct (str_eqb _ (js "/auth/signup")); [discriminate | reflexivity].
Qed.

(** A GET without a query string, in two worlds with different URLs. *)
Lemma health_discloses_witness :
  FlowProxy.handler
    (MkWorld None None (Some (js "https://one.example/hook")) [] Sample.silent
             (fun _ => []) (fun s => s) (fun s => s))
    (Event.Make None None None None None false)
  = FlowProxy.handler (Sample.world Sample.silent)
      (Event.Make None None None None None false).
Proof.
  apply (proj1 (health_discloses_no_url
                  (MkWorld None None (Some (js "https://one.example/hook")) []
                           Sample.silent (fun _ => []) (fun s => s) (fun s => s))
                  (Sample.world Sample.silent)
                  (Event.Make None None None None None false) I)).
  reflexivity.
Defined.

(** ** JSON.stringify and JSON.parse together

    What [JSON.stringify] writes, [JSON.parse] reads: the automaton is
    followed through the text of a value, token by token. *)

Module PrintFacts.
Import Json.

Lemma finish_closed s :
  finish s = match closed s with
             | Some (PState LIdle (PDone v) []) => Some v
             | _ => None
             end.
Proof. reflexivity. Qed.

Lemma push_value_closed v st s : push_value v st = Some s -> closed s = Some s.
Proof.
  destruct st as [|[elems|props [k|]] st']; simpl; intros [= <-]; reflexivity.
Qed.

Lemma num_step_delim p a c :
  num_complete p = true -> c = 44 \/ c = 93 \/ c = 125 -> num_step p a c = None.
Proof.
  intros C D. destruct D as [D|[D|D]]; subst c; destruct p; try discriminate; reflexivity.
Qed.

Lemma step_closed s1 s2 c :
  closed s1 = Some s2 -> c = 44 \/ c = 93 \/ c = 125 ->
  step s1 c = step_idle (ph s2) (stack s2) c.
Proof.
  unfold closed, step. destruct s1 as [l p st]; simpl.
  destruct l as [| | | |np a|]; try discriminate.
  - now intros [= <-] _.
  - destruct (num_complete np) eqn:C; try discriminate.
    intros H D. now rewrite (num_step_delim _ _ _ C D), H.
Qed.

Lemma reads_parse t v : reads_as t v -> parse t = Some v.
Proof.
  intros R. destruct (R PValue [] eq_refl eq_refl) as (s1 & Hr & Hc).
  unfold parse, init. rewrite Hr, finish_closed, Hc. reflexivity.
Qed.

(** *** Literals *)

Ltac literal :=
  intros p st Hp Hs;
  destruct p; try discriminate;
  destruct st as [|[elems|props [k|]] st']; try discriminate;
  eexists; split; reflexivity.

Lemma reads_null : reads_as (js "null") JNull.
Proof. literal. Qed.

Lemma reads_true : reads_as (js "true") (JBool true).
Proof. literal. Qed.

Lemma reads_false : reads_as (js "false") (JBool false).
Proof. literal. Qed.

(** *** Strings *)

Lemma hex_round d : d < 16 -> hex_value (hex_digit d) = Some d.
Proof.
  intros H. unfold hex_digit, hex_value, is_digit.
  destruct (d <? 10) eqn:E.
  - apply N.ltb_lt in E.
    replace (48 <=? 48 + d) with true by (symmetry; apply N.leb_le; lia).
    replace (48 + d <=? 57) with true by (symmetry; apply N.leb_le; lia).
    cbn [andb]. f_equal. lia.
  - apply N.ltb_ge in E.
    replace (87 + d <=? 57) with false by (symmetry; apply N.leb_gt; lia).
    rewrite andb_false_r.
    replace (97 <=? 87 + d) with true by (symmetry; apply N.leb_le; lia).
    replace (87 + d <=? 102) with true by (symmetry; apply N.leb_le; lia).
    cbn [andb]. f_equal. lia.
Qed.

Lemma unicode_digits c :
  c < 65536 ->
  (((0 * 16 + c / 4096 mod 16) * 16 + c / 256 mod 16) * 16 + c / 16 mod 16) * 16
  + c mod 16 = c.
Proof.
  intros H.
  pose proof (N.div_mod c 16 ltac:(lia)) as E1.
  pose proof (N.Div0.div_div c 16 16) as D2. change (16 * 16) with 256 in D2.
  pose proof (N.Div0.div_div c 256 16) as D3. change (256 * 16) with 4096 in D3.
  pose proof (N.div_mod (c / 16) 16 ltac:(lia)) as E2. rewrite D2 in E2.
  pose proof (N.div_mod (c / 256) 16 ltac:(lia)) as E3. rewrite D3 in E3.
  assert (S : c / 4096 < 16) by (apply N.Div0.div_lt_upper_bound; lia).
  rewrite (N.mod_small (c / 4096) 16 S). lia.
Qed.

Lemma step_backslash acc p st :
  step (PState (LString acc) p st) 92 = Some (PState (LEscape acc) p st).
Proof. reflexivity. Qed.

Lemma step_escape_u acc p st :
  step (PState (LEscape acc) p st) 117 = Some (PState (LUnicode acc 4 0) p st).
Proof. reflexivity. Qed.

Lemma step_hex acc k code p st d :
  d < 16 ->
  step (PState (LUnicode acc k code) p st) (hex_digit d)
  = Some (match k with
          | S (S k') => PState (LUnicode acc (S k') (code * 16 + d)) p st
          | _ => PState (LString (code * 16 + d :: acc)) p st
          end).
Proof.
  intros H. unfold step. cbn [lex ph stack]. rewrite (hex_round d H).
  now destruct k as [|[|k]].
Qed.

Lemma run_unicode_escape c acc p st rest :
  c < 65536 ->
  run (PState (LString acc) p st) (unicode_escape c ++ rest)
  = run (PState (LString (c :: acc)) p st) rest.
Proof.
  intros H. unfold unicode_escape. cbn [app run].
  rewrite step_backslash, step_escape_u.
  rewrite !step_hex by (apply N.mod_lt; lia).
  now rewrite (unicode_digits c H).
Qed.

Lemma run_escape c e acc p st rest :
  escape_value e = Some c -> (e =? 117) = false ->
  run (PState (LString acc) p st) ([92; e] ++ rest)
  = run (PState (LString (c :: acc)) p st) rest.
Proof.
  intros H U. cbn [app run]. rewrite step_backslash.
  unfold step at 1. cbn [lex ph stack]. now rewrite U, H.
Qed.

Lemma step_plain c acc p st :
  (c =? 34) = false -> (c =? 92) = false -> (c <? 32) = false ->
  step (PState (LString acc) p st) c = Some (PState (LString (c :: acc)) p st).
Proof. intros A B C. unfold step. cbn [lex ph stack]. now rewrite A, B, C. Qed.

Lemma run_quote_unit c acc p st rest :
  run (PState (LString acc) p st) (quote_unit c ++ rest)
  = run (PState (LString (c :: acc)) p st) rest.
Proof.
  unfold quote_unit.
  destruct (c =? 8) eqn:E8; [apply N.eqb_eq in E8; subst; now apply run_escape|].
  destruct (c =? 9) eqn:E9; [apply N.eqb_eq in E9; subst; now apply run_escape|].
  destruct (c =? 10) eqn:E10; [apply N.eqb_eq in E10; subst; now apply run_escape|].
  destruct (c =? 12) eqn:E12; [apply N.eqb_eq in E12; subst; now apply run_escape|].
  destruct (c =? 13) eqn:E13; [apply N.eqb_eq in E13; subst; now apply run_escape|].
  destruct (c =? 34) eqn:E34; [apply N.eqb_eq in E34; subst; now apply run_escape|].
  destruct (c =? 92) eqn:E92; [apply N.eqb_eq in E92; subst; now apply run_escape|].
  destruct ((c <? 32) || is_high_surrogate c || is_low_surrogate c) eqn:E.
  - apply run_unicode_escape.
    unfold is_high_surrogate, is_low_surrogate in E.
    apply orb_true_iff in E as [E|E]; [apply orb_true_iff in E as [E|E]|].
    + apply N.ltb_lt in E. lia.
    + apply andb_true_iff in E as [_ E]. apply N.leb_le in E. lia.
    + apply andb_true_iff in E as [_ E]. apply N.leb_le in E. lia.
  - apply orb_false_iff in E as [E _]. apply orb_false_iff in E as [E _].
    cbn [app run]. now rewrite (step_plain c acc p st E34 E92 E).
Qed.

Lemma run_quote_body_bounded n :
  forall s, (List.length s <= n)%nat ->
  forall acc p st rest,
    run (PState (LString acc) p st) (quote_body s ++ rest)
    = run (PState (LString (rev s ++ acc)) p st) rest.
Proof.
  induction n as [|n IH]; intros s L acc p st rest.
  - destruct s; [reflexivity | simpl in L; lia].
  - destruct s as [|c [|d tl]]; [reflexivity| |].
    + apply run_quote_unit.
    + change (quote_body (c :: d :: tl))
        with (if is_high_surrogate c && is_low_surrogate d
              then c :: d :: quote_body tl
              else quote_unit c ++ quote_body (d :: tl)).
      destruct (is_high_surrogate c && is_low_surrogate d) eqn:E.
      * apply andb_true_iff in E as [Hc Hd].
        unfold is_high_surrogate in Hc. unfold is_low_surrogate in Hd.
        apply andb_true_iff in Hc as [Hc _]. apply N.leb_le in Hc.
        apply andb_true_iff in Hd as [Hd _]. apply N.leb_le in Hd.
        cbn [app run].
        rewrite (step_plain c) by (first [apply N.eqb_neq | apply N.ltb_ge]; lia).
        rewrite (step_plain d) by (first [apply N.eqb_neq | apply N.ltb_ge]; lia).
        rewrite IH by (simpl in *; lia).
        simpl. now rewrite <- !app_assoc.
      * rewrite <- app_assoc, run_quote_unit.
        rewrite IH by (simpl in *; lia).
        simpl. now rewrite <- !app_assoc.
Qed.

Lemma run_quote_body s acc p st rest :
  run (PState (LString acc) p st) (quote_body s ++ rest)
  = run (PState (LString (rev s ++ acc)) p st) rest.
Proof. now apply (run_quote_body_bounded (List.length s)). Qed.

Lemma step_idle_quote p st :
  wants_value p || wants_key p = true ->
  step (PState LIdle p st) 34 = Some (PState (LString []) p st).
Proof. intros W. unfold step, step_idle. cbn [lex ph stack]. now rewrite W. Qed.

(** A quoted text, from its opening quote on, ends the string [s]. *)
Lemma run_quote s p st rest :
  wants_value p || wants_key p = true ->
  run (PState LIdle p st) (quote s ++ rest)
  = match end_string s p st with
    | Some s' => run s' rest
    | None => None
    end.
Proof.
  intros W. unfold quote.
  change ((34 :: quote_body s ++ [34]) ++ rest)
    with (34 :: (quote_body s ++ [34]) ++ rest).
  rewrite <- app_assoc.
  cbn [run]. rewrite (step_idle_quote p st W), run_quote_body.
  cbn [app run]. unfold step at 1. cbn [lex ph stack].
  change (34 =? 34) with true. cbv iota.
  now rewrite app_nil_r, rev_involutive.
Qed.

Lemma reads_string s : reads_as (quote s) (JString s).
Proof.
  intros p st Hp Hs.
  pose proof (run_quote s p st [] ltac:(now rewrite Hp)) as R.
  rewrite app_nil_r in R. rewrite R. unfold end_string.
  replace (wants_key p) with false by (now destruct p).
  destruct (push_value (JString s) st) as [s'|] eqn:E.
  - exists s'. split; [reflexivity | now apply push_value_closed in E].
  - destruct st as [|[elems|props [k|]] st']; discriminate.
Qed.


(** *** Numbers *)

Lemma digit_range c : is_digit c = true -> 48 <= c <= 57.
Proof.
  unfold is_digit. intros H. apply andb_true_iff in H as [A B].
  apply N.leb_le in A, B. lia.
Qed.

Lemma digit_not c x : is_digit c = true -> x < 48 \/ 57 < x -> (c =? x) = false.
Proof. intros D H. apply digit_range in D. apply N.eqb_neq. lia. Qed.

Lemma num_run_app t1 : forall p a t2,
  num_run p a (t1 ++ t2)
  = match num_run p a t1 with
    | Some (p', a') => num_run p' a' t2
    | None => None
    end.
Proof.
  induction t1 as [|c t1 IH]; intros p a t2; [reflexivity|].
  cbn [app num_run]. destruct (num_step p a c) as [[p' a']|]; [apply IH | reflexivity].
Qed.

Lemma num_run_digits np ds :
  np = NInt \/ np = NFrac \/ np = NExp -> forallb is_digit ds = true ->
  forall a, exists a', num_run np a ds = Some (np, a').
Proof.
  intros K. induction ds as [|c ds IH]; intros D a; [now exists a|].
  cbn [forallb] in D. apply andb_true_iff in D as [Dc Dds].
  cbn [num_run].
  destruct K as [K | [K | K]]; subst np; cbn [num_step]; rewrite Dc;
    apply IH; assumption.
Qed.

Lemma num_step_leading a d :
  is_digit d = true -> d <> 48 ->
  num_step NMinus a d = Some (NInt, add_digit a d false).
Proof.
  intros D Z. cbn [num_step]. apply N.eqb_neq in Z. now rewrite Z, D.
Qed.

Lemma num_run_fraction np a ds :
  np = NZero \/ np = NInt -> ds <> [] -> forallb is_digit ds = true ->
  exists a', num_run np a (46 :: ds) = Some (NFrac, a').
Proof.
  intros K Ne D. destruct ds as [|c ds]; [congruence|].
  cbn [forallb] in D. apply andb_true_iff in D as [Dc Dds].
  assert (S1 : num_step np a 46 = Some (NDot, a)) by (destruct K; subst np; reflexivity).
  cbn [num_run]. rewrite S1. cbn [num_step]. rewrite Dc.
  apply num_run_digits; auto.
Qed.

Lemma num_run_exponent np a c ds :
  np = NInt \/ np = NFrac -> c = 43 \/ c = 45 ->
  ds <> [] -> forallb is_digit ds = true ->
  exists a', num_run np a (101 :: c :: ds) = Some (NExp, a').
Proof.
  intros K C Ne D. destruct ds as [|d ds]; [congruence|].
  cbn [forallb] in D. apply andb_true_iff in D as [Dd Dds].
  assert (S1 : num_step np a 101 = Some (NE, a)) by (destruct K; subst np; reflexivity).
  assert (S2 : exists a1, num_step NE a c = Some (NESign, a1))
    by (destruct C; subst c; eexists; reflexivity).
  destruct S2 as (a1 & S2).
  cbn [num_run]. rewrite S1, S2. cbn [num_step]. rewrite Dd.
  apply num_run_digits; auto.
Qed.

Lemma units_digits u : forallb is_digit (units_of_uint u) = true.
Proof. induction u; cbn [units_of_uint forallb]; try rewrite IHu; reflexivity. Qed.

Lemma decimal_digits n : forallb is_digit (decimal n) = true.
Proof. apply units_digits. Qed.

Lemma decimal_leading n :
  n <> 0 ->
  exists d ds,
    decimal n = d :: ds /\ is_digit d = true /\ d <> 48
    /\ forallb is_digit ds = true.
Proof.
  intros Hn. unfold decimal.
  assert (U : N.to_uint n = Decimal.unorm (N.to_uint n)).
  { rewrite <- DecimalN.Unsigned.to_of. now rewrite DecimalN.Unsigned.of_to. }
  assert (Z : N.to_uint n <> Decimal.zero).
  { intros E. apply Hn. rewrite <- (DecimalN.Unsigned.of_to n), E. reflexivity. }
  destruct (N.to_uint n) as [|u|u|u|u|u|u|u|u|u|u] eqn:E;
    try (eexists _, _; split; [reflexivity|];
         split; [reflexivity|]; split; [discriminate | apply units_digits]).
  - discriminate U.
  - exfalso. rewrite DecimalFacts.unorm_D0 in U. unfold Decimal.unorm in U.
    pose proof (DecimalFacts.nzhead_nonzero u u) as NZ.
    destruct (Decimal.nzhead u) eqn:H; try congruence.
Qed.

Lemma decimal_nonempty n : decimal n <> [].
Proof.
  destruct (N.eq_dec n 0) as [->|Hn]; [discriminate|].
  destruct (decimal_leading n Hn) as (d & ds & E & _). congruence.
Qed.

Lemma forallb_firstn {A} (f : A -> bool) n : forall l,
  forallb f l = true -> forallb f (firstn n l) = true.
Proof.
  induction n as [|n IH]; intros [|x l]; cbn [firstn forallb]; auto.
  intros H. apply andb_true_iff in H as [Hx Hl]. now rewrite Hx, IH.
Qed.

Lemma forallb_skipn {A} (f : A -> bool) n : forall l,
  forallb f l = true -> forallb f (skipn n l) = true.
Proof.
  induction n as [|n IH]; intros [|x l]; cbn [skipn forallb]; auto.
  intros H. apply andb_true_iff in H as [Hx Hl]. now apply IH.
Qed.

Lemma forallb_zeros n : forallb is_digit (repeat 48 n) = true.
Proof. induction n; cbn [repeat forallb]; auto. Qed.

(** What [number_to_string] writes after the sign is a complete number. *)
Lemma num_run_body (m e : Z) (a0 : numacc) :
  m <> 0%Z ->
  let s := decimal (Z.abs_N m) in
  let k := Z.of_nat (List.length s) in
  let n := (k + e)%Z in
  let body :=
    if ((k <=? n) && (n <=? 21))%Z then
      s ++ repeat 48 (Z.to_nat (n - k))
    else if ((0 <? n) && (n <=? 21))%Z then
      firstn (Z.to_nat n) s ++ 46 :: skipn (Z.to_nat n) s
    else if ((-6 <? n) && (n <=? 0))%Z then
      48 :: 46 :: repeat 48 (Z.to_nat (- n)) ++ s
    else
      let e := (n - 1)%Z in
      let sign := if (e <? 0)%Z then 45 else 43 in
      match s with
      | [d] => d :: 101 :: sign :: decimal (Z.abs_N e)
      | d :: ds => d :: 46 :: ds ++ 101 :: sign :: decimal (Z.abs_N e)
      | [] => []
      end in
  exists np a d rest,
    body = d :: rest /\ is_digit d = true
    /\ num_run NMinus a0 body = Some (np, a) /\ num_complete np = true.
Proof.
  intros Hm s k n.
  destruct (decimal_leading (Z.abs_N m) ltac:(lia)) as (d & ds & Es & Dd & Dz & Dds).
  fold s in Es. cbv zeta.
  assert (Hk : k = Z.of_nat (S (List.length ds))) by (unfold k; now rewrite Es).
  clearbody s k. subst s.
  pose proof (num_step_leading a0 d Dd Dz) as S1.
  destruct ((k <=? n) && (n <=? 21))%Z eqn:A.
  { destruct (num_run_digits NInt (ds ++ repeat 48 (Z.to_nat (n - k)))
                ltac:(auto)
                ltac:(rewrite forallb_app, Dds, forallb_zeros; reflexivity)
                (add_digit a0 d false)) as (a' & R).
    exists NInt, a', d, (ds ++ repeat 48 (Z.to_nat (n - k))).
    repeat split; auto. cbn [app num_run]. now rewrite S1. }
  destruct ((0 <? n) && (n <=? 21))%Z eqn:B.
  { apply andb_true_iff in B as [B1 B2]. apply Z.ltb_lt in B1.
    apply andb_false_iff in A.
    assert (Hn : (n < k)%Z).
    { destruct A as [A|A]; [now apply Z.leb_gt in A|].
      apply Z.leb_gt in A. apply Z.leb_le in B2. lia. }
    destruct (Z.to_nat n) as [|N'] eqn:EN; [lia|].
    assert (HN : (N' < List.length ds)%nat) by lia.
    cbn [firstn skipn app].
    destruct (num_run_digits NInt (firstn N' ds) ltac:(auto)
                (forallb_firstn _ _ _ Dds) (add_digit a0 d false)) as (a1 & R1).
    destruct (num_run_fraction NInt a1 (skipn N' ds) ltac:(auto)) as (a2 & R2).
    { intros E. apply (f_equal (@List.length N)) in E.
      rewrite length_skipn in E. simpl in E. lia. }
    { now apply forallb_skipn. }
    exists NFrac, a2, d, (firstn N' ds ++ 46 :: skipn N' ds).
    repeat split; auto. cbn [num_run]. rewrite S1, num_run_app, R1. exact R2. }
  destruct ((-6 <? n) && (n <=? 0))%Z eqn:C.
  { destruct (num_run_fraction NZero (add_digit a0 48 false)
                (repeat 48 (Z.to_nat (- n)) ++ d :: ds) ltac:(auto)) as (a1 & R1).
    { intros E. apply app_eq_nil in E as [_ E]. discriminate. }
    { rewrite forallb_app, forallb_zeros. cbn [forallb]. now rewrite Dd, Dds. }
    exists NFrac, a1, 48, (46 :: repeat 48 (Z.to_nat (- n)) ++ d :: ds).
    repeat split; auto. }
  set (sign := if (n - 1 <? 0)%Z then 45 else 43).
  assert (Hs : sign = 43 \/ sign = 45) by (unfold sign; destruct (n - 1 <? 0)%Z; auto).
  pose proof (decimal_nonempty (Z.abs_N (n - 1))) as Ne.
  pose proof (decimal_digits (Z.abs_N (n - 1))) as De.
  destruct ds as [|d2 ds].
  - destruct (num_run_exponent NInt (add_digit a0 d false) sign _
                ltac:(auto) Hs Ne De) as (a1 & R1).
    exists NExp, a1, d, (101 :: sign :: decimal (Z.abs_N (n - 1))).
    repeat split; auto. cbn [num_run]. now rewrite S1.
  - destruct (num_run_fraction NInt (add_digit a0 d false) (d2 :: ds)
                ltac:(auto) ltac:(discriminate) Dds) as (a1 & R1).
    destruct (num_run_exponent NFrac a1 sign _ ltac:(auto) Hs Ne De) as (a2 & R2).
    exists NExp, a2, d, (46 :: (d2 :: ds) ++ 101 :: sign :: decimal (Z.abs_N (n - 1))).
    repeat split; auto.
    change (d :: 46 :: (d2 :: ds) ++ 101 :: sign :: decimal (Z.abs_N (n - 1)))
      with (d :: (46 :: d2 :: ds) ++ 101 :: sign :: decimal (Z.abs_N (n - 1))).
    cbn [num_run]. rewrite S1. fold (num_run NInt (add_digit a0 d false)).
    rewrite num_run_app, R1. exact R2.
Qed.

Lemma num_read_number x :
  exists np a,
    num_read (number_to_string x) = Some (np, a) /\ num_complete np = true.
Proof.
  unfold number_to_string. destruct (mantissa x =? 0)%Z eqn:Z0.
  - eexists _, _. split; reflexivity.
  - apply Z.eqb_neq in Z0.
    destruct (mantissa x <? 0)%Z.
    + destruct (num_run_body (mantissa x) (exponent x) (empty_acc true) Z0)
        as (np & a & d & rest & E & Dd & R & C).
      exists np, a. split; [|exact C]. unfold num_read.
      change (45 =? 45) with true. exact R.
    + destruct (num_run_body (mantissa x) (exponent x) (empty_acc false) Z0)
        as (np & a & d & rest & E & Dd & R & C).
      exists np, a. split; [|exact C]. cbv zeta in E, R. rewrite E in *.
      unfold num_read. rewrite (digit_not d 45 Dd) by lia. exact R.
Qed.

Lemma run_num_run t : forall np a p st np' a',
  num_run np a t = Some (np', a') ->
  run (PState (LNumber np a) p st) t = Some (PState (LNumber np' a') p st).
Proof.
  induction t as [|c t IH]; intros np a p st np' a'; cbn [num_run run].
  - now intros [= -> ->].
  - unfold step at 1. cbn [lex ph stack].
    destruct (num_step np a c) as [[p1 a1]|]; [apply IH | discriminate].
Qed.

Lemma step_idle_digit p st c :
  wants_value p = true -> is_digit c = true ->
  step (PState LIdle p st) c
  = match num_step NMinus (empty_acc false) c with
    | Some (np, a) => Some (PState (LNumber np a) p st)
    | None => None
    end.
Proof.
  intros W D. unfold step, step_idle. cbn [lex ph stack num_step].
  unfold is_ws.
  rewrite !(digit_not c _ D) by lia. cbn [orb].
  rewrite W. cbn [negb]. rewrite D.
  now destruct (c =? 48).
Qed.

Lemma run_num_read t np a p st :
  wants_value p = true ->
  num_read t = Some (np, a) -> num_complete np = true ->
  run (PState LIdle p st) t = Some (PState (LNumber np a) p st).
Proof.
  intros W R C. destruct t as [|c t]; [discriminate|]. unfold num_read in R.
  destruct (c =? 45) eqn:E.
  - apply N.eqb_eq in E. subst c. cbn [run].
    replace (step (PState LIdle p st) 45)
      with (Some (PState (LNumber NMinus (empty_acc true)) p st))
      by (now destruct p).
    now apply run_num_run.
  - cbn [num_run] in R. cbn [run].
    destruct (is_digit c) eqn:D.
    + rewrite (step_idle_digit p st c W D).
      destruct (num_step NMinus (empty_acc false) c) as [[p1 a1]|]; [|discriminate].
      now apply run_num_run.
    + cbn [num_step] in R. rewrite D in R.
      destruct (c =? 48) eqn:E0; [|discriminate].
      apply N.eqb_eq in E0. subst c. discriminate.
Qed.

Lemma reads_number t np a :
  num_read t = Some (np, a) -> num_complete np = true ->
  reads_as t (JNumber (number_of_acc a)).
Proof.
  intros R C p st Hp Hs. exists (PState (LNumber np a) p st).
  split; [now apply run_num_read|].
  unfold closed. cbn [lex stack]. now rewrite C.
Qed.

(** *** Arrays and objects *)

Lemma push_value_pushable v st :
  pushable st = true -> exists s, push_value v st = Some s.
Proof.
  destruct st as [|[elems|props [k|]] st']; try discriminate; intros _;
    eexists; reflexivity.
Qed.

(** A text that, read where a value may come, ends in pushing [v]. *)
Lemma reads_pushed t v :
  (forall p st, wants_value p = true -> pushable st = true ->
     run (PState LIdle p st) t = push_value v st) ->
  reads_as t v.
Proof.
  intros H p st Hp Hs. destruct (push_value_pushable v st Hs) as (s & E).
  exists s. split; [now rewrite H | now rewrite (push_value_closed _ _ _ E)].
Qed.

Lemma run_elements st parts :
  parts <> [] -> Forall (fun tv => reads_as (fst tv) (snd tv)) parts ->
  forall acc p, wants_value p = true ->
  exists s1,
    run (PState LIdle p (FArray acc :: st)) (join [44] (map fst parts)) = Some s1
    /\ closed s1
       = Some (PState LIdle PCommaOrEnd (FArray (rev (map snd parts) ++ acc) :: st)).
Proof.
  induction parts as [|[t v] parts IH]; [congruence|]. intros _ F acc p W.
  inversion F as [|? ? R F']; subst. cbn [fst snd] in R.
  destruct (R p (FArray acc :: st) W eq_refl) as (s1 & R1 & C1).
  cbn [push_value] in C1.
  destruct parts as [|tv2 parts].
  - exists s1. split; [exact R1 | exact C1].
  - change (join [44] (map fst ((t, v) :: tv2 :: parts)))
      with (t ++ [44] ++ join [44] (map fst (tv2 :: parts))).
    rewrite JsonFacts.run_app, R1. cbn [app run].
    rewrite (step_closed _ _ 44 C1) by auto. cbn [ph stack].
    change (step_idle PCommaOrEnd (FArray (v :: acc) :: st) 44)
      with (Some (PState LIdle PValue (FArray (v :: acc) :: st))).
    destruct (IH ltac:(discriminate) F' (v :: acc) PValue eq_refl) as (s2 & R2 & C2).
    exists s2. split; [exact R2|]. rewrite C2.
    cbn [map rev fst snd]. now rewrite <- !app_assoc.
Qed.

Lemma reads_array parts :
  Forall (fun tv => reads_as (fst tv) (snd tv)) parts ->
  reads_as (91 :: join [44] (map fst parts) ++ [93]) (JArray (map snd parts)).
Proof.
  intros F. apply reads_pushed. intros p st W Hs. cbn [run].
  replace (step (PState LIdle p st) 91)
    with (Some (PState LIdle PValueOrEnd (FArray [] :: st))) by (now destruct p).
  destruct parts as [|tv parts].
  { cbn [map join app run].
    change (step (PState LIdle PValueOrEnd (FArray [] :: st)) 93)
      with (push_value (JArray []) st).
    now destruct (push_value _ st). }
  destruct (run_elements st (tv :: parts) ltac:(discriminate) F [] PValueOrEnd eq_refl)
    as (s1 & R1 & C1).
  rewrite JsonFacts.run_app, R1. cbn [run].
  rewrite (step_closed _ _ 93 C1) by auto. cbn [ph stack].
  rewrite app_nil_r.
  change (step_idle PCommaOrEnd (FArray (rev (map snd (tv :: parts))) :: st) 93)
    with (push_value (JArray (rev (rev (map snd (tv :: parts))))) st).
  rewrite rev_involutive. now destruct (push_value _ st).
Qed.

Lemma run_member st k t props p rest :
  wants_key p = true ->
  run (PState LIdle p (FObject props None :: st)) ((quote k ++ 58 :: t) ++ rest)
  = match run (PState LIdle PValue (FObject props (Some k) :: st)) t with
    | Some s => run s rest
    | None => None
    end.
Proof.
  intros W. rewrite <- app_assoc.
  rewrite run_quote by (rewrite W; apply orb_true_r).
  unfold end_string. rewrite W. cbn [app run].
  change (step (PState LIdle PColon (FObject props (Some k) :: st)) 58)
    with (Some (PState LIdle PValue (FObject props (Some k) :: st))).
  apply JsonFacts.run_app.
Qed.

Lemma run_members st ms :
  ms <> [] -> Forall (fun m => reads_as (fst (snd m)) (snd (snd m))) ms ->
  forall props p, wants_key p = true ->
  exists s1,
    run (PState LIdle p (FObject props None :: st)) (join [44] (map member_text ms))
    = Some s1
    /\ closed s1
       = Some (PState LIdle PCommaOrEnd
                 (FObject (fold_left add_member ms props) None :: st)).
Proof.
  induction ms as [|[k [t v]] ms IH]; [congruence|]. intros _ F props p W.
  inversion F as [|? ? R F']; subst. cbn [fst snd] in R.
  destruct (R PValue (FObject props (Some k) :: st) eq_refl eq_refl) as (s1 & R1 & C1).
  cbn [push_value] in C1.
  destruct ms as [|m2 ms].
  - exists s1. split; [|exact C1].
    change (join [44] (map member_text [(k, (t, v))])) with (quote k ++ 58 :: t).
    rewrite <- (app_nil_r (quote k ++ 58 :: t)).
    now rewrite (run_member st k t props p [] W), R1.
  - change (join [44] (map member_text ((k, (t, v)) :: m2 :: ms)))
      with ((quote k ++ 58 :: t) ++ [44] ++ join [44] (map member_text (m2 :: ms))).
    rewrite (run_member st k t props p _ W), R1. cbn [app run].
    rewrite (step_closed _ _ 44 C1) by auto. cbn [ph stack].
    change (step_idle PCommaOrEnd (FObject (obj_define k v props) None :: st) 44)
      with (Some (PState LIdle PKey (FObject (obj_define k v props) None :: st))).
    destruct (IH ltac:(discriminate) F' (obj_define k v props) PKey eq_refl)
      as (s2 & R2 & C2).
    exists s2. split; [exact R2 | exact C2].
Qed.

Lemma reads_object ms :
  Forall (fun m => reads_as (fst (snd m)) (snd (snd m))) ms ->
  reads_as (123 :: join [44] (map member_text ms) ++ [125])
           (JObject (fold_left add_member ms [])).
Proof.
  intros F. apply reads_pushed. intros p st W Hs. cbn [run].
  replace (step (PState LIdle p st) 123)
    with (Some (PState LIdle PKeyOrEnd (FObject [] None :: st))) by (now destruct p).
  destruct ms as [|m ms].
  { cbn [map join app run fold_left].
    change (step (PState LIdle PKeyOrEnd (FObject [] None :: st)) 125)
      with (push_value (JObject []) st).
    now destruct (push_value _ st). }
  destruct (run_members st (m :: ms) ltac:(discriminate) F [] PKeyOrEnd eq_refl)
    as (s1 & R1 & C1).
  rewrite JsonFacts.run_app, R1. cbn [run].
  rewrite (step_closed _ _ 125 C1) by auto. cbn [ph stack].
  change (step_idle PCommaOrEnd (FObject (fold_left add_member (m :: ms) []) None :: st) 125)
    with (push_value (JObject (fold_left add_member (m :: ms) [])) st).
  now destruct (push_value _ st).
Qed.

(** *** Every value *)

Lemma value_nested_ind (P : value -> Prop) :
  P JUndefined -> P JNull -> (forall b, P (JBool b)) ->
  (forall n, P (JNumber n)) -> (forall s, P (JString s)) ->
  (forall elems, Forall P elems -> P (JArray elems)) ->
  (forall props, Forall (fun kv => P (snd kv)) props -> P (JObject props)) ->
  forall v, P v.
Proof.
  intros HU HN HB HNum HS HA HO. fix IH 1. intros [| |b|n|s|elems|props].
  - exact HU.
  - exact HN.
  - apply HB.
  - apply HNum.
  - apply HS.
  - apply HA. induction elems as [|x elems IHe]; constructor; [apply IH | exact IHe].
  - apply HO. induction props as [|kv props IHp]; constructor; [apply IH | exact IHp].
Qed.

Lemma choose_parts {A} (g : A -> jsstring) l :
  Forall (fun x => exists v, reads_as (g x) v) l ->
  exists parts,
    map fst parts = map g l
    /\ Forall (fun tv => reads_as (fst tv) (snd tv)) parts.
Proof.
  induction 1 as [|x l (v & R) _ (parts & E & F)].
  - now exists [].
  - exists ((g x, v) :: parts). split; [cbn [map fst]; now rewrite E|].
    now constructor.
Qed.

Lemma choose_members (l : list (jsstring * option jsstring)) :
  Forall (fun kt => forall t, snd kt = Some t -> exists v, reads_as t v) l ->
  exists ms,
    map member_text ms
    = flat_map (fun kt => match snd kt with
                          | Some t => [quote (fst kt) ++ 58 :: t]
                          | None => []
                          end) l
    /\ Forall (fun m => reads_as (fst (snd m)) (snd (snd m))) ms.
Proof.
  induction 1 as [|[k [t|]] l H _ (ms & E & F)].
  - now exists [].
  - destruct (H t eq_refl) as (v & R).
    exists ((k, (t, v)) :: ms). split; [cbn [map flat_map fst snd app]; now rewrite E|].
    now constructor.
  - exists ms. split; [exact E | exact F].
Qed.

Lemma In_insert_index {A} i (kv : jsstring * A) sorted x :
  In x (insert_index i kv sorted) -> x = (i, kv) \/ In x sorted.
Proof.
  induction sorted as [|[j kv'] rest IH]; cbn [insert_index].
  - intros [<-|[]]. now left.
  - destruct (i <? j).
    + intros [<-|H]; [now left | now right].
    + intros [<-|H]; [right; now left|].
      destruct (IH H) as [->|H']; [now left | right; now right].
Qed.

Lemma In_index_props {A} (props : list (jsstring * A)) i kv :
  In (i, kv) (index_props props) -> In kv props.
Proof.
  induction props as [|kv' rest IH]; cbn [index_props]; [intros []|].
  destruct (array_index (fst kv')) as [j|].
  - intros H. apply In_insert_index in H as [[= -> ->]|H]; [now left | right; auto].
  - intros H. right. auto.
Qed.

Lemma In_own_props {A} (props : list (jsstring * A)) kv :
  In kv (own_props props) -> In kv props.
Proof.
  unfold own_props. rewrite in_app_iff. intros [H|H].
  - apply in_map_iff in H as ([i kv'] & <- & H). now apply In_index_props in H.
  - now apply filter_In in H as [H _].
Qed.

(** Whatever [JSON.stringify] writes, [JSON.parse] reads as one value. *)
Lemma stringify_reads v :
  forall t, JSON_stringify v = Some t -> exists v', reads_as t v'.
Proof.
  induction v as [| |b|n|s|elems IH|props IH] using value_nested_ind; intros t.
  - discriminate.
  - intros [= <-]. exists JNull. apply reads_null.
  - destruct b; intros [= <-];
      [exists (JBool true); apply reads_true | exists (JBool false); apply reads_false].
  - intros [= <-]. destruct (num_read_number n) as (np & a & R & C).
    exists (JNumber (number_of_acc a)). now apply (reads_number _ np).
  - intros [= <-]. exists (JString s). apply reads_string.
  - cbn [JSON_stringify]. intros [= <-].
    destruct (choose_parts
                (fun x => match JSON_stringify x with
                          | Some t => t
                          | None => js "null"
                          end) elems) as (parts & E & F).
    { eapply Forall_impl; [|exact IH]. intros x Hx. cbv beta.
      destruct (JSON_stringify x) as [t|] eqn:Ex; [exact (Hx t Ex)|].
      exists JNull. apply reads_null. }
    rewrite <- E. exists (JArray (map snd parts)). now apply reads_array.
  - intros Ht.
    destruct (choose_members
                (own_props (map (fun kv => (fst kv, JSON_stringify (snd kv))) props)))
      as (ms & E & F).
    { apply Forall_forall. intros kt Hin t' Ht'.
      apply In_own_props in Hin. apply in_map_iff in Hin as (kv & <- & Hin).
      rewrite Forall_forall in IH. now apply (IH kv Hin). }
    assert (Et : t = 123 :: join [44] (map member_text ms) ++ [125]).
    { rewrite E. cbn [JSON_stringify] in Ht. now injection Ht as <-. }
    rewrite Et. exists (JObject (fold_left add_member ms [])). now apply reads_object.
Qed.

Lemma stringify_parses v t :
  JSON_stringify v = Some t -> exists v', parse t = Some v'.
Proof.
  intros H. destruct (stringify_reads v t H) as (v' & R).
  exists v'. now apply reads_parse.
Qed.


(** *** Values of text read back as they were *)

Lemma distinct_NoDup keys : distinct keys = true -> NoDup keys.
Proof.
  induction keys as [|k rest IH]; cbn [distinct]; intros H; constructor.
  - apply andb_true_iff in H as [H _]. apply negb_true_iff in H.
    intros Hin.
    assert (H' : existsb (str_eqb k) rest = true).
    { apply existsb_exists. exists k. split; [exact Hin | apply str_eqb_refl]. }
    rewrite H in H'. discriminate.
  - apply IH. now apply andb_true_iff in H as [_ H].
Qed.

Lemma own_props_ordinary {A} (l : list (jsstring * A)) :
  forallb (fun kv => ordinary_key (fst kv)) l = true -> own_props l = l.
Proof.
  unfold own_props, ordinary_key. intros H.
  assert (I : index_props l = []).
  { induction l as [|kv l IH]; [reflexivity|]. cbn [forallb] in H.
    apply andb_true_iff in H as [Hk Hl]. cbn [index_props].
    destruct (array_index (fst kv)); [discriminate | auto]. }
  rewrite I. cbn [map app].
  induction l as [|kv l IH]; [reflexivity|]. cbn [forallb] in H.
  apply andb_true_iff in H as [Hk Hl]. cbn [filter index_props] in *.
  destruct (array_index (fst kv)); [discriminate|].
  f_equal. apply IH; auto.
Qed.

Lemma obj_define_fresh {A} k (v : A) o :
  ~ In k (map fst o) -> obj_define k v o = o ++ [(k, v)].
Proof.
  induction o as [|[k2 v2] rest IH]; cbn [obj_define map fst app In]; intros H.
  - reflexivity.
  - destruct (str_eqb k2 k) eqn:E.
    + apply str_eqb_eq in E. subst. exfalso. apply H. now left.
    + f_equal. apply IH. intros Hin. apply H. now right.
Qed.

Lemma fold_add_member ms : forall acc,
  NoDup (map fst acc ++ map fst ms) ->
  fold_left add_member ms acc = acc ++ map (fun m => (fst m, snd (snd m))) ms.
Proof.
  induction ms as [|[k [t v]] ms IH]; intros acc H; cbn [fold_left map].
  - now rewrite app_nil_r.
  - unfold add_member at 2. cbn [fst snd].
    rewrite obj_define_fresh.
    + rewrite IH.
      * now rewrite <- app_assoc.
      * rewrite map_app, <- app_assoc. exact H.
    + cbn [map fst] in H. apply NoDup_remove_2 in H.
      intros Hin. apply H. apply in_or_app. now left.
Qed.

Lemma texty_serializable v : texty v = true -> JSON_stringify v = Some (text_of v).
Proof.
  unfold text_of. destruct v as [| |[|]| | | |]; try discriminate; reflexivity.
Qed.

Lemma flat_map_members (props : list (jsstring * value)) :
  (forall kv, In kv props -> texty (snd kv) = true) ->
  flat_map (fun kt : jsstring * option jsstring =>
              match snd kt with
              | Some t => [quote (fst kt) ++ 58 :: t]
              | None => []
              end)
           (map (fun kv => (fst kv, JSON_stringify (snd kv))) props)
  = map member_text (map (fun kv => (fst kv, (text_of (snd kv), snd kv))) props).
Proof.
  induction props as [|kv props IH]; intros T; [reflexivity|].
  cbn [map flat_map fst snd].
  rewrite (texty_serializable (snd kv)) by (apply T; now left).
  cbn [app]. f_equal. apply IH. intros x Hx. apply T. now right.
Qed.

Lemma texty_reads v :
  texty v = true -> forall t, JSON_stringify v = Some t -> reads_as t v.
Proof.
  induction v as [| |b|n|s|elems IH|props IH] using value_nested_ind;
    intros T t Ht; try discriminate.
  - injection Ht as <-. apply reads_null.
  - destruct b; injection Ht as <-; [apply reads_true | apply reads_false].
  - injection Ht as <-. apply reads_string.
  - cbn [texty] in T. rewrite forallb_forall in T. rewrite Forall_forall in IH.
    assert (F : Forall (fun tv => reads_as (fst tv) (snd tv))
                  (map (fun x => (text_of x, x)) elems)).
    { apply Forall_forall. intros tv Hin.
      apply in_map_iff in Hin as (x & <- & Hin). cbn [fst snd].
      apply (IH x Hin (T x Hin)). now apply texty_serializable, T. }
    apply reads_array in F. rewrite !map_map in F. cbn [fst snd] in F.
    rewrite map_id in F.
    assert (Et : t = 91 :: join [44] (map text_of elems) ++ [93]).
    { cbn [JSON_stringify] in Ht. injection Ht as <-. do 3 f_equal.
      apply map_ext_in. intros x Hin. unfold text_of.
      rewrite (texty_serializable x (T x Hin)). reflexivity. }
    now rewrite Et.
  - cbn [texty] in T. apply andb_true_iff in T as [T D].
    rewrite forallb_forall in T. rewrite Forall_forall in IH.
    set (ms := map (fun kv => (fst kv, (text_of (snd kv), snd kv))) props).
    assert (F : Forall (fun m => reads_as (fst (snd m)) (snd (snd m))) ms).
    { apply Forall_forall. intros m Hin.
      apply in_map_iff in Hin as (kv & <- & Hin). cbn [fst snd].
      pose proof (T kv Hin) as Tk. apply andb_true_iff in Tk as [_ Tk].
      apply (IH kv Hin Tk). now apply texty_serializable. }
    apply reads_object in F.
    assert (Ev : fold_left add_member ms [] = props).
    { rewrite fold_add_member.
      - unfold ms. rewrite map_map. cbn [app fst snd].
        rewrite <- (map_id props) at 2. apply map_ext. now intros [k v].
      - cbn [map app]. unfold ms. rewrite map_map. cbn [fst].
        now apply distinct_NoDup. }
    rewrite Ev in F.
    assert (Et : t = 123 :: join [44] (map member_text ms) ++ [125]).
    { cbn [JSON_stringify] in Ht. injection Ht as <-. do 3 f_equal.
      rewrite own_props_ordinary.
      - apply flat_map_members. intros kv Hin.
        pose proof (T kv Hin) as Tk. now apply andb_true_iff in Tk as [_ Tk].
      - rewrite forallb_forall. intros kt Hin.
        apply in_map_iff in Hin as (kv & <- & Hin). cbn [fst].
        pose proof (T kv Hin) as Tk. now apply andb_true_iff in Tk as [Tk _]. }
    now rewrite Et.
Qed.

(** [JSON.parse(JSON.stringify(v))] is [v] for a value of text. *)
Lemma texty_round_trip v :
  texty v = true -> parse (text_of v) = Some v.
Proof.
  intros T. apply reads_parse. apply (texty_reads v T). now apply texty_serializable.
Qed.

End PrintFacts.

(** ** What goes upstream, and what comes back, is JSON *)

Lemma object_parses (props : list (jsstring * value)) :
  exists text v, JSON_stringify (JObject props) = Some text /\ Json.parse text = Some v.
Proof.
  destruct (JSON_stringify (JObject props)) as [text|] eqn:E; [|discriminate E].
  destruct (PrintFacts.stringify_parses _ _ E) as (v & P). now exists text, v.
Qed.

Lemma value_parses (v : value) :
  is_json v = true ->
  exists text v', JSON_stringify v = Some text /\ Json.parse text = Some v'.
Proof.
  intros J. destruct (is_json_serializable v J) as (text & E).
  destruct (PrintFacts.stringify_parses _ _ E) as (v' & P). now exists text, v'.
Qed.

Lemma Normal_inj {A} (a b : A) : Normal a = Normal b -> a = b.
Proof. now intros [= ->]. Qed.

(** X17.  Whatever a handler sends upstream is valid JSON, as the
    comment in flow-proxy.js promises: the body of every request of
    api.js, of flow-proxy.js and of the login proxy is a text that
    [JSON.parse] accepts, whatever the event's body was. *)
Theorem forwarded_bodies_are_json (w : World) (event : Event.t) (req : Request.t) :
  In (EFetch req) (fst (Api.handler w event))
  \/ In (EFetch req) (fst (FlowProxy.handler w event))
  \/ In (EFetch req) (fst (LoginProxy.handler w event)) ->
  exists text v, Request.body req = Some text /\ Json.parse text = Some v.
Proof.
  intros [H | [H | H]].
  - destruct (api_forward_attempt w event req H) as (flowPath & -> & _).
    unfold Api.flow_request. cbn [Request.body].
    apply value_parses, api_outcome_json.
  - destruct (flow_forward_attempt w event req H) as (-> & _).
    unfold FlowProxy.forward_request, FlowProxy.forwardBody. cbn [Request.body].
    apply object_parses.
  - destruct (login_forward_attempt w event req H) as (_ & v & P & -> & _).
    unfold LoginProxy.login_request. cbn [Request.body].
    apply value_parses.
    exact (JsonFacts.parse_is_json (opt_or (Event.body event) (js "{}")) v P).
Qed.

(** The login of the scenario through api.js. *)
Lemma forwarded_bodies_witness :
  exists text v,
    Request.body Sample.login_request = Some text /\ Json.parse text = Some v.
Proof.
  apply (forwarded_bodies_are_json (Sample.world Sample.silent)
           Sample.login Sample.login_request).
  left. right. left. reflexivity.
Defined.

(** X18.  Apart from the empty answer to a preflight, every reply of
    flow-proxy.js has a body that [JSON.parse] accepts, whatever the
    upstream sent; so has every reply api.js makes up itself: health,
    404, 405 and the 502 of a failed forward. *)
Theorem own_replies_are_json (w : World) (event : Event.t) (reply : Reply.t) :
  opt_or (Event.httpMethod event) (js "GET") <> js "OPTIONS" ->
  (snd (FlowProxy.handler w event) = Normal reply ->
   exists text v, Reply.body reply = Some text /\ Json.parse text = Some v)
  /\ (api_forwards event = None -> snd (Api.handler w event) = Normal reply ->
      exists text v, Reply.body reply = Some text /\ Json.parse text = Some v)
  /\ (forall upstreamUrl o e,
        exists text v,
          Reply.body (Api.gateway_reply w upstreamUrl o e) = Some text
          /\ Json.parse text = Some v).
Proof.
  intros M. apply str_eqb_neq in M. repeat apply conj.
  - destruct (is_post event) eqn:P.
    + rewrite (flow_handler_post w event P). cbn [snd]. intros [= <-].
      unfold flow_settles.
      assert (Fl : forall e, exists text v,
                 Reply.body (FlowProxy.failure_reply w e) = Some text
                 /\ Json.parse text = Some v)
        by (intros e; apply object_parses).
      destruct (network w _) as [t r | t e |]; cbn [snd]; try apply Fl.
      destruct (FlowProxy.timeoutMs <=? t)%Z; cbn [snd]; try apply Fl.
      destruct (Response.read r) as [t' s | t' e |]; cbn [snd]; try apply Fl.
      destruct (FlowProxy.timeoutMs <=? t')%Z; cbn [snd]; try apply Fl.
      unfold FlowProxy.relay, FlowProxy.out_value, safe_parse. cbn [Reply.body].
      destruct (Json.parse s) as [v|] eqn:E; [|apply object_parses].
      apply value_parses. now apply (JsonFacts.parse_is_json s v).
    + unfold is_post in P. unfold FlowProxy.handler. rewrite M, P.
      destruct (str_eqb _ (js "GET")); cbn [negb snd ret];
        intros H; apply Normal_inj in H; subst reply; apply object_parses.
  - unfold api_forwards, is_post, Api.handler. rewrite M.
    destruct (_ && _).
    { intros _ H. apply Normal_inj in H. subst reply. apply object_parses. }
    destruct (str_eqb _ (js "POST")); cbn [negb andb].
    + destruct (str_eqb _ (js "/auth/login")); [discriminate|].
      destruct (str_eqb _ (js "/auth/signup")); [discriminate|].
      intros _ H. apply Normal_inj in H. subst reply. apply object_parses.
    + intros _ H. apply Normal_inj in H. subst reply. apply object_parses.
  - intros upstreamUrl o e. apply object_parses.
Qed.

(** The PUT of the scenario: the 405 of api.js. *)
Lemma own_replies_witness :
  exists text v,
    Reply.body Sample.put_reply = Some text /\ Json.parse text = Some v.
Proof.
  apply (proj1 (proj2 (own_replies_are_json (Sample.world Sample.silent)
                         Sample.put Sample.put_reply
                         ltac:(discriminate)))); reflexivity.
Defined.

(** ** Payloads of text arrive as they were *)

Lemma NoDup_distinct keys : NoDup keys -> distinct keys = true.
Proof.
  induction 1 as [|k rest Hk _ IH]; [reflexivity|]. cbn [distinct].
  rewrite IH, andb_true_r. apply negb_true_iff.
  destruct (existsb (str_eqb k) rest) eqn:E; [|reflexivity].
  apply existsb_exists in E as (x & Hin & Hx). apply str_eqb_eq in Hx. now subst x.
Qed.

Lemma form_object_NoDup (raw : jsstring) : NoDup (map fst (form_object raw)).
Proof.
  unfold form_object.
  generalize (URLSearchParams raw) as entries.
  assert (G : forall entries o, NoDup (map fst o) ->
                NoDup (map fst (fold_left
                  (fun o kv => obj_assign (fst kv) (JString (snd kv)) o) entries o))).
  { induction entries as [|[k v] rest IH]; cbn [fold_left]; intros o H; [exact H|].
    apply IH. unfold obj_assign. cbn [fst snd].
    destruct (str_eqb k (js "__proto__")); [exact H | now apply obj_define_NoDup]. }
  intros entries. apply G. constructor.
Qed.

(** The object of a form is a value of text unless a field name is an
    array index. *)
Lemma form_object_texty (raw : jsstring) :
  forallb (fun kv => ordinary_key (fst kv)) (form_object raw) = true ->
  texty (JObject (form_object raw)) = true.
Proof.
  intros K. cbn [texty].
  rewrite (NoDup_distinct _ (form_object_NoDup raw)), andb_true_r.
  pose proof (form_object_strings raw) as S.
  rewrite forallb_forall in *. rewrite Forall_forall in S.
  intros kv Hin. rewrite (K kv Hin). destruct (S kv Hin) as (s & ->). reflexivity.
Qed.

Section TextFacts.
Variable w : World.

Lemma form_or_raw_texty raw fb :
  texty (payload fb) = true ->
  parsedAs fb <> js "form-urlencoded" ->
  let r := form_or_raw raw fb in
  (parsedAs r = js "form-urlencoded" ->
   forall props, payload r = JObject props ->
     forallb (fun kv => ordinary_key (fst kv)) props = true ->
     texty (payload r) = true)
  /\ (parsedAs r = parsedAs fb -> texty (payload r) = true).
Proof.
  intros T N. unfold form_or_raw.
  destruct (has_keys _); cbn [parsedAs payload]; split.
  - intros _ props E K. apply form_object_texty. injection E as <-. exact K.
  - intros E. now contradiction N.
  - intros E. now contradiction N.
  - intros _. exact T.
Qed.

Lemma envelope_texty contentType o :
  (forall e, parseError o = Some e -> truthy e = true) ->
  texty (payload o) = true ->
  texty (FlowProxy.forwardBody w contentType o) = true.
Proof.
  intros E T. rewrite (forwardBody_fields w contentType o E).
  destruct (parseError o); destruct (truthy contentType);
    cbn [texty forallb map fst snd app]; rewrite T; reflexivity.
Qed.

End TextFacts.

(** X19.  A payload of text arrives as it was.  When the normalized
    payload holds strings, Booleans and null alone, under keys that are
    distinct and no array indices, [JSON.parse] of what api.js sends gives
    the payload back, and of what flow-proxy.js sends the envelope with
    the payload in it.  Every raw fallback and every empty body is such a
    payload, and so is a form none of whose field names is an array
    index. *)
Theorem text_payloads_arrive_verbatim (w : World) (event : Event.t)
    (o : ParseOutcome) (req : Request.t) :
  (snd (Api.parsePayload w event) = Normal o ->
   In (EFetch req) (fst (Api.handler w event)) ->
   texty (payload o) = true ->
   exists text,
     Request.body req = Some text /\ Json.parse text = Some (payload o))
  /\ (snd (FlowProxy.normalize w (getRawBody w event)) = Normal o ->
      In (EFetch req) (fst (FlowProxy.handler w event)) ->
      texty (payload o) = true ->
      exists text,
        Request.body req = Some text
        /\ Json.parse text
           = Some (FlowProxy.forwardBody w (FlowProxy.declaredContentType w event) o))
  /\ (snd (Api.parsePayload w event) = Normal o
      \/ snd (FlowProxy.normalize w (getRawBody w event)) = Normal o ->
      (parsedAs o = js "raw" -> texty (payload o) = true)
      /\ (parsedAs o = js "empty" -> texty (payload o) = true)
      /\ (parsedAs o = js "form-urlencoded" ->
          forall props, payload o = JObject props ->
            forallb (fun kv => ordinary_key (fst kv)) props = true ->
            texty (payload o) = true)).
Proof.
  repeat apply conj.
  - intros Ho Hin T.
    destruct (api_forward_attempt w event req Hin) as (flowPath & -> & _).
    rewrite parsePayload_run in Ho. cbn [snd] in Ho. injection Ho as <-.
    unfold Api.flow_request. cbn [Request.body].
    rewrite (PrintFacts.texty_serializable _ T). eexists. split; [reflexivity|].
    now apply PrintFacts.texty_round_trip.
  - intros Ho Hin T.
    destruct (flow_forward_attempt w event req Hin) as (-> & _).
    rewrite normalize_run in Ho. cbn [snd] in Ho. injection Ho as <-.
    unfold FlowProxy.forward_request. cbn [Request.body].
    pose proof (envelope_texty w (FlowProxy.declaredContentType w event) _
                  (flow_outcome_error w (getRawBody w event)) T) as TE.
    rewrite (PrintFacts.texty_serializable _ TE). eexists. split; [reflexivity|].
    now apply PrintFacts.texty_round_trip.
  - intros [H | H].
    + rewrite parsePayload_run in H. cbn [snd] in H. injection H as <-.
      unfold api_outcome. destruct (negb _); [cbn; tag_cases|].
      destruct (Json.parse (Api.sanitizeRaw (getRawBody w event))) as [v1|].
      * destruct v1 as [| | b | n | inner | elems | props0]; try (cbn; tag_cases).
        destruct (Json.parse inner); cbn; tag_cases.
      * destruct (form_or_raw_texty (Api.sanitizeRaw (getRawBody w event))
                    (Api.raw_fallback (getRawBody w event)
                       (syntax_error_text w (Api.sanitizeRaw (getRawBody w event))))
                    eq_refl ltac:(discriminate)) as [F1 F2].
        repeat apply conj; [| |exact F1].
        -- intros R. apply F2. exact R.
        -- unfold form_or_raw. destruct (has_keys _); tag_goal.
    + rewrite normalize_run in H. cbn [snd] in H. injection H as <-.
      unfold flow_outcome. destruct (truthy _); [|cbn; tag_cases].
      destruct (Json.parse (getRawBody w event)); [cbn; tag_cases|].
      destruct (form_or_raw_texty (getRawBody w event)
                  (MkOutcome (JObject (obj_literal [(js "rawBody", JString (getRawBody w event))]))
                     (js "raw") (Some (syntax_error_text w (getRawBody w event))))
                  eq_refl ltac:(discriminate)) as [F1 F2].
      repeat apply conj; [| |exact F1].
      * intros R. apply F2. exact R.
      * unfold form_or_raw. destruct (has_keys _); tag_goal.
Qed.

(** A body that is neither JSON nor a form, through api.js: the upstream
    reads the body back from [rawBody], spaces included. *)
Lemma text_payloads_witness :
  exists text,
    Request.body
      (Api.flow_request (Sample.world Sample.silent) Sample.login_url
         (api_outcome (Sample.world Sample.silent) (js " & ")))
    = Some text
    /\ Json.parse text = Some (JObject [(js "rawBody", JString (js " & "))]).
Proof.
  apply (proj1 (text_payloads_arrive_verbatim (Sample.world Sample.silent)
                  (Sample.post (js "/auth/login") (js "text/plain") (js " & "))
                  (api_outcome (Sample.world Sample.silent) (js " & "))
                  (Api.flow_request (Sample.world Sample.silent) Sample.login_url
                     (api_outcome (Sample.world Sample.silent) (js " & "))))).
  - reflexivity.
  - right. right. left. reflexivity.
  - reflexivity.
Defined.

(** ** Where the two normalizers agree *)

(** X20.  The body normalizations of api.js and flow-proxy.js differ by
    the sanitization and the second parse alone: on a body that has no
    white space around it, is not wrapped in single quotes and is no JSON
    string, they make the same calls and give the same outcome. *)
Theorem normalizers_agree (w : World) (event : Event.t) :
  trim (getRawBody w event) = getRawBody w event ->
  quoted (getRawBody w event) = false ->
  (forall inner, Json.parse (getRawBody w event) <> Some (JString inner)) ->
  Api.parsePayload w event = FlowProxy.normalize w (getRawBody w event).
Proof.
  intros T Q S. rewrite parsePayload_run, normalize_run.
  assert (E : Api.sanitizeRaw (getRawBody w event) = getRawBody w event)
    by (rewrite sanitizeRaw_eq, T, Q; reflexivity).
  unfold api_calls, api_outcome, flow_calls, flow_outcome. rewrite E.
  destruct (truthy (getRawBody w event)); cbn [negb]; [|reflexivity].
  destruct (Json.parse (getRawBody w event)) as [v|] eqn:P; [|reflexivity].
  destruct v as [| | b | n | inner | elems | props]; try reflexivity.
  now contradiction (S inner).
Qed.

(** The JSON login of the scenario. *)
Lemma normalizers_agree_witness :
  Api.parsePayload (Sample.world Sample.silent) Sample.login
  = FlowProxy.normalize (Sample.world Sample.silent)
      (getRawBody (Sample.world Sample.silent) Sample.login).
Proof.
  apply (normalizers_agree (Sample.world Sample.silent) Sample.login).
  - reflexivity.
  - reflexivity.
  - intros inner H. vm_compute in H. discriminate H.
Defined.

(** ** Numbers through JSON.stringify and JSON.parse

    The digits [number_to_string] writes are the digits the automaton
    reads, in each of the four forms a number is printed in. *)

Module NumberFacts.
Import Json.

(** *** The digits read are the digits written *)







(** *** The accumulator after a run of digits *)









(** *** The number an accumulator stands for *)




(** *** What [number_to_string] writes is read back exactly *)





(** *** Plain values read back as they were *)





(** What [JSON.parse] returns holds numbers in lowest terms only. *)
Lemma plain_is_json v : plain v = true -> is_json v = true.
Proof.
  induction v as [| |b|n|s|elems IH|props IH] using PrintFacts.value_nested_ind;
    intros T; try reflexivity; try discriminate.
  - cbn [plain is_json] in *. rewrite forallb_forall in *. rewrite Forall_forall in IH.
    intros x Hx. apply IH; auto.
  - cbn [plain is_json] in *. apply andb_true_iff in T as [T _].
    rewrite forallb_forall in *. rewrite Forall_forall in IH.
    intros kv Hkv. apply IH; auto.
    pose proof (T kv Hkv) as Tk. now apply andb_true_iff in Tk as [_ Tk].
Qed.

End NumberFacts.

(** ** A well-formed JSON body *)



(** ** The declared content type *)

Lemma find_only {A} (f : A -> bool) (l : list A) (k : A) :
  In k l -> f k = true -> (forall k', In k' l -> f k' = true -> k' = k) ->
  find f l = Some k.
Proof.
  induction l as [|x l IH]; cbn [In find]; intros Hin Hk U; [contradiction|].
  destruct (f x) eqn:Fx.
  - f_equal. apply U; auto.
  - destruct Hin as [->|Hin]; [congruence|]. apply IH; auto.
Qed.

Lemma find_none {A} (f : A -> bool) (l : list A) :
  (forall k', In k' l -> f k' = false) -> find f l = None.
Proof.
  induction l as [|x l IH]; cbn [find]; intros U; [reflexivity|].
  rewrite (U x) by now left. apply IH. intros k' H. apply U. now right.
Qed.

Lemma find_first {A} (f : A -> bool) (before after : list A) (k : A) :
  (forall k', In k' before -> f k' = false) -> f k = true ->
  find f (before ++ k :: after) = Some k.
Proof.
  induction before as [|x l IH]; cbn [app find]; intros U Hk; [now rewrite Hk|].
  rewrite (U x) by now left. apply IH; auto. intros k' H. apply U. now right.
Qed.

Lemma insert_index_In {A} i (kv : jsstring * A) sorted x :
  x = (i, kv) \/ In x sorted -> In x (insert_index i kv sorted).
Proof.
  induction sorted as [|[j kv'] rest IH]; cbn [insert_index].
  - intros [->|[]]. now left.
  - destruct (i <? j).
    + intros [->|H]; [now left | now right].
    + intros [->|[<-|H]]; [right; apply IH; now left | now left | right; apply IH; now right].
Qed.

Lemma own_props_In {A} (props : list (jsstring * A)) kv :
  In kv props -> In kv (own_props props).
Proof.
  unfold own_props. rewrite in_app_iff. intros Hin.
  destruct (array_index (fst kv)) as [i|] eqn:E.
  - left. apply in_map_iff. exists (i, kv). split; [reflexivity|].
    induction props as [|kv' rest IH]; [contradiction|]. cbn [index_props].
    destruct Hin as [->|Hin].
    + rewrite E. apply insert_index_In. now left.
    + destruct (array_index (fst kv')); [apply insert_index_In; right|]; auto.
  - right. apply filter_In. split; [exact Hin | now rewrite E].
Qed.

Lemma Object_keys_In {A} (props : list (jsstring * A)) k :
  In k (Object_keys props) <-> In k (map fst props).
Proof.
  unfold Object_keys. rewrite !in_map_iff. split; intros (kv & E & Hin); exists kv;
    (split; [exact E|]); [now apply PrintFacts.In_own_props | now apply own_props_In].
Qed.

Lemma obj_get_In {A} (props : list (jsstring * A)) k v :
  NoDup (map fst props) -> In (k, v) props -> obj_get k props = Some v.
Proof.
  induction props as [|[k' v'] rest IH]; cbn [map fst In obj_get]; intros N Hin;
    [contradiction|].
  inversion N as [|x l Hx Hl]; subst.
  destruct Hin as [[= -> ->]|Hin]; [now rewrite str_eqb_refl|].
  destruct (str_eqb k' k) eqn:E; [|now apply IH].
  apply str_eqb_eq in E. subst k'. exfalso. apply Hx.
  apply in_map_iff. now exists (k, v).
Qed.

(** X11.  The header lookup of flow-proxy.js.  Among the headers of the
    event, however many, [getHeader] takes the first key in the order of
    enumeration whose lower case is that of the name asked for, and
    returns its value; so a header present under one spelling is found
    wherever it stands, and without such a key, or without headers, the
    result is the empty text.  The declared content type is that value up
    to its first semicolon, trimmed and in lower case. *)
Theorem declared_content_type (w : World) (event : Event.t) (name : jsstring) :
  (Event.headers event = None ->
   FlowProxy.getHeader w event name = []
   /\ FlowProxy.declaredContentType w event = toLowerCase w [])
  /\ (forall h, Event.headers event = Some h ->
      (forall before k after,
          Object_keys h = before ++ k :: after ->
          (forall k', In k' before -> toLowerCase w k' <> toLowerCase w name) ->
          toLowerCase w k = toLowerCase w name -> truthy k = true ->
          FlowProxy.getHeader w event name
          = match obj_get k h with Some v => v | None => [] end)
      /\ (forall k v,
            NoDup (map fst h) -> In (k, v) h -> truthy k = true ->
            toLowerCase w k = toLowerCase w name ->
            (forall k', In k' (map fst h) ->
                        toLowerCase w k' = toLowerCase w name -> k' = k) ->
            FlowProxy.getHeader w event name = v)
      /\ ((forall k', In k' (map fst h) -> toLowerCase w k' <> toLowerCase w name) ->
          FlowProxy.getHeader w event name = [])
      /\ (forall a,
            FlowProxy.getHeader w event (js "content-type") = a -> ~ In 59 a ->
            FlowProxy.declaredContentType w event = toLowerCase w (trim a))
      /\ (forall a params,
            FlowProxy.getHeader w event (js "content-type") = a ++ 59 :: params ->
            ~ In 59 a ->
            FlowProxy.declaredContentType w event = toLowerCase w (trim a))).
Proof.
  split.
  - intros H. unfold FlowProxy.declaredContentType, FlowProxy.getHeader.
    rewrite H. split; reflexivity.
  - intros h H.
    assert (F : forall k, toLowerCase w k <> toLowerCase w name <->
                          str_eqb (toLowerCase w k) (toLowerCase w name) = false)
      by (intros k; symmetry; apply str_eqb_neq).
    repeat apply conj.
    + intros before k after E U L T. unfold FlowProxy.getHeader. rewrite H, E.
      rewrite (find_first _ before after k).
      * now rewrite T.
      * intros k' Hk'. apply F. now apply U.
      * rewrite L. apply str_eqb_refl.
    + intros k v N Hin T L U. unfold FlowProxy.getHeader. rewrite H.
      rewrite (find_only _ (Object_keys h) k).
      * now rewrite T, (obj_get_In h k v N Hin).
      * apply Object_keys_In. apply in_map_iff. now exists (k, v).
      * rewrite L. apply str_eqb_refl.
      * intros k' Hk' E. apply U; [now apply Object_keys_In | now apply str_eqb_eq].
    + intros U. unfold FlowProxy.getHeader. rewrite H.
      rewrite find_none; [reflexivity|].
      intros k' Hk'. apply F, U. now apply Object_keys_In.
    + intros a G S. unfold FlowProxy.declaredContentType.
      now rewrite G, str_or_empty, split_first_none.
    + intros a params G S. unfold FlowProxy.declaredContentType.
      now rewrite G, str_or_empty, split_first_app.
Qed.

(** Two headers, the content type the second: it is found, its charset
    dropped and its case folded. *)
Lemma declared_content_type_witness :
  FlowProxy.getHeader (Sample.world Sample.silent)
    (Event.Make (Some (js "POST")) (Some (js "/"))
       (Some [(js "Accept", js "*/*");
              (js "Content-Type", js " Application/X-WWW-Form-Urlencoded ; charset=UTF-8")])
       None (Some (js "a=1")) false)
    (js "content-type")
  = js " Application/X-WWW-Form-Urlencoded ; charset=UTF-8"
  /\ FlowProxy.declaredContentType (Sample.world Sample.silent)
       (Event.Make (Some (js "POST")) (Some (js "/"))
          (Some [(js "Accept", js "*/*");
                 (js "Content-Type", js " Application/X-WWW-Form-Urlencoded ; charset=UTF-8")])
          None (Some (js "a=1")) false)
     = js "application/x-www-form-urlencoded".
Proof.
  destruct (proj2 (declared_content_type (Sample.world Sample.silent)
                     (Event.Make (Some (js "POST")) (Some (js "/"))
                        (Some [(js "Accept", js "*/*");
                               (js "Content-Type",
                                js " Application/X-WWW-Form-Urlencoded ; charset=UTF-8")])
                        None (Some (js "a=1")) false)
                     (js "content-type"))
              _ eq_refl) as (_ & G & _ & _ & D).
  assert (E : FlowProxy.getHeader (Sample.world Sample.silent)
                (Event.Make (Some (js "POST")) (Some (js "/"))
                   (Some [(js "Accept", js "*/*");
                          (js "Content-Type",
                           js " Application/X-WWW-Form-Urlencoded ; charset=UTF-8")])
                   None (Some (js "a=1")) false)
                (js "content-type")
              = js " Application/X-WWW-Form-Urlencoded ; charset=UTF-8").
  { apply (G (js "Content-Type")).
    - repeat constructor; cbn; intuition discriminate.
    - right. left. reflexivity.
    - reflexivity.
    - reflexivity.
    - intros k' [<- | [<- | []]] L; [vm_compute in L; discriminate L | reflexivity]. }
  split; [exact E|].
  apply (D (js " Application/X-WWW-Form-Urlencoded ") (js " charset=UTF-8")).
  - exact E.
  - vm_compute. intuition discriminate.
Defined.

(** ** The 502 of a failed forward *)

Section GatewayFacts.
Variable w : World.




End GatewayFacts.


